(** * Temperature exporter: sensor discovery and merge engine

    A shallow embedding of [cmd/temperature-exporter/main.go]: the line
    reader, the hwmon, thermal-zone and [sensors -j] discoverers, and the
    [Collect] method that merges their readings into the gauge vector.

    Go strings are byte strings ([string]); the file system, the external
    command and the clock are an explicit environment; every system call
    and every log line is recorded in a trace.  A scrape either returns or
    panics, when the gauge vector is given a label value that is not valid
    UTF-8. *)

From Stdlib Require Import String Ascii List ZArith NArith QArith Uint63 PrimFloat Bool Lia.
From stdpp Require Import base option list gmap strings.

Set Warnings "-inexact-float,-register-all".

(** ** Go strings: the [strings] package on byte strings *)

Module strings.

(** [len(s)], as a binary number. *)
Definition len (s : string) : N := N.of_nat (String.length s).

(** [s[i:]] *)
Fixpoint drop (i : nat) (s : string) : string :=
  match i, s with
  | O, _ => s
  | S _, EmptyString => EmptyString
  | S i', String _ s' => drop i' s'
  end.

(** [s[:i]] *)
Fixpoint take (i : nat) (s : string) : string :=
  match i, s with
  | O, _ => EmptyString
  | S _, EmptyString => EmptyString
  | S i', String c s' => String c (take i' s')
  end.

(** [HasPrefix]: [len(s) >= len(prefix) && s[:len(prefix)] == prefix]. *)
Definition HasPrefix (s pre : string) : bool :=
  (String.length pre <=? String.length s)%nat
  && String.eqb (take (String.length pre) s) pre.

(** [HasSuffix]: [len(s) >= len(suffix) && s[len(s)-len(suffix):] == suffix]. *)
Definition HasSuffix (s suf : string) : bool :=
  (String.length suf <=? String.length s)%nat
  && String.eqb (drop (String.length s - String.length suf) s) suf.

(** [TrimPrefix]: [s[len(prefix):]] when [s] has the prefix, else [s]. *)
Definition TrimPrefix (s pre : string) : string :=
  if HasPrefix s pre then drop (String.length pre) s else s.

(** [TrimSuffix]: [s[:len(s)-len(suffix)]] when [s] has the suffix, else [s]. *)
Definition TrimSuffix (s suf : string) : string :=
  if HasSuffix s suf then take (String.length s - String.length suf) s else s.

(** [lo <= c <= hi], on the value of the byte. *)
Definition byteIn (lo hi : N) (c : ascii) : bool :=
  let n := N_of_ascii c in ((lo <=? n) && (n <=? hi))%N.

(** The white space of [TrimSpace] is that of [unicode.IsSpace]: the ASCII
    bytes tab, line feed, vertical tab, form feed, carriage return and
    space, and the runes U+0085, U+00A0, U+1680, U+2000 to U+200A, U+2028,
    U+2029, U+202F, U+205F and U+3000.  On the bytes of a string these
    runes are their UTF-8 encodings, of two or three bytes; a byte that
    starts no valid encoding decodes as U+FFFD, which is not white
    space. *)
Definition asciiSpace (c : ascii) : bool :=
  let n := N_of_ascii c in
  ((9 <=? n) && (n <=? 13) || (n =? 32))%N.

(** [c d] encodes U+0085 or U+00A0. *)
Definition space2 (c d : ascii) : bool :=
  byteIn 194 194 c && (byteIn 133 133 d || byteIn 160 160 d).

(** [c d e] encodes U+1680, U+2000..U+200A, U+2028, U+2029, U+202F,
    U+205F or U+3000. *)
Definition space3 (c d e : ascii) : bool :=
  byteIn 225 225 c && byteIn 154 154 d && byteIn 128 128 e
  || byteIn 226 226 c && byteIn 128 128 d
     && (byteIn 128 138 e || byteIn 168 169 e || byteIn 175 175 e)
  || byteIn 226 226 c && byteIn 129 129 d && byteIn 159 159 e
  || byteIn 227 227 c && byteIn 128 128 d && byteIn 128 128 e.

(** [w] is the encoding of one white-space rune. *)
Definition isSpace (w : string) : bool :=
  match w with
  | String c EmptyString => asciiSpace c
  | String c (String d EmptyString) => space2 c d
  | String c (String d (String e EmptyString)) => space3 c d e
  | _ => false
  end.

(** [s] starts with a white-space rune. *)
Definition spacePrefix (s : string) : bool :=
  match s with
  | String c s1 =>
      asciiSpace c
      || match s1 with
         | String d s2 =>
             space2 c d
             || match s2 with
                | String e _ => space3 c d e
                | EmptyString => false
                end
         | EmptyString => false
         end
  | EmptyString => false
  end.

(** The runes are decoded from the left: white-space runes are dropped
    up to the first rune that is none. *)
Fixpoint TrimLeftSpace (s : string) : string :=
  match s with
  | EmptyString => EmptyString
  | String c s1 =>
      if asciiSpace c then TrimLeftSpace s1
      else
        match s1 with
        | String d s2 =>
            if space2 c d then TrimLeftSpace s2
            else
              match s2 with
              | String e s3 => if space3 c d e then TrimLeftSpace s3 else s
              | EmptyString => s
              end
        | EmptyString => s
        end
  end.

(** From the right, the last rune is dropped as long as it is white
    space: what is left of [c s'] is [c] and what is left of [s'], unless
    that is one white-space rune. *)
Fixpoint TrimRightSpace (s : string) : string :=
  match s with
  | EmptyString => EmptyString
  | String c s' =>
      let t := TrimRightSpace s' in
      if isSpace (String c t) then EmptyString else String c t
  end.

Definition TrimSpace (s : string) : string := TrimRightSpace (TrimLeftSpace s).

(** Every byte of [s] is ASCII white space. *)
Fixpoint blank (s : string) : bool :=
  match s with
  | EmptyString => true
  | String c s' => asciiSpace c && blank s'
  end.

End strings.

(** ** [utf8.ValidString] *)

Module utf8.

(** A continuation byte. *)
Definition cont (c : ascii) : bool := strings.byteIn 128 191 c.

(** [c d] start a three-byte encoding that is not overlong and encodes no
    surrogate. *)
Definition lead3 (c d : ascii) : bool :=
  strings.byteIn 224 224 c && strings.byteIn 160 191 d
  || strings.byteIn 225 236 c && cont d
  || strings.byteIn 237 237 c && strings.byteIn 128 159 d
  || strings.byteIn 238 239 c && cont d.

(** [c d] start a four-byte encoding that is not overlong and encodes at
    most U+10FFFF. *)
Definition lead4 (c d : ascii) : bool :=
  strings.byteIn 240 240 c && strings.byteIn 144 191 d
  || strings.byteIn 241 243 c && cont d
  || strings.byteIn 244 244 c && strings.byteIn 128 143 d.

(** [s] is a sequence of well-formed encodings. *)
Fixpoint ValidString (s : string) : bool :=
  match s with
  | EmptyString => true
  | String c s1 =>
      if strings.byteIn 0 127 c then ValidString s1
      else
        match s1 with
        | EmptyString => false
        | String d s2 =>
            if strings.byteIn 194 223 c then cont d && ValidString s2
            else
              match s2 with
              | EmptyString => false
              | String e s3 =>
                  if lead3 c d then cont e && ValidString s3
                  else
                    match s3 with
                    | EmptyString => false
                    | String f s4 =>
                        lead4 c d && cont e && cont f && ValidString s4
                    end
              end
        end
  end.

End utf8.

(** ** Errors and fallible results *)

(** The error values the exporter meets: a failed system call or command,
    the scanner's [bufio.ErrTooLong], and [errors.New(text)]. *)
Inductive error : Type :=
| SysError (text : string)
| ErrTooLong
| errors_New (text : string).

(** A Go [(value, error)] return: [Err e] stands for [(zero, e)]. *)
Inductive result (A : Type) : Type :=
| Ok (a : A)
| Err (e : error).
Arguments Ok {A} a.
Arguments Err {A} e.

Definition is_Err {A} (r : result A) : Prop :=
  match r with Ok _ => False | Err _ => True end.

(** ** The environment: file system, and the trace of what is done to it *)

(** A cleaned path is the list of its components; [filepath.Join] appends
    one component. *)
Definition pathname : Type := list string.
Definition Join (dir : pathname) (name : string) : pathname := dir ++ [name].

(** [os.DirEntry]: what [os.ReadDir] reports about an entry, without
    following links. *)
Record DirEntry : Type := { Name : string; IsDir : bool }.

(** An open file as an [io.Reader]: the bytes it delivers, then either
    end of file ([None]) or a read error. *)
Record Reader : Type := { r_data : string; r_err : option error }.

Record FS : Type := {
  ReadDir : pathname -> result (list DirEntry);   (* os.ReadDir *)
  Open : pathname -> result Reader;               (* os.Open *)
  Stat : pathname -> option error                 (* os.Stat: [None] is success *)
}.

Inductive logline : Type :=
| LogDiscoverSensors (e : error)
| LogDiscoverThermalSensors (e : error)
| LogDiscoverSensorsCLI (e : error).

Inductive event : Type :=
| EvReadDir (p : pathname)
| EvOpen (p : pathname)
| EvStat (p : pathname)
| EvExec (bin : string)
| EvLog (l : logline).

(** ** Effects: a computation returns a value and the events it caused *)

Definition IO (A : Type) : Type := (A * list event)%type.

Definition io_ret {A} (a : A) : IO A := (a, []).
Definition io_bind {A B} (m : IO A) (k : A -> IO B) : IO B :=
  (fst (k (fst m)), snd m ++ snd (k (fst m))).
Definition emit (e : event) : IO unit := (tt, [e]).

Notation "x <- m ;; k" := (io_bind m (fun x => k))
  (at level 100, m at next level, right associativity).
Notation "m ;;; k" := (io_bind m (fun _ => k))
  (at level 100, right associativity).

(** [for _, x := range l { s = body x s }] *)
Fixpoint forEach {A S} (l : list A) (body : A -> S -> IO S) (s : S) : IO S :=
  match l with
  | [] => io_ret s
  | x :: l' => s' <- body x s ;; forEach l' body s'
  end.

(** A computation that may panic: [None] is the panic, which ends the
    computation, and the events are those up to it. *)
Definition io_try {A B} (m : IO (option A)) (k : A -> IO (option B)) : IO (option B) :=
  match fst m with
  | Some a => (fst (k a), snd m ++ snd (k a))
  | None => (None, snd m)
  end.

Notation "x <-? m ;; k" := (io_try m (fun x => k))
  (at level 100, m at next level, right associativity).

(** [for _, x := range l { s = body x s }], with a body that may panic. *)
Fixpoint forEachTry {A S} (l : list A) (body : A -> S -> IO (option S)) (s : S)
    : IO (option S) :=
  match l with
  | [] => io_ret (Some s)
  | x :: l' => s' <-? body x s ;; forEachTry l' body s'
  end.

(** ** [bufio.Scanner] with the default [ScanLines] split: the first [Scan] *)

Module bufio.

Definition MaxScanTokenSize : N := 65536.

(** The bytes before the first line feed, when there is one. *)
Fixpoint cutLine (s : string) : option string :=
  match s with
  | EmptyString => None
  | String c s' =>
      if Ascii.eqb c "010"%char then Some EmptyString
      else option_map (String c) (cutLine s')
  end.

(** The first line of [data]: up to the first line feed, or all of it. *)
Definition firstLine (data : string) : string :=
  match cutLine data with Some l => l | None => data end.

(** [dropCR]: a trailing carriage return is not part of the line. *)
Fixpoint dropCR (s : string) : string :=
  match s with
  | EmptyString => EmptyString
  | String c EmptyString => if Ascii.eqb c "013"%char then EmptyString else s
  | String c s' => String c (dropCR s')
  end.

(** What the first [Scan()] leaves: a token for [Text()], or no token and
    the value of [Err()] ([None] at a plain end of file). *)
Inductive scanned : Type :=
| Token (text : string)
| NoToken (err : option error).

(** The scanner reads into a buffer that grows up to [MaxScanTokenSize]
    bytes and asks [ScanLines] for a token after every read.  A line feed
    among the first [MaxScanTokenSize] bytes ends the first token; without
    one, a full buffer is [ErrTooLong]; at the end of the input (end of
    file or read error) the bytes read so far are the token, unless there
    are none. *)
Definition Scan (r : Reader) : scanned :=
  if (MaxScanTokenSize <=? strings.len (firstLine (r_data r)))%N then
    NoToken (Some ErrTooLong)
  else
    match cutLine (r_data r) with
    | Some l => Token (dropCR l)
    | None =>
        match r_data r with
        | EmptyString => NoToken (r_err r)
        | _ => Token (dropCR (r_data r))
        end
    end.

End bufio.

(** ** The line reader *)

Section LineReader.

Variable fs : FS.

Definition os_Open (p : pathname) : IO (result Reader) := (Open fs p, [EvOpen p]).
Definition os_ReadDir (p : pathname) : IO (result (list DirEntry)) :=
  (ReadDir fs p, [EvReadDir p]).
Definition os_Stat (p : pathname) : IO (option error) := (Stat fs p, [EvStat p]).

Definition readFirstLine (p : pathname) : IO (result string) :=
  f <- os_Open p ;;
  match f with
  | Err e => io_ret (Err e)
  | Ok r =>
      match bufio.Scan r with
      | bufio.Token text => io_ret (Ok (strings.TrimSpace text))
      | bufio.NoToken (Some e) => io_ret (Err e)
      | bufio.NoToken None => io_ret (Err (errors_New "empty file"))
      end
  end.

End LineReader.


(** ** Sensor descriptors and the hwmon discoverer *)

Definition float64 : Type := float.

(** [sensorReading]: a sensor found by a sysfs discoverer, not yet read. *)
Record sensorReading : Type := {
  chip : string;
  name : string;
  label : string;
  path : pathname;
  factor : float64
}.

Section Discoverers.

Variable fs : FS.

(** The label of [temp<idx>_input] (lines 133-140 of [discoverSensors]):
    [temp<idx>_label] when [readFirstLine] returns it without error, else
    [temp<idx>_type] likewise, else the empty string. *)
Definition discoverSensors_label (chipDir : pathname) (idx : string) : IO string :=
  l <- readFirstLine fs (Join chipDir ("temp" +:+ idx +:+ "_label")) ;;
  match l with
  | Ok l => io_ret l
  | Err _ =>
      tname <- readFirstLine fs (Join chipDir ("temp" +:+ idx +:+ "_type")) ;;
      match tname with
      | Ok tname => io_ret tname
      | Err _ => io_ret EmptyString
      end
  end.

(** The body of [for _, f := range files]. *)
Definition discoverSensors_file (chipDir : pathname) (chipName : string)
    (f : DirEntry) (sensors : list sensorReading) : IO (list sensorReading) :=
  let fname := Name f in
  if negb (strings.HasPrefix fname "temp") || negb (strings.HasSuffix fname "_input")
  then io_ret sensors
  else
    let idx := strings.TrimSuffix (strings.TrimPrefix fname "temp") "_input" in
    label <- discoverSensors_label chipDir idx ;;
    let sensorName := chipName in
    io_ret (sensors ++ [ {| chip := chipName;
                            name := sensorName;
                            label := label;
                            path := Join chipDir fname;
                            factor := 0.001%float |} ]).

(** The chip name: the [name] pseudo-file when it reads as a non-empty
    line, else the directory's own name. *)
Definition discoverSensors_chipName (e : DirEntry) (n : result string) : string :=
  match n with
  | Ok (String _ _ as n) => n
  | _ => Name e
  end.

(** The body of [for _, e := range entries]. *)
Definition discoverSensors_chip (basePath : pathname)
    (e : DirEntry) (sensors : list sensorReading) : IO (list sensorReading) :=
  if negb (IsDir e) then io_ret sensors
  else
    let chipDir := Join basePath (Name e) in
    n <- readFirstLine fs (Join chipDir "name") ;;
    let chipName := discoverSensors_chipName e n in
    files <- os_ReadDir fs chipDir ;;
    match files with
    | Err _ => io_ret sensors
    | Ok files => forEach files (discoverSensors_file chipDir chipName) sensors
    end.

Definition discoverSensors (basePath : pathname) : IO (result (list sensorReading)) :=
  entries <- os_ReadDir fs basePath ;;
  match entries with
  | Err err => io_ret (Err err)
  | Ok entries =>
      sensors <- forEach entries (discoverSensors_chip basePath) [] ;;
      io_ret (Ok sensors)
  end.

(** ** The thermal-zone discoverer *)

(** The body of [for _, e := range entries]; [ttype, _ := readFirstLine(...)]
    keeps the zero value on error. *)
Definition discoverThermalSensors_zone (thermalBase : pathname)
    (e : DirEntry) (sensors : list sensorReading) : IO (list sensorReading) :=
  if negb (IsDir e) || negb (strings.HasPrefix (Name e) "thermal_zone")
  then io_ret sensors
  else
    let zoneDir := Join thermalBase (Name e) in
    r <- readFirstLine fs (Join zoneDir "type") ;;
    let ttype := match r with Ok t => t | Err _ => EmptyString end in
    let tempPath := Join zoneDir "temp" in
    st <- os_Stat fs tempPath ;;
    match st with
    | None =>
        io_ret (sensors ++ [ {| chip := "thermal";
                                name := ttype;
                                label := Name e;
                                path := tempPath;
                                factor := 0.001%float |} ])
    | Some _ => io_ret sensors
    end.

Definition discoverThermalSensors (thermalBase : pathname)
    : IO (result (list sensorReading)) :=
  entries <- os_ReadDir fs thermalBase ;;
  match entries with
  | Err err => io_ret (Err err)
  | Ok entries =>
      sensors <- forEach entries (discoverThermalSensors_zone thermalBase) [] ;;
      io_ret (Ok sensors)
  end.

End Discoverers.

(** ** The [sensors -j] discoverer *)

(** What [json.Unmarshal] stores in an [interface{}]: nil, bool, float64,
    string, []interface{} or map[string]interface{}.  (It never stores an
    [int] or a [json.Number], the two other cases of the type switch.)  A
    map is the list of its entries in the order [range] visits them. *)
Inductive jvalue : Type :=
| JNull
| JBool (b : bool)
| JNumber (f : float64)
| JString (s : string)
| JArray (l : list jvalue)
| JObject (m : list (string * jvalue)).

(** [m[k]] with its [ok]. *)
Fixpoint mapIndex (m : list (string * jvalue)) (k : string) : option jvalue :=
  match m with
  | [] => None
  | (k', v) :: m' => if String.eqb k' k then Some v else mapIndex m' k
  end.

Definition isDigit (c : ascii) : bool :=
  ((48 <=? N_of_ascii c) && (N_of_ascii c <=? 57))%N.

Fixpoint allDigits (s : string) : bool :=
  match s with
  | EmptyString => true
  | String c s' => isDigit c && allDigits s'
  end.

(** [regexp.MustCompile(`^temp(\d+)_input$`).FindStringSubmatch(k)]: the
    submatch [match[1]] when [k] matches, [None] for a nil match. *)
Definition re_FindStringSubmatch (k : string) : option string :=
  if strings.HasPrefix k "temp" && strings.HasSuffix k "_input" then
    match strings.TrimSuffix (strings.TrimPrefix k "temp") "_input" with
    | EmptyString => None
    | digits => if allDigits digits then Some digits else None
    end
  else None.

Record cliReading : Type := {
  cli_chip : string;
  cli_name : string;
  cli_label : string;
  cli_value : float64
}.

(** The body of [for k, val := range sm]. *)
Definition discoverSensorsCLI_field (chip section : string)
    (sm : list (string * jvalue)) (res : list cliReading) (kv : string * jvalue)
    : list cliReading :=
  match re_FindStringSubmatch (fst kv) with
  | None => res
  | Some idx =>
      match snd kv with
      | JNumber f =>
          let labelKey := "temp" +:+ idx +:+ "_label" in
          let label :=
            match mapIndex sm labelKey with
            | Some (JString s) => s
            | _ => EmptyString
            end in
          res ++ [ {| cli_chip := chip;
                      cli_name := section;
                      cli_label := label;
                      cli_value := f |} ]
      | _ => res
      end
  end.

(** The body of [for section, sv := range m]. *)
Definition discoverSensorsCLI_section (chip : string)
    (res : list cliReading) (sv : string * jvalue) : list cliReading :=
  match snd sv with
  | JObject sm => foldl (discoverSensorsCLI_field chip (fst sv) sm) res sm
  | _ => res
  end.

(** The body of [for chip, v := range root]. *)
Definition discoverSensorsCLI_chip
    (res : list cliReading) (cv : string * jvalue) : list cliReading :=
  match snd cv with
  | JObject m => foldl (discoverSensorsCLI_section (fst cv)) res m
  | _ => res
  end.

(** ** The world of one scrape *)

(** The file system, the outcome of running [bin -j] under the timeout and
    decoding its output as a JSON object ([Err] for a failed or timed-out
    command or undecodable output), and the monotonic clock (nanoseconds)
    at [time.Now()] and at [time.Since(start)]. *)
Record World : Type := {
  w_fs : FS;
  w_sensors_j : string -> Z -> result (list (string * jvalue));
  w_start : Z;
  w_end : Z
}.

Definition discoverSensorsCLI (w : World) (bin : string) (timeout : Z)
    : IO (result (list cliReading)) :=
  out <- (w_sensors_j w bin timeout, [EvExec bin]) ;;
  match out with
  | Err err => io_ret (Err err)
  | Ok root => io_ret (Ok (foldl discoverSensorsCLI_chip [] root))
  end.

(** ** The collector *)

(** The identity of a time series: the label values (chip, sensor, label). *)
Abbreviation ReadingKey := (string * string * string)%type.

(** [time.Duration.Seconds()], in exact arithmetic. *)
Definition Seconds (d : Z) : Q := d # 1000000000.

(** The collector: its settings, and the contents of its two metrics (a
    gauge vector keyed by label values, and a gauge).  The gauge vector is
    the map from label values to the value last set: [Reset] empties it,
    [WithLabelValues(k).Set(v)] upserts, and panics when one of the label
    values is not valid UTF-8. *)
Record collector : Type := {
  basePath : pathname;
  thermalPath : pathname;
  enableHwmon : bool;
  enableThermal : bool;
  enableSensorsCli : bool;
  sensorsCliPath : string;
  sensorsTimeout : Z;
  sensors : gmap ReadingKey float64;
  scrapeTime : Q
}.

Definition newCollector (basePath thermalPath : pathname)
    (enableHwmon enableThermal enableSensorsCli : bool)
    (sensorsCliPath : string) (sensorsTimeout : Z) : collector :=
  {| basePath := basePath;
     thermalPath := thermalPath;
     enableHwmon := enableHwmon;
     enableThermal := enableThermal;
     enableSensorsCli := enableSensorsCli;
     sensorsCliPath := sensorsCliPath;
     sensorsTimeout := sensorsTimeout;
     sensors := ∅;
     scrapeTime := 0 |}.

(** The collector with new contents of its metrics. *)
Definition withMetrics (c : collector) (g : gmap ReadingKey float64) (t : Q)
    : collector :=
  {| basePath := basePath c;
     thermalPath := thermalPath c;
     enableHwmon := enableHwmon c;
     enableThermal := enableThermal c;
     enableSensorsCli := enableSensorsCli c;
     sensorsCliPath := sensorsCliPath c;
     sensorsTimeout := sensorsTimeout c;
     sensors := g;
     scrapeTime := t |}.

(** A metric sent on the channel [ch]. *)
Inductive Metric : Type :=
| temperature_celsius (k : ReadingKey) (v : float64)
| scrape_duration_seconds (v : Q).

(** The process: one collector and the package variable
    [sensorsCliWarned]. *)
Record process : Type := {
  coll : collector;
  sensorsCliWarned : bool
}.

Section Collector.

(** [strconv.ParseFloat(s, 64)]. *)
Variable ParseFloat : string -> result float64.

Definition sensorKey (s : sensorReading) : ReadingKey := (chip s, name s, label s).
Definition cliKey (r : cliReading) : ReadingKey :=
  (cli_chip r, cli_name r, cli_label r).

(** Lines 262-275: the descriptors of the enabled sysfs backends. *)
Definition Collect_discover (w : World) (c : collector) : IO (list sensorReading) :=
  let sensors : list sensorReading := [] in
  sensors <-
    (if enableHwmon c then
       s <- discoverSensors (w_fs w) (basePath c) ;;
       match s with
       | Ok s => io_ret (sensors ++ s)
       | Err err => emit (EvLog (LogDiscoverSensors err)) ;;; io_ret sensors
       end
     else io_ret sensors) ;;
  (if enableThermal c then
     s <- discoverThermalSensors (w_fs w) (thermalPath c) ;;
     match s with
     | Ok s => io_ret (sensors ++ s)
     | Err err => emit (EvLog (LogDiscoverThermalSensors err)) ;;; io_ret sensors
     end
   else io_ret sensors).

(** The label values [WithLabelValues] accepts: each is valid UTF-8. *)
Definition validLabelValues (k : ReadingKey) : bool :=
  utf8.ValidString k.1.1 && utf8.ValidString k.1.2 && utf8.ValidString k.2.

(** [c.sensors.WithLabelValues(chip, sensor, label).Set(v)] on the contents
    [g] of the gauge vector; [None] is the panic of [WithLabelValues]. *)
Definition WithLabelValues_Set (g : gmap ReadingKey float64) (k : ReadingKey)
    (v : float64) : option (gmap ReadingKey float64) :=
  if validLabelValues k then Some (<[ k := v ]> g) else None.

(** Lines 279-292: the body of [for _, s := range sensors], on the
    contents [g] of the gauge vector. *)
Definition Collect_read (w : World) (s : sensorReading)
    (g : gmap ReadingKey float64) : IO (option (gmap ReadingKey float64)) :=
  raw <- readFirstLine (w_fs w) (path s) ;;
  match raw with
  | Err _ => io_ret (Some g)
  | Ok raw =>
      match ParseFloat (strings.TrimSpace raw) with
      | Err _ => io_ret (Some g)
      | Ok v =>
          let tempC := PrimFloat.mul v (factor s) in
          io_ret (WithLabelValues_Set g (sensorKey s) tempC)
      end
  end.

(** Line 298: [c.sensors.WithLabelValues(r.chip, r.name, r.label).Set(r.value)]. *)
Definition Collect_set (g : gmap ReadingKey float64) (r : cliReading)
    : option (gmap ReadingKey float64) :=
  WithLabelValues_Set g (cliKey r) (cli_value r).

(** Lines 295-306: the [sensors -j] readings, or the one warning. *)
Definition Collect_cli (w : World) (c : collector)
    (g : gmap ReadingKey float64) (warned : bool)
    : IO (option (gmap ReadingKey float64 * bool)) :=
  if enableSensorsCli c then
    r <- discoverSensorsCLI w (sensorsCliPath c) (sensorsTimeout c) ;;
    match r with
    | Ok readings =>
        g <-? forEachTry readings (fun r g => io_ret (Collect_set g r)) g ;;
        io_ret (Some (g, warned))
    | Err err =>
        if negb warned then
          emit (EvLog (LogDiscoverSensorsCLI err)) ;;;
          io_ret (Some (g, true))
        else io_ret (Some (g, warned))
    end
  else io_ret (Some (g, warned)).

(** [c.sensors.Collect(ch)]: one metric per entry of the gauge vector. *)
Definition GaugeVec_Collect (g : gmap ReadingKey float64) : list Metric :=
  (fun kv => temperature_celsius (fst kv) (snd kv)) <$> map_to_list g.

(** One scrape: the process afterwards and the metrics sent on [ch], or
    [None] when [WithLabelValues] panics: nothing is sent then, and the
    scrape duration is not set. *)
Definition Collect (w : World) (p : process) : IO (option (process * list Metric)) :=
  let c := coll p in
  let start := w_start w in
  sensors <- Collect_discover w c ;;
  let g : gmap ReadingKey float64 := ∅ in
  g <-? forEachTry sensors (Collect_read w) g ;;
  gw <-? Collect_cli w c g (sensorsCliWarned p) ;;
  let ch := GaugeVec_Collect (fst gw) in
  let t := Seconds (w_end w - start) in
  let ch := ch ++ [scrape_duration_seconds t] in
  io_ret (Some ({| coll := withMetrics c (fst gw) t; sensorsCliWarned := snd gw |}, ch)).

(** The process lifetime: scrapes one after the other, each in its world.
    [Collect] runs in a goroutine of the registry, where nothing recovers
    a panic: a scrape that panics ends the process. *)
Definition serve (ws : list World) (p : process) : IO (option process) :=
  forEachTry ws (fun w p => r <-? Collect w p ;; io_ret (Some (fst r))) p.

End Collector.

(** ** What a scrape observes *)

Section Observed.

Variable ParseFloat : string -> result float64.

(** The reading a descriptor gives when its file is read: its key and the
    parsed value times the scale factor; none when the read fails or the
    content is not a number. *)
Definition reading (w : World) (s : sensorReading) : option (ReadingKey * float64) :=
  match fst (readFirstLine (w_fs w) (path s)) with
  | Err _ => None
  | Ok raw =>
      match ParseFloat (strings.TrimSpace raw) with
      | Err _ => None
      | Ok v => Some (sensorKey s, PrimFloat.mul v (factor s))
      end
  end.

(** The thermal descriptors of a scrape. *)
Definition thermalDescriptors (w : World) (c : collector) : list sensorReading :=
  if enableThermal c then
    match fst (discoverThermalSensors (w_fs w) (thermalPath c)) with
    | Ok s => s
    | Err _ => []
    end
  else [].

(** The readings of the sysfs descriptors of a scrape, in order. *)
Definition sysfsObserved (w : World) (c : collector) : list (ReadingKey * float64) :=
  omap (reading w) (fst (Collect_discover w c)).

(** The readings of [sensors -j], in order; none when it is disabled or fails. *)
Definition cliObserved (w : World) (c : collector) : list (ReadingKey * float64) :=
  if enableSensorsCli c then
    match fst (discoverSensorsCLI w (sensorsCliPath c) (sensorsTimeout c)) with
    | Ok readings => (fun r => (cliKey r, cli_value r)) <$> readings
    | Err _ => []
    end
  else [].

Definition observed (w : World) (c : collector) : list (ReadingKey * float64) :=
  sysfsObserved w c ++ cliObserved w c.

(** [WithLabelValues(k).Set(v)] for each reading in turn. *)
Definition upserts (g : gmap ReadingKey float64) (l : list (ReadingKey * float64))
    : gmap ReadingKey float64 :=
  foldl (fun g kv => <[ fst kv := snd kv ]> g) g l.

(** Every reading has label values that [WithLabelValues] accepts. *)
Definition validKeys (l : list (ReadingKey * float64)) : bool :=
  forallb (fun kv => validLabelValues (fst kv)) l.

End Observed.

(** The temperature series among the metrics sent. *)
Definition temperatures (ch : list Metric) : list (ReadingKey * float64) :=
  omap (fun m => match m with
                 | temperature_celsius k v => Some (k, v)
                 | scrape_duration_seconds _ => None
                 end) ch.

(** The number of [discoverSensorsCLI error] lines in a trace. *)
Definition isCliWarning (e : event) : bool :=
  match e with
  | EvLog (LogDiscoverSensorsCLI _) => true
  | _ => false
  end.
Definition cliWarnings (t : list event) : nat := length (filter isCliWarning t).

(** The scrape's [sensors -j] run fails. *)
Definition cliFails (w : World) (c : collector) : bool :=
  enableSensorsCli c &&
  match w_sensors_j w (sensorsCliPath c) (sensorsTimeout c) with
  | Ok _ => false
  | Err _ => true
  end.

(** The process at its start: [sensorsCliWarned] has its zero value. *)
Definition start (c : collector) : process :=
  {| coll := c; sensorsCliWarned := false |}.

(** ** The selection of the hwmon discoverer, as functions *)

(** The index the hwmon discoverer takes from a file name (lines 128-132):
    the text between the prefix [temp] and the suffix [_input], for a name
    that has both. *)
Definition hwmonIndex (fname : string) : option string :=
  if strings.HasPrefix fname "temp" && strings.HasSuffix fname "_input"
  then Some (strings.TrimSuffix (strings.TrimPrefix fname "temp") "_input")
  else None.

(** The descriptor appended for the file [fname] of a chip (lines 133-149). *)
Definition hwmonDescriptor (fs : FS) (chipDir : pathname) (chipName fname idx : string)
    : sensorReading :=
  {| chip := chipName;
     name := chipName;
     label := fst (discoverSensors_label fs chipDir idx);
     path := Join chipDir fname;
     factor := 0.001%float |}.

(** ** The specification's wording, for comparison *)

(** Specification, section 4.2 step 3: the files selected are those named
    [temp<N>_input] for a non-empty digit sequence [<N>]. *)
Definition spec_selected (fs : FS) (chipDir : pathname) (chipName : string)
    (files : list DirEntry) : list sensorReading :=
  omap (fun f => hwmonDescriptor fs chipDir chipName (Name f)
                   <$> re_FindStringSubmatch (Name f)) files.

(** Specification, section 4.2 step 4: the content of [temp<N>_label] if
    readable and non-empty, else the content of [temp<N>_type] if readable
    and non-empty, else the empty string. *)
Definition spec_label (fs : FS) (chipDir : pathname) (idx : string) : string :=
  match fst (readFirstLine fs (Join chipDir ("temp" +:+ idx +:+ "_label"))) with
  | Ok (String _ _ as l) => l
  | _ =>
      match fst (readFirstLine fs (Join chipDir ("temp" +:+ idx +:+ "_type"))) with
      | Ok (String _ _ as t) => t
      | _ => EmptyString
      end
  end.

(** Specification, section 4.1: the line reader fails if and only if the
    file cannot be opened or contains no line before the end of file. *)
Definition spec_readFirstLine_fails (fs : FS) (p : pathname) : Prop :=
  is_Err (fst (readFirstLine fs p)) <->
  match Open fs p with
  | Err _ => True
  | Ok r => r_data r = EmptyString
  end.

(** ** Environments for the examples *)

Fixpoint assoc {A} (p : pathname) (l : list (pathname * A)) : option A :=
  match l with
  | [] => None
  | (q, a) :: l' => if decide (p = q) then Some a else assoc p l'
  end.

Definition ENOENT : error := SysError "no such file or directory".
Definition EISDIR : error := SysError "is a directory".

(** A file system of listable directories and readable regular files; a
    directory opens, and reading it fails. *)
Definition tree (dirs : list (pathname * list DirEntry))
    (files : list (pathname * string)) : FS :=
  {| ReadDir := fun p =>
       match assoc p dirs with Some es => Ok es | None => Err ENOENT end;
     Open := fun p =>
       match assoc p files, assoc p dirs with
       | Some data, _ => Ok {| r_data := data; r_err := None |}
       | None, Some _ => Ok {| r_data := EmptyString; r_err := Some EISDIR |}
       | None, None => Err ENOENT
       end;
     Stat := fun p =>
       match assoc p files, assoc p dirs with
       | None, None => Some ENOENT
       | _, _ => None
       end |}.

Definition file (name : string) : DirEntry := {| Name := name; IsDir := false |}.
Definition dir (name : string) : DirEntry := {| Name := name; IsDir := true |}.

Fixpoint decimal (acc : Z) (s : string) : Z :=
  match s with
  | EmptyString => acc
  | String c s' => decimal (10 * acc + (Z.of_N (N_of_ascii c) - 48)) s'
  end.

(** [strconv.ParseFloat] on the inputs of the examples: a non-empty
    sequence of decimal digits is the integer it denotes (exact below
    2^53); anything else is taken as a syntax error. *)
Definition ParseFloat_decimal (s : string) : result float64 :=
  match s with
  | EmptyString => Err (SysError "invalid syntax")
  | _ =>
      if allDigits s then Ok (PrimFloat.of_uint63 (Uint63.of_Z (decimal 0 s)))
      else Err (SysError "invalid syntax")
  end.

Definition world (fs : FS) (cli : result (list (string * jvalue))) : World :=
  {| w_fs := fs; w_sensors_j := fun _ _ => cli; w_start := 1000; w_end := 2500 |}.

Definition hwmon : pathname := ["sys"; "class"; "hwmon"].
Definition thermal : pathname := ["sys"; "class"; "thermal"].

Fixpoint doubled (n : nat) (s : string) : string :=
  match n with
  | O => s
  | S n' => doubled n' (s +:+ s)
  end.

(** A line of 65536 bytes, and a regular file that holds it, terminated
    by a line feed. *)
Definition long_line : string := doubled 16 "x".
Definition fs_long_line : FS :=
  tree [] [ (["f"], long_line +:+ String "010"%char EmptyString) ].


Definition LF : string := String "010"%char EmptyString.

(** A chip whose directory has, besides [name], two files that start with
    [temp] and end with [_input] without a number in between. *)
Definition fs_odd_names : FS :=
  tree
    [ (hwmon, [dir "hwmon0"]);
      (hwmon ++ ["hwmon0"], [file "name"; file "temp_input"; file "tempfoo_input"]) ]
    [ (hwmon ++ ["hwmon0"; "name"], "acpitz" +:+ LF);
      (hwmon ++ ["hwmon0"; "temp_input"], "41000" +:+ LF);
      (hwmon ++ ["hwmon0"; "tempfoo_input"], "42000" +:+ LF) ].

(** A chip whose [temp3_label] holds a blank line and whose [temp3_type]
    holds [Tdie]. *)
Definition fs_blank_label : FS :=
  tree
    [ (hwmon, [dir "hwmon0"]);
      (hwmon ++ ["hwmon0"],
       [file "name"; file "temp3_input"; file "temp3_label"; file "temp3_type"]) ]
    [ (hwmon ++ ["hwmon0"; "name"], "k10temp" +:+ LF);
      (hwmon ++ ["hwmon0"; "temp3_input"], "45000" +:+ LF);
      (hwmon ++ ["hwmon0"; "temp3_label"], " " +:+ LF);
      (hwmon ++ ["hwmon0"; "temp3_type"], "Tdie" +:+ LF) ].

(** A chip whose [temp3_label] holds a line of 65536 bytes and whose
    [temp3_type] holds [Tdie]. *)
Definition fs_long_label : FS :=
  tree
    [ (hwmon, [dir "hwmon0"]);
      (hwmon ++ ["hwmon0"],
       [file "name"; file "temp3_input"; file "temp3_label"; file "temp3_type"]) ]
    [ (hwmon ++ ["hwmon0"; "name"], "k10temp" +:+ LF);
      (hwmon ++ ["hwmon0"; "temp3_input"], "45000" +:+ LF);
      (hwmon ++ ["hwmon0"; "temp3_label"], long_line +:+ LF);
      (hwmon ++ ["hwmon0"; "temp3_type"], "Tdie" +:+ LF) ].

(** A chip with a label for [temp1] only, and a type for [temp2] only. *)
Definition fs_labels : FS :=
  tree
    [ (hwmon, [dir "hwmon0"]);
      (hwmon ++ ["hwmon0"],
       [file "name"; file "temp1_input"; file "temp1_label"; file "temp1_type";
        file "temp2_input"; file "temp2_type"; file "temp3_input"]) ]
    [ (hwmon ++ ["hwmon0"; "name"], "k10temp" +:+ LF);
      (hwmon ++ ["hwmon0"; "temp1_input"], "45000" +:+ LF);
      (hwmon ++ ["hwmon0"; "temp1_label"], "Tctl" +:+ LF);
      (hwmon ++ ["hwmon0"; "temp1_type"], "Tdie" +:+ LF);
      (hwmon ++ ["hwmon0"; "temp2_input"], "46000" +:+ LF);
      (hwmon ++ ["hwmon0"; "temp2_type"], "Tdie" +:+ LF);
      (hwmon ++ ["hwmon0"; "temp3_input"], "47000" +:+ LF) ].

(** A chip with two temperature inputs and neither labels nor types. *)
Definition fs_two_inputs : FS :=
  tree
    [ (hwmon, [dir "hwmon0"]);
      (hwmon ++ ["hwmon0"], [file "name"; file "temp1_input"; file "temp2_input"]) ]
    [ (hwmon ++ ["hwmon0"; "name"], "acpitz" +:+ LF);
      (hwmon ++ ["hwmon0"; "temp1_input"], "40000" +:+ LF);
      (hwmon ++ ["hwmon0"; "temp2_input"], "50000" +:+ LF) ].

(** A collector that reads hwmon only. *)
Definition hwmon_only : collector :=
  newCollector hwmon thermal true false false "sensors" 2000000000.


(** No hwmon directory at all; two thermal zones, one without [temp];
    and a cooling device. *)
Definition fs_thermal_only : FS :=
  tree
    [ (thermal, [dir "cooling_device0"; dir "thermal_zone0"; dir "thermal_zone1"]);
      (thermal ++ ["cooling_device0"], [file "type"]);
      (thermal ++ ["thermal_zone0"], [file "temp"; file "type"]);
      (thermal ++ ["thermal_zone1"], [file "type"]) ]
    [ (thermal ++ ["cooling_device0"; "type"], "Processor" +:+ LF);
      (thermal ++ ["thermal_zone0"; "temp"], "47000" +:+ LF);
      (thermal ++ ["thermal_zone0"; "type"], "x86_pkg_temp" +:+ LF);
      (thermal ++ ["thermal_zone1"; "type"], "acpitz" +:+ LF) ].

(** Three labelled inputs: the first reads as a number, the second does
    not, the third is listed and cannot be opened. *)
Definition fs_garbled : FS :=
  tree
    [ (hwmon, [dir "hwmon0"]);
      (hwmon ++ ["hwmon0"],
       [file "temp1_input"; file "temp1_label"; file "temp2_input"; file "temp2_label";
        file "temp3_input"; file "temp3_label"; file "temp4_input"; file "temp4_label"]) ]
    [ (hwmon ++ ["hwmon0"; "temp1_input"], "40000" +:+ LF);
      (hwmon ++ ["hwmon0"; "temp1_label"], "a" +:+ LF);
      (hwmon ++ ["hwmon0"; "temp2_input"], "n/a" +:+ LF);
      (hwmon ++ ["hwmon0"; "temp2_label"], "b" +:+ LF);
      (hwmon ++ ["hwmon0"; "temp3_label"], "c" +:+ LF);
      (hwmon ++ ["hwmon0"; "temp4_input"], "44000" +:+ LF);
      (hwmon ++ ["hwmon0"; "temp4_label"], "d" +:+ LF) ].

(** A collector with the three backends enabled, as by default. *)
Definition all_backends : collector :=
  newCollector hwmon thermal true true true "sensors" 2000000000.

(** [sensors -j] output with the key of the hwmon readings of
    [fs_two_inputs]. *)
Definition cli_same_key : list (string * jvalue) :=
  [ ("acpitz", JObject [ ("acpitz", JObject [ ("temp1_input", JNumber 39%float) ]) ]) ].


(** No hwmon directory; one thermal zone whose [type] file holds the byte
    0xFF, which is no valid UTF-8, and whose [temp] file holds a number. *)
Definition fs_invalid_type : FS :=
  tree
    [ (thermal, [dir "thermal_zone0"]);
      (thermal ++ ["thermal_zone0"], [file "temp"; file "type"]) ]
    [ (thermal ++ ["thermal_zone0"; "temp"], "47000" +:+ LF);
      (thermal ++ ["thermal_zone0"; "type"], String "255"%char LF) ].

(** U+00A0, the no-break space, in UTF-8. *)
Definition NBSP : string := String "194"%char (String "160"%char EmptyString).

(** A label file whose line is wrapped in no-break spaces. *)
Definition fs_nbsp_label : FS :=
  tree [] [ (["temp1_label"], NBSP +:+ "Tctl" +:+ NBSP +:+ LF) ].

(** Two thermal zones with the same [type], both with a [temp] file. *)
Definition fs_two_zones : FS :=
  tree
    [ (thermal, [dir "thermal_zone0"; dir "thermal_zone1"]);
      (thermal ++ ["thermal_zone0"], [file "temp"; file "type"]);
      (thermal ++ ["thermal_zone1"], [file "temp"; file "type"]) ]
    [ (thermal ++ ["thermal_zone0"; "temp"], "47000" +:+ LF);
      (thermal ++ ["thermal_zone0"; "type"], "acpitz" +:+ LF);
      (thermal ++ ["thermal_zone1"; "temp"], "48000" +:+ LF);
      (thermal ++ ["thermal_zone1"; "type"], "acpitz" +:+ LF) ].

(** ** The discoverers as functions of the listings *)

(** The chip name of the entry [e] of the hwmon base path (line 116). *)
Definition hwmonChipName (fs : FS) (basePath : pathname) (e : DirEntry) : string :=
  discoverSensors_chipName e
    (fst (readFirstLine fs (Join (Join basePath (Name e)) "name"))).

(** What one entry of the hwmon base path contributes (lines 110-150). *)
Definition hwmonChip (fs : FS) (basePath : pathname) (e : DirEntry)
    : list sensorReading :=
  if IsDir e then
    match ReadDir fs (Join basePath (Name e)) with
    | Ok files =>
        omap (fun f => hwmonDescriptor fs (Join basePath (Name e))
                         (hwmonChipName fs basePath e) (Name f)
                         <$> hwmonIndex (Name f)) files
    | Err _ => []
    end
  else [].

(** The zones among the entries of the thermal base path (line 163). *)
Definition isZone (e : DirEntry) : bool :=
  IsDir e && strings.HasPrefix (Name e) "thermal_zone".

(** The descriptor of a zone (lines 166-177). *)
Definition thermalDescriptor (fs : FS) (thermalBase : pathname) (e : DirEntry)
    : sensorReading :=
  {| chip := "thermal";
     name := match fst (readFirstLine fs (Join (Join thermalBase (Name e)) "type")) with
             | Ok t => t
             | Err _ => EmptyString
             end;
     label := Name e;
     path := Join (Join thermalBase (Name e)) "temp";
     factor := 0.001%float |}.

(** What one entry of the thermal base path contributes (lines 163-178). *)
Definition thermalZone (fs : FS) (thermalBase : pathname) (e : DirEntry)
    : list sensorReading :=
  if isZone e then
    match Stat fs (Join (Join thermalBase (Name e)) "temp") with
    | None => [thermalDescriptor fs thermalBase e]
    | Some _ => []
    end
  else [].

(** The system calls one entry of the thermal base path causes. *)
Definition thermalZoneCalls (thermalBase : pathname) (e : DirEntry) : list event :=
  if isZone e then
    [EvOpen (Join (Join thermalBase (Name e)) "type");
     EvStat (Join (Join thermalBase (Name e)) "temp")]
  else [].

(** The label of the field [temp<idx>_input] of a section (lines 238-245). *)
Definition cliLabel (sm : list (string * jvalue)) (idx : string) : string :=
  match mapIndex sm ("temp" +:+ idx +:+ "_label") with
  | Some (JString s) => s
  | _ => EmptyString
  end.

(** The reading of one field of a section, if it gives one (lines 220-251). *)
Definition cliField (chip section : string) (sm : list (string * jvalue))
    (kv : string * jvalue) : option cliReading :=
  match re_FindStringSubmatch (fst kv), snd kv with
  | Some idx, JNumber f =>
      Some {| cli_chip := chip; cli_name := section;
              cli_label := cliLabel sm idx; cli_value := f |}
  | _, _ => None
  end.

Definition cliSection (chip : string) (sv : string * jvalue) : list cliReading :=
  match snd sv with
  | JObject sm => omap (cliField chip (fst sv) sm) sm
  | _ => []
  end.

Definition cliChip (cv : string * jvalue) : list cliReading :=
  match snd cv with
  | JObject m => m ≫= cliSection (fst cv)
  | _ => []
  end.

(** The events of a trace that are system calls on the file system. *)
Definition isFsCall (e : event) : bool :=
  match e with
  | EvReadDir _ | EvOpen _ | EvStat _ => true
  | _ => false
  end.

Definition isExec (e : event) : bool :=
  match e with
  | EvExec _ => true
  | _ => false
  end.

(** The file name of a path: its last component. *)
Definition Base (p : pathname) : string := default EmptyString (last p).

(** A system call on the file system that is not the opening of a file
    named [..._input]. *)
Definition quietCall (ev : event) : Prop :=
  isFsCall ev = true
  /\ forall p, ev = EvOpen p -> strings.HasSuffix (Base p) "_input" = false.

(** The [discoverSensors error] and [discoverThermalSensors error] lines. *)
Definition isHwmonWarning (e : event) : bool :=
  match e with
  | EvLog (LogDiscoverSensors _) => true
  | _ => false
  end.

Definition isThermalWarning (e : event) : bool :=
  match e with
  | EvLog (LogDiscoverThermalSensors _) => true
  | _ => false
  end.

(** The scrape's hwmon discovery fails; its thermal discovery fails. *)
Definition hwmonFails (w : World) (c : collector) : bool :=
  enableHwmon c &&
  match ReadDir (w_fs w) (basePath c) with
  | Ok _ => false
  | Err _ => true
  end.

Definition thermalFails (w : World) (c : collector) : bool :=
  enableThermal c &&
  match ReadDir (w_fs w) (thermalPath c) with
  | Ok _ => false
  | Err _ => true
  end.

(** ** Request logging *)

(** The calls a handler makes on its [http.ResponseWriter]. *)
Inductive call : Type :=
| CallWriteHeader (code : Z)
| CallWrite (data : string)
| CallHeaderSet (key value : string).

(** An [http.ResponseWriter]: a state and its methods. *)
Class ResponseWriter (W : Type) : Type := {
  WriteHeader : Z -> W -> W;
  Write : string -> W -> W;
  HeaderSet : string -> string -> W -> W
}.

Definition perform {W} `{ResponseWriter W} (c : call) (w : W) : W :=
  match c with
  | CallWriteHeader code => WriteHeader code w
  | CallWrite data => Write data w
  | CallHeaderSet k v => HeaderSet k v w
  end.

(** A handler serving a request: its calls, in order. *)
Definition ServeHTTP {W} `{ResponseWriter W} (calls : list call) (w : W) : W :=
  foldl (fun w c => perform c w) w calls.

(** [loggingResponseWriter]: the embedded writer and the captured status. *)
Record loggingResponseWriter (W : Type) : Type := {
  lrw_ResponseWriter : W;
  lrw_status : Z
}.
Arguments lrw_ResponseWriter {W} _.
Arguments lrw_status {W} _.

(** [WriteHeader] is the wrapper's own method; the other methods are those
    of the embedded writer. *)
#[export] Instance loggingResponseWriter_ResponseWriter {W} `{ResponseWriter W}
    : ResponseWriter (loggingResponseWriter W) := {
  WriteHeader code lrw :=
    {| lrw_ResponseWriter := WriteHeader code (lrw_ResponseWriter lrw);
       lrw_status := code |};
  Write data lrw :=
    {| lrw_ResponseWriter := Write data (lrw_ResponseWriter lrw);
       lrw_status := lrw_status lrw |};
  HeaderSet k v lrw :=
    {| lrw_ResponseWriter := HeaderSet k v (lrw_ResponseWriter lrw);
       lrw_status := lrw_status lrw |}
}.

(** The access log line: method, path, status and duration. *)
Record accessLog : Type := {
  log_method : string;
  log_path : string;
  log_status : Z;
  log_duration : Z
}.

Record Request : Type := { Method : string; URL_Path : string }.

(** [withRequestLogging(next)]: the writer after the request and the line
    logged; [next] gives the calls of the wrapped handler, [t0] and [t1]
    are the clock before and after it. *)
Definition withRequestLogging {W} `{ResponseWriter W}
    (next : Request -> list call) (t0 t1 : Z) (w : W) (r : Request)
    : W * accessLog :=
  let start := t0 in
  let lrw := {| lrw_ResponseWriter := w; lrw_status := 200 |} in
  let lrw := ServeHTTP (next r) lrw in
  let dur := (t1 - start)%Z in
  (lrw_ResponseWriter lrw,
   {| log_method := Method r; log_path := URL_Path r;
      log_status := lrw_status lrw; log_duration := dur |}).

(** The last status code a handler passes to [WriteHeader], if any. *)
Fixpoint lastCode (calls : list call) : option Z :=
  match calls with
  | [] => None
  | c :: calls' =>
      match lastCode calls' with
      | Some code => Some code
      | None => match c with CallWriteHeader code => Some code | _ => None end
      end
  end.

(** A writer that records the calls it receives. *)
#[export] Instance recorder_ResponseWriter : ResponseWriter (list call) := {
  WriteHeader code w := w ++ [CallWriteHeader code];
  Write data w := w ++ [CallWrite data];
  HeaderSet k v w := w ++ [CallHeaderSet k v]
}.

(** The byte [c] occurs in [s]. *)
Fixpoint contains (c : ascii) (s : string) : bool :=
  match s with
  | EmptyString => false
  | String c' s' => Ascii.eqb c' c || contains c s'
  end.

(** The events of the [sensors -j] step of a scrape (lines 295-306), with
    [warned] the value of [sensorsCliWarned] before the scrape. *)
Definition cliCalls (w : World) (c : collector) (warned : bool) : list event :=
  if enableSensorsCli c then
    EvExec (sensorsCliPath c)
    :: match w_sensors_j w (sensorsCliPath c) (sensorsTimeout c) with
       | Ok _ => []
       | Err err => if warned then [] else [EvLog (LogDiscoverSensorsCLI err)]
       end
  else [].

(** * Properties *)

(** ** Computations and their traces *)

Lemma fst_io_bind {A B} (m : IO A) (k : A -> IO B) :
  fst (io_bind m k) = fst (k (fst m)).
Proof. reflexivity. Qed.

Lemma snd_io_bind {A B} (m : IO A) (k : A -> IO B) :
  snd (io_bind m k) = snd m ++ snd (k (fst m)).
Proof. reflexivity. Qed.

Lemma fst_io_try {A B} (m : IO (option A)) (k : A -> IO (option B)) :
  fst (io_try m k) = fst m ≫= fun a => fst (k a).
Proof. unfold io_try. by destruct (fst m). Qed.

Lemma snd_io_try {A B} (m : IO (option A)) (k : A -> IO (option B)) :
  snd (io_try m k)
  = snd m ++ match fst m with Some a => snd (k a) | None => [] end.
Proof. unfold io_try. destruct (fst m); [reflexivity|]. by rewrite app_nil_r. Qed.

Lemma forEach_fst {A S} (body : A -> S -> IO S) (l : list A) (s : S) :
  fst (forEach l body s) = foldl (fun s x => fst (body x s)) s l.
Proof.
  revert s. induction l as [|x l IH]; intros s; [reflexivity|].
  cbn [forEach foldl]. rewrite fst_io_bind. apply IH.
Qed.

(** A property kept by every iteration holds after the loop. *)
Lemma forEach_invariant {A S} (P : S -> Prop) (body : A -> S -> IO S) (l : list A) :
  (forall x s, P s -> P (fst (body x s))) ->
  forall s, P s -> P (fst (forEach l body s)).
Proof.
  intros Hbody. induction l as [|x l IH]; intros s Hs; [exact Hs|].
  cbn [forEach]. rewrite fst_io_bind. apply IH, Hbody, Hs.
Qed.

(** ** Byte strings *)

Lemma app_String c s t : String c s +:+ t = String c (s +:+ t).
Proof. reflexivity. Qed.

Lemma string_app_length s t :
  String.length (s +:+ t) = (String.length s + String.length t)%nat.
Proof. induction s as [|c s IH]; [reflexivity|]. rewrite app_String. cbn. by rewrite IH. Qed.

Lemma app_assoc_string s t u : (s +:+ t) +:+ u = s +:+ (t +:+ u).
Proof. induction s as [|c s IH]; [reflexivity|]. rewrite !app_String. by rewrite IH. Qed.

Lemma take_drop_string n s : strings.take n s +:+ strings.drop n s = s.
Proof.
  revert s. induction n as [|n IH]; intros [|c s]; try reflexivity.
  cbn [strings.take strings.drop]. rewrite app_String. by rewrite IH.
Qed.

Lemma take_app_string s t : strings.take (String.length s) (s +:+ t) = s.
Proof. induction s as [|c s IH]; [by destruct t|]. rewrite app_String. cbn. by rewrite IH. Qed.

Lemma drop_app_string s t : strings.drop (String.length s) (s +:+ t) = t.
Proof. induction s as [|c s IH]; [by destruct t|]. rewrite app_String. cbn. exact IH. Qed.

Lemma HasPrefix_iff s pre :
  strings.HasPrefix s pre = true <-> exists r, s = pre +:+ r.
Proof.
  unfold strings.HasPrefix. rewrite andb_true_iff, Nat.leb_le, String.eqb_eq. split.
  - intros [_ H]. exists (strings.drop (String.length pre) s).
    rewrite <- (take_drop_string (String.length pre) s) at 1. by rewrite H.
  - intros [r ->]. rewrite string_app_length, take_app_string. split; [lia|done].
Qed.

Lemma HasSuffix_iff s suf :
  strings.HasSuffix s suf = true <-> exists r, s = r +:+ suf.
Proof.
  unfold strings.HasSuffix. rewrite andb_true_iff, Nat.leb_le, String.eqb_eq. split.
  - intros [_ H]. exists (strings.take (String.length s - String.length suf) s).
    rewrite <- (take_drop_string (String.length s - String.length suf) s) at 1.
    by rewrite H.
  - intros [r ->]. rewrite string_app_length.
    replace (String.length r + String.length suf - String.length suf)%nat
      with (String.length r) by lia.
    rewrite drop_app_string. split; [lia|done].
Qed.

Lemma TrimPrefix_app pre r : strings.TrimPrefix (pre +:+ r) pre = r.
Proof.
  unfold strings.TrimPrefix.
  rewrite (proj2 (HasPrefix_iff _ _)) by eauto. apply drop_app_string.
Qed.

Lemma TrimSuffix_app r suf : strings.TrimSuffix (r +:+ suf) suf = r.
Proof.
  unfold strings.TrimSuffix.
  rewrite (proj2 (HasSuffix_iff _ _)) by eauto. rewrite string_app_length.
  replace (String.length r + String.length suf - String.length suf)%nat
    with (String.length r) by lia.
  apply take_app_string.
Qed.

(** A name that starts with [temp] and ends with [_input] has both around
    a middle part: the two cannot overlap. *)
Lemma temp_input_middle r :
  strings.HasSuffix ("temp" +:+ r) "_input" = true ->
  exists idx, r = idx +:+ "_input".
Proof.
  intros H. apply HasSuffix_iff.
  destruct r as [|c1 [|c2 [|c3 [|c4 [|c5 [|c6 r]]]]]]; try discriminate H.
  revert H. unfold strings.HasSuffix. rewrite !andb_true_iff, !Nat.leb_le.
  rewrite string_app_length. intros [_ H]. split; [cbn; lia|].
  set (r6 := String c1 (String c2 (String c3 (String c4 (String c5 (String c6 r)))))) in *.
  replace (String.length "temp" + String.length r6 - String.length "_input")%nat
    with (String.length "temp" + (String.length r6 - String.length "_input"))%nat in H
    by (cbn; lia).
  revert H. generalize (String.length r6 - String.length "_input")%nat as n. intros n.
  cbn [String.length Nat.add strings.drop]. rewrite !app_String. cbn [strings.drop]. done.
Qed.

Lemma hwmonIndex_iff fname idx :
  hwmonIndex fname = Some idx <-> fname = "temp" +:+ idx +:+ "_input".
Proof.
  unfold hwmonIndex. split.
  - destruct (strings.HasPrefix fname "temp") eqn:Hp; [|discriminate].
    destruct (strings.HasSuffix fname "_input") eqn:Hs; [|discriminate].
    apply HasPrefix_iff in Hp as [r ->].
    apply temp_input_middle in Hs as [i ->].
    cbn [andb]. rewrite TrimPrefix_app, TrimSuffix_app. by intros [= ->].
  - intros ->.
    rewrite (proj2 (HasPrefix_iff _ _)) by eauto.
    rewrite (proj2 (HasSuffix_iff _ _)) by (exists ("temp" +:+ idx); symmetry; apply app_assoc_string).
    cbn [andb]. by rewrite TrimPrefix_app, TrimSuffix_app.
Qed.

Lemma re_FindStringSubmatch_iff k digits :
  re_FindStringSubmatch k = Some digits <->
  k = "temp" +:+ digits +:+ "_input" /\ digits <> EmptyString /\ allDigits digits = true.
Proof.
  unfold re_FindStringSubmatch.
  pose proof (hwmonIndex_iff k) as Hidx. unfold hwmonIndex in Hidx.
  destruct (strings.HasPrefix k "temp" && strings.HasSuffix k "_input").
  - set (i := strings.TrimSuffix (strings.TrimPrefix k "temp") "_input") in *.
    pose proof (proj1 (Hidx i) eq_refl) as Hk. split.
    + destruct i as [|c i'] eqn:Hi; [discriminate|].
      destruct (allDigits (String c i')) eqn:Hd; [|discriminate].
      intros [= <-]. done.
    + intros (Hk' & Hne & Hd). apply Hidx in Hk'. injection Hk' as ->.
      destruct digits; [done|]. by rewrite Hd.
  - split; [discriminate|]. intros (Hk & _). apply Hidx in Hk. discriminate.
Qed.

(** ** The line reader *)

Lemma blank_TrimLeftSpace s :
  strings.blank s = true -> strings.TrimLeftSpace s = EmptyString.
Proof.
  induction s as [|c s IH]; [done|]. cbn [strings.blank strings.TrimLeftSpace].
  intros [-> Hs]%andb_true_iff. by apply IH.
Qed.

Lemma blank_dropCR s : strings.blank s = true -> strings.blank (bufio.dropCR s) = true.
Proof.
  induction s as [|c s IH]; [done|]. cbn [strings.blank bufio.dropCR].
  intros [Hc Hs]%andb_true_iff. destruct s as [|c' s'].
  - destruct (Ascii.eqb c "013"); [done|]. cbn. by rewrite Hc.
  - cbn [strings.blank]. rewrite Hc. exact (IH Hs).
Qed.

Lemma blank_TrimSpace s : strings.blank s = true -> strings.TrimSpace s = EmptyString.
Proof. intros H. unfold strings.TrimSpace. by rewrite blank_TrimLeftSpace. Qed.

(** The first [Scan] gives a token exactly when the input has a byte and
    its first line is below the buffer size. *)
Lemma Scan_Token r :
  r_data r <> EmptyString ->
  (strings.len (bufio.firstLine (r_data r)) < bufio.MaxScanTokenSize)%N ->
  bufio.Scan r = bufio.Token (bufio.dropCR (bufio.firstLine (r_data r))).
Proof.
  intros Hne Hlt. unfold bufio.Scan.
  destruct (N.leb_spec bufio.MaxScanTokenSize (strings.len (bufio.firstLine (r_data r))));
    [lia|].
  unfold bufio.firstLine. destruct (bufio.cutLine (r_data r)); [done|].
  by destruct (r_data r).
Qed.

Lemma Scan_ErrTooLong r :
  (bufio.MaxScanTokenSize <= strings.len (bufio.firstLine (r_data r)))%N ->
  bufio.Scan r = bufio.NoToken (Some ErrTooLong).
Proof.
  intros Hle. unfold bufio.Scan.
  by destruct (N.leb_spec bufio.MaxScanTokenSize (strings.len (bufio.firstLine (r_data r))));
    [|lia].
Qed.

Lemma Scan_empty r : r_data r = EmptyString -> bufio.Scan r = bufio.NoToken (r_err r).
Proof. intros H. unfold bufio.Scan, bufio.firstLine. by rewrite H. Qed.

(** The three ways [readFirstLine] returns an error, and the one way it
    returns a line. *)
Lemma readFirstLine_cases fs p :
  match Open fs p with
  | Err e => fst (readFirstLine fs p) = Err e
  | Ok r =>
      if decide (r_data r = EmptyString) then
        fst (readFirstLine fs p)
        = Err (match r_err r with Some e => e | None => errors_New "empty file" end)
      else if decide (bufio.MaxScanTokenSize <= strings.len (bufio.firstLine (r_data r)))%N
      then fst (readFirstLine fs p) = Err ErrTooLong
      else fst (readFirstLine fs p)
           = Ok (strings.TrimSpace (bufio.dropCR (bufio.firstLine (r_data r))))
  end.
Proof.
  unfold readFirstLine, os_Open. rewrite fst_io_bind. cbn [fst].
  destruct (Open fs p) as [r|e]; [|reflexivity].
  destruct (decide (r_data r = EmptyString)) as [He|Hne].
  { rewrite Scan_empty by done. by destruct (r_err r). }
  destruct (decide (bufio.MaxScanTokenSize <= strings.len (bufio.firstLine (r_data r)))%N)
    as [Hle|Hlt].
  { by rewrite Scan_ErrTooLong. }
  rewrite Scan_Token by (done || lia). reflexivity.
Qed.

(** C10, as the code has it: [readFirstLine] returns an error if and only
    if the file cannot be opened, or delivers no byte before the end of
    file or a read error, or its first line fills the scanner's buffer of
    [MaxScanTokenSize] bytes; a file that opens and whose first line is
    white space only (and shorter than the buffer) reads as the empty
    string without error, as an empty label would. *)
Theorem readFirstLine_fails_iff (fs : FS) (p : pathname) :
  (is_Err (fst (readFirstLine fs p)) <->
   match Open fs p with
   | Err _ => True
   | Ok r =>
       r_data r = EmptyString \/
       (bufio.MaxScanTokenSize <= strings.len (bufio.firstLine (r_data r)))%N
   end)
  /\ (forall r,
        Open fs p = Ok r ->
        r_data r <> EmptyString ->
        (strings.len (bufio.firstLine (r_data r)) < bufio.MaxScanTokenSize)%N ->
        strings.blank (bufio.firstLine (r_data r)) = true ->
        fst (readFirstLine fs p) = Ok EmptyString).
Proof.
  pose proof (readFirstLine_cases fs p) as H. split.
  - destruct (Open fs p) as [r|e]; [|by rewrite H].
    destruct (decide (r_data r = EmptyString)); [rewrite H; cbn; tauto|].
    destruct (decide (bufio.MaxScanTokenSize <= strings.len (bufio.firstLine (r_data r)))%N);
      rewrite H; cbn; tauto.
  - intros r Hr Hne Hlt Hblank. rewrite Hr in H.
    destruct (decide (r_data r = EmptyString)); [done|].
    destruct (decide (bufio.MaxScanTokenSize <= strings.len (bufio.firstLine (r_data r)))%N);
      [lia|].
    rewrite H. f_equal. by apply blank_TrimSpace, blank_dropCR.
Qed.

(** C10 as worded fails on a file whose first line has 65536 bytes: it
    opens and holds a line before the end of file, and [readFirstLine]
    returns [ErrTooLong]. *)
Lemma readFirstLine_long_line_fails : ~ spec_readFirstLine_fails fs_long_line ["f"].
Proof.
  unfold spec_readFirstLine_fails. intros [Hfail _].
  assert (Herr : fst (readFirstLine fs_long_line ["f"]) = Err ErrTooLong)
    by (vm_compute; reflexivity).
  rewrite Herr in Hfail. specialize (Hfail I).
  assert (Hopen : match Open fs_long_line ["f"] with
                  | Ok r => negb (String.eqb (r_data r) EmptyString)
                  | Err _ => false
                  end = true) by (vm_compute; reflexivity).
  destruct (Open fs_long_line ["f"]) as [r|e]; [|discriminate Hopen].
  rewrite Hfail in Hopen. discriminate Hopen.
Qed.

(** ** The hwmon discoverer *)

Lemma discoverSensors_file_fst fs chipDir chipName f sensors :
  fst (discoverSensors_file fs chipDir chipName f sensors)
  = sensors ++ match hwmonIndex (Name f) with
               | Some idx => [hwmonDescriptor fs chipDir chipName (Name f) idx]
               | None => []
               end.
Proof.
  unfold discoverSensors_file, hwmonIndex.
  destruct (strings.HasPrefix (Name f) "temp"), (strings.HasSuffix (Name f) "_input");
    cbn [negb orb andb]; try (cbn; by rewrite app_nil_r).
  reflexivity.
Qed.

(** The files loop adds one descriptor per selected file, in listing order. *)
Lemma discoverSensors_files fs chipDir chipName files sensors :
  fst (forEach files (discoverSensors_file fs chipDir chipName) sensors)
  = sensors ++ omap (fun f => hwmonDescriptor fs chipDir chipName (Name f)
                                <$> hwmonIndex (Name f)) files.
Proof.
  revert sensors. induction files as [|f files IH]; intros sensors.
  - cbn. by rewrite app_nil_r.
  - cbn [forEach]. rewrite fst_io_bind, IH, discoverSensors_file_fst.
    cbn [omap list_omap].
    destruct (hwmonIndex (Name f)) as [idx|]; cbn [fmap option_fmap option_map].
    + by rewrite <- app_assoc.
    + by rewrite app_nil_r.
Qed.

(** C5, as the code has it: within a chip directory the discoverer selects
    exactly the file names that start with [temp] and end with [_input],
    one descriptor per such file in listing order; the index is the text
    in between, which may be empty or hold other characters than digits;
    the names [temp<N>_input] with a non-empty digit sequence [<N>] are
    among them, with index [<N>]. *)
Theorem hwmon_selects_temp_any_input
    (fs : FS) (chipDir : pathname) (chipName : string)
    (files : list DirEntry) (sensors : list sensorReading) :
  fst (forEach files (discoverSensors_file fs chipDir chipName) sensors)
  = sensors ++ omap (fun f => hwmonDescriptor fs chipDir chipName (Name f)
                                <$> hwmonIndex (Name f)) files
  /\ (forall fname idx,
        hwmonIndex fname = Some idx <-> fname = "temp" +:+ idx +:+ "_input")
  /\ (forall fname digits,
        re_FindStringSubmatch fname = Some digits -> hwmonIndex fname = Some digits).
Proof.
  split; [apply discoverSensors_files|]. split; [apply hwmonIndex_iff|].
  intros fname digits (-> & _)%re_FindStringSubmatch_iff. by apply hwmonIndex_iff.
Qed.

(** C5 as worded fails on [temp_input] and [tempfoo_input]: neither is
    [temp<N>_input] for a non-empty digit sequence, and each gets a
    descriptor. *)
Lemma hwmon_selects_names_without_digits :
  fst (discoverSensors fs_odd_names hwmon)
  = Ok [ {| chip := "acpitz"; name := "acpitz"; label := "";
            path := hwmon ++ ["hwmon0"; "temp_input"]; factor := 0.001%float |};
         {| chip := "acpitz"; name := "acpitz"; label := "";
            path := hwmon ++ ["hwmon0"; "tempfoo_input"]; factor := 0.001%float |} ]
  /\ spec_selected fs_odd_names (hwmon ++ ["hwmon0"]) "acpitz"
       [file "name"; file "temp_input"; file "tempfoo_input"] = [].
Proof. split; vm_compute; reflexivity. Qed.

Lemma label_path_neq_type_path chipDir idx :
  Join chipDir ("temp" +:+ idx +:+ "_type") <> Join chipDir ("temp" +:+ idx +:+ "_label").
Proof.
  unfold Join. intros H%app_inv_head. injection H as H.
  change (idx +:+ "_type" = idx +:+ "_label") in H.
  apply (inj (String.app idx)) in H. discriminate H.
Qed.

Lemma discoverSensors_label_fst fs chipDir idx :
  fst (discoverSensors_label fs chipDir idx)
  = match fst (readFirstLine fs (Join chipDir ("temp" +:+ idx +:+ "_label"))) with
    | Ok l => l
    | Err _ =>
        match fst (readFirstLine fs (Join chipDir ("temp" +:+ idx +:+ "_type"))) with
        | Ok t => t
        | Err _ => EmptyString
        end
    end.
Proof.
  unfold discoverSensors_label. rewrite fst_io_bind.
  destruct (fst (readFirstLine fs (Join chipDir ("temp" +:+ idx +:+ "_label"))));
    [reflexivity|].
  rewrite fst_io_bind.
  by destruct (fst (readFirstLine fs (Join chipDir ("temp" +:+ idx +:+ "_type")))).
Qed.

Lemma readFirstLine_trace fs p : snd (readFirstLine fs p) = [EvOpen p].
Proof.
  unfold readFirstLine. rewrite snd_io_bind. cbn [os_Open fst snd].
  destruct (Open fs p) as [r|e]; [|reflexivity].
  destruct (bufio.Scan r) as [t|[e|]]; reflexivity.
Qed.

(** C3, as the code has it: the label of [temp<N>_input] is the line that
    [readFirstLine] returns for [temp<N>_label] whenever it returns one,
    blank or not; otherwise the line it returns for [temp<N>_type];
    otherwise the empty string.  [temp<N>_type] is not opened when
    [temp<N>_label] gives a line.  This is the specification's label unless
    [temp<N>_label] reads as a blank line.  Every descriptor the files loop
    adds carries the label so resolved for its index. *)
Theorem hwmon_label_resolution (fs : FS) (chipDir : pathname) (idx : string) :
  let labelPath := Join chipDir ("temp" +:+ idx +:+ "_label") in
  let typePath := Join chipDir ("temp" +:+ idx +:+ "_type") in
  fst (discoverSensors_label fs chipDir idx)
  = match fst (readFirstLine fs labelPath) with
    | Ok l => l
    | Err _ =>
        match fst (readFirstLine fs typePath) with
        | Ok t => t
        | Err _ => EmptyString
        end
    end
  /\ (forall l, fst (readFirstLine fs labelPath) = Ok l ->
        EvOpen typePath ∉ snd (discoverSensors_label fs chipDir idx))
  /\ (fst (readFirstLine fs labelPath) <> Ok EmptyString ->
        fst (discoverSensors_label fs chipDir idx) = spec_label fs chipDir idx)
  /\ (forall chipName f sensors,
        hwmonIndex (Name f) = Some idx ->
        exists d,
          fst (discoverSensors_file fs chipDir chipName f sensors) = sensors ++ [d]
          /\ path d = Join chipDir ("temp" +:+ idx +:+ "_input")
          /\ label d = fst (discoverSensors_label fs chipDir idx)).
Proof.
  intros labelPath typePath. split; [apply discoverSensors_label_fst|]. split; [|split].
  - intros l Hl. unfold discoverSensors_label. rewrite snd_io_bind.
    fold labelPath. rewrite Hl, readFirstLine_trace. cbn.
    intros [=H]%list_elem_of_singleton. by apply label_path_neq_type_path in H.
  - intros Hne. rewrite discoverSensors_label_fst. unfold spec_label.
    fold labelPath typePath.
    destruct (fst (readFirstLine fs labelPath)) as [[|c l]|e]; [done|done|].
    by destruct (fst (readFirstLine fs typePath)) as [[|c t]|e'].
  - intros chipName f sensors Hidx. eexists. split.
    + rewrite discoverSensors_file_fst, Hidx. reflexivity.
    + cbn. apply hwmonIndex_iff in Hidx. by rewrite Hidx.
Qed.

(** C3 as worded fails in two ways.  When [temp3_label] holds a blank
    line and [temp3_type] holds [Tdie], the label file is readable and its
    content is empty, so the wording asks for [Tdie]; the code keeps the
    empty label.  When [temp3_label] holds a line of 65536 bytes, the file
    is readable and not empty, so the wording asks for that line and
    leaves [temp3_type] alone; [readFirstLine] fails on it, and the code
    opens [temp3_type] and takes [Tdie]. *)
Lemma hwmon_label_not_as_worded :
  (fst (readFirstLine fs_blank_label (hwmon ++ ["hwmon0"; "temp3_label"])) = Ok EmptyString
   /\ fst (discoverSensors fs_blank_label hwmon)
      = Ok [ {| chip := "k10temp"; name := "k10temp"; label := "";
                path := hwmon ++ ["hwmon0"; "temp3_input"]; factor := 0.001%float |} ]
   /\ spec_label fs_blank_label (hwmon ++ ["hwmon0"]) "3" = "Tdie")
  /\ (fst (readFirstLine fs_long_label (hwmon ++ ["hwmon0"; "temp3_label"])) = Err ErrTooLong
      /\ fst (discoverSensors fs_long_label hwmon)
         = Ok [ {| chip := "k10temp"; name := "k10temp"; label := "Tdie";
                   path := hwmon ++ ["hwmon0"; "temp3_input"]; factor := 0.001%float |} ]
      /\ match Open fs_long_label (hwmon ++ ["hwmon0"; "temp3_label"]) with
         | Ok r => negb (String.eqb (r_data r) EmptyString)
         | Err _ => false
         end = true
      /\ existsb (fun e => match e with
                           | EvOpen p => bool_decide (p = hwmon ++ ["hwmon0"; "temp3_type"])
                           | _ => false
                           end) (snd (discoverSensors fs_long_label hwmon)) = true).
Proof. repeat split; vm_compute; reflexivity. Qed.

(** ** The gauge vector after a scrape *)

Section Gauge.

Variable ParseFloat : string -> result float64.

Lemma upserts_app (g : gmap ReadingKey float64) l1 l2 :
  upserts g (l1 ++ l2) = upserts (upserts g l1) l2.
Proof. apply foldl_app. Qed.

Lemma elem_of_map_to_list_fst (g : gmap ReadingKey float64) k :
  k ∈ (map_to_list g).*1 <-> k ∈ dom g.
Proof.
  rewrite elem_of_dom, list_elem_of_fmap. split.
  - intros ([k' v] & -> & H%elem_of_map_to_list). by exists v.
  - intros [v H]. exists (k, v). by rewrite elem_of_map_to_list.
Qed.

Lemma upserts_cons (g : gmap ReadingKey float64) k v l :
  upserts g ((k, v) :: l) = upserts (<[k:=v]> g) l.
Proof. reflexivity. Qed.

Lemma upserts_lookup_notin (g : gmap ReadingKey float64) l k :
  k ∉ l.*1 -> upserts g l !! k = g !! k.
Proof.
  revert g. induction l as [|[k' v'] l IH]; intros g Hk; [reflexivity|].
  cbn in Hk. apply not_elem_of_cons in Hk as [Hne Hk].
  rewrite upserts_cons, IH by done. by rewrite lookup_insert_ne.
Qed.

(** Last write wins. *)
Lemma upserts_lookup_last (g : gmap ReadingKey float64) l1 k v l2 :
  k ∉ l2.*1 -> upserts g (l1 ++ (k, v) :: l2) !! k = Some v.
Proof.
  intros Hk. rewrite upserts_app, upserts_cons.
  rewrite upserts_lookup_notin by done. apply lookup_insert_eq.
Qed.

Lemma upserts_dom (g : gmap ReadingKey float64) l k :
  k ∈ dom (upserts g l) <-> k ∈ dom g \/ k ∈ l.*1.
Proof.
  revert g. induction l as [|[k' v'] l IH]; intros g.
  - cbn. rewrite elem_of_nil. tauto.
  - rewrite upserts_cons, IH, dom_insert, elem_of_union, elem_of_singleton.
    cbn. rewrite elem_of_cons. intuition congruence.
Qed.

(** A key that occurs in a list of readings has a last occurrence. *)
Lemma last_occurrence (l : list (ReadingKey * float64)) k :
  k ∈ l.*1 -> exists l1 v l2, l = l1 ++ (k, v) :: l2 /\ k ∉ l2.*1.
Proof.
  induction l as [|[k' v'] l IH]; [by intros ?%elem_of_nil|].
  intros Hk. destruct (decide (k ∈ l.*1)) as [Hin|Hnin].
  - destruct (IH Hin) as (l1 & v & l2 & -> & Hl2).
    by exists ((k', v') :: l1), v, l2.
  - cbn in Hk. apply elem_of_cons in Hk as [->|?]; [|done].
    by exists [], v', l.
Qed.

Lemma validKeys_app l1 l2 : validKeys (l1 ++ l2) = validKeys l1 && validKeys l2.
Proof. apply forallb_app. Qed.

Lemma Collect_read_fst w s g :
  fst (Collect_read ParseFloat w s g)
  = match reading ParseFloat w s with
    | Some kv => WithLabelValues_Set g (fst kv) (snd kv)
    | None => Some g
    end.
Proof.
  unfold Collect_read, reading. rewrite fst_io_bind.
  destruct (fst (readFirstLine (w_fs w) (path s))) as [raw|e]; [|reflexivity].
  by destruct (ParseFloat (strings.TrimSpace raw)).
Qed.

(** The loop over the descriptors panics at the first reading whose label
    values are not valid; without one, it upserts the readings in order. *)
Lemma Collect_reads w ds g :
  fst (forEachTry ds (Collect_read ParseFloat w) g)
  = if validKeys (omap (reading ParseFloat w) ds)
    then Some (upserts g (omap (reading ParseFloat w) ds))
    else None.
Proof.
  revert g. induction ds as [|s ds IH]; intros g; [reflexivity|].
  cbn [forEachTry]. rewrite fst_io_try, Collect_read_fst. cbn [omap list_omap].
  destruct (reading ParseFloat w s) as [[k v]|]; [|by rewrite <- IH].
  unfold WithLabelValues_Set. cbn [fst snd validKeys forallb].
  destruct (validLabelValues k); [|reflexivity]. cbn [mbind option_bind andb].
  by rewrite IH.
Qed.

Lemma Collect_sets g readings :
  fst (forEachTry readings (fun r g => io_ret (Collect_set g r)) g)
  = if validKeys ((fun r => (cliKey r, cli_value r)) <$> readings)
    then Some (upserts g ((fun r => (cliKey r, cli_value r)) <$> readings))
    else None.
Proof.
  revert g. induction readings as [|r rs IH]; intros g; [reflexivity|].
  cbn [forEachTry fmap list_fmap]. rewrite fst_io_try. cbn [io_ret fst].
  unfold Collect_set, WithLabelValues_Set. cbn [fst snd validKeys forallb].
  destruct (validLabelValues (cliKey r)); [|reflexivity]. cbn [mbind option_bind andb].
  by rewrite IH.
Qed.

Lemma cliObserved_cliFails w c : cliFails w c = true -> cliObserved w c = [].
Proof.
  unfold cliObserved, cliFails, discoverSensorsCLI.
  destruct (enableSensorsCli c); [|done]. rewrite fst_io_bind. cbn [fst andb].
  by destruct (w_sensors_j w (sensorsCliPath c) (sensorsTimeout c)).
Qed.

Lemma Collect_cli_fst w c g warned :
  fst (Collect_cli w c g warned)
  = if validKeys (cliObserved w c)
    then Some (upserts g (cliObserved w c), warned || cliFails w c)
    else None.
Proof.
  unfold Collect_cli, cliObserved, cliFails, discoverSensorsCLI.
  destruct (enableSensorsCli c); [|by rewrite orb_false_r].
  rewrite !fst_io_bind. cbn [fst andb].
  destruct (w_sensors_j w (sensorsCliPath c) (sensorsTimeout c)) as [root|e];
    cbn [io_ret fst].
  - rewrite fst_io_try, Collect_sets. destruct (validKeys _); [|reflexivity].
    cbn. by rewrite orb_false_r.
  - by destruct warned.
Qed.

(** A scrape returns exactly when the label values of every reading it
    observes are valid.  The gauge vector then holds these readings,
    upserted in order into an empty vector. *)
Lemma Collect_fst w p :
  fst (Collect ParseFloat w p)
  = if validKeys (observed ParseFloat w (coll p)) then
      let g := upserts ∅ (observed ParseFloat w (coll p)) in
      let t := Seconds (w_end w - w_start w) in
      Some ({| coll := withMetrics (coll p) g t;
               sensorsCliWarned := sensorsCliWarned p || cliFails w (coll p) |},
            GaugeVec_Collect g ++ [scrape_duration_seconds t])
    else None.
Proof.
  unfold Collect. rewrite fst_io_bind, fst_io_try, Collect_reads.
  unfold observed at 1. rewrite validKeys_app. fold (sysfsObserved ParseFloat w (coll p)).
  destruct (validKeys (sysfsObserved ParseFloat w (coll p))); [|reflexivity].
  cbn [mbind option_bind andb]. rewrite fst_io_try, Collect_cli_fst.
  destruct (validKeys (cliObserved w (coll p))); [|reflexivity].
  cbn [mbind option_bind io_ret fst snd]. unfold observed. by rewrite upserts_app.
Qed.

Lemma Collect_returns w p r :
  fst (Collect ParseFloat w p) = Some r ->
  validKeys (observed ParseFloat w (coll p)) = true
  /\ r = ({| coll := withMetrics (coll p) (upserts ∅ (observed ParseFloat w (coll p)))
                       (Seconds (w_end w - w_start w));
             sensorsCliWarned := sensorsCliWarned p || cliFails w (coll p) |},
          GaugeVec_Collect (upserts ∅ (observed ParseFloat w (coll p)))
          ++ [scrape_duration_seconds (Seconds (w_end w - w_start w))]).
Proof.
  rewrite Collect_fst. destruct (validKeys _); [|discriminate].
  cbv zeta. by intros [= <-].
Qed.

Lemma Collect_gauge w p r :
  fst (Collect ParseFloat w p) = Some r ->
  sensors (coll (fst r)) = upserts ∅ (observed ParseFloat w (coll p)).
Proof. by intros [_ ->]%Collect_returns. Qed.

Lemma Collect_scrapeTime w p r :
  fst (Collect ParseFloat w p) = Some r ->
  scrapeTime (coll (fst r)) = Seconds (w_end w - w_start w).
Proof. by intros [_ ->]%Collect_returns. Qed.

Lemma Collect_ch w p r :
  fst (Collect ParseFloat w p) = Some r ->
  snd r
  = GaugeVec_Collect (sensors (coll (fst r)))
    ++ [scrape_duration_seconds (Seconds (w_end w - w_start w))].
Proof. by intros [_ ->]%Collect_returns. Qed.

Lemma temperatures_GaugeVec_Collect g t :
  temperatures (GaugeVec_Collect g ++ [scrape_duration_seconds t]) = map_to_list g.
Proof.
  unfold temperatures, GaugeVec_Collect. rewrite omap_app. cbn. rewrite app_nil_r.
  induction (map_to_list g) as [|[k v] l IH]; [reflexivity|].
  cbn. by rewrite IH.
Qed.

Lemma Collect_temperatures w p r :
  fst (Collect ParseFloat w p) = Some r ->
  temperatures (snd r) = map_to_list (upserts ∅ (observed ParseFloat w (coll p))).
Proof.
  intros Hr. by rewrite (Collect_ch _ _ _ Hr), temperatures_GaugeVec_Collect,
    (Collect_gauge _ _ _ Hr).
Qed.

(** C1: the temperature series sent after a scrape have pairwise distinct
    keys; their keys are exactly the keys observed during this scrape;
    the value of each is the last one observed for its key; they are the
    contents of the gauge vector; and a key the vector held before the
    scrape and that this scrape does not observe is not among them. *)
Theorem scrape_publishes_observed_keys (w : World) (p : process)
    (r : process * list Metric) :
  fst (Collect ParseFloat w p) = Some r ->
  let published := temperatures (snd r) in
  let seen := observed ParseFloat w (coll p) in
  NoDup published.*1
  /\ (forall k, k ∈ published.*1 <-> k ∈ seen.*1)
  /\ (forall l1 k v l2, seen = l1 ++ (k, v) :: l2 -> k ∉ l2.*1 -> (k, v) ∈ published)
  /\ (forall k v, (k, v) ∈ published <-> sensors (coll (fst r)) !! k = Some v)
  /\ (forall k, k ∈ dom (sensors (coll p)) -> k ∉ seen.*1 -> k ∉ published.*1).
Proof.
  intros Hr published seen.
  assert (Hpub : published = map_to_list (upserts ∅ seen))
    by (by apply Collect_temperatures).
  assert (Hkeys : forall k, k ∈ published.*1 <-> k ∈ seen.*1).
  { intros k. rewrite Hpub, elem_of_map_to_list_fst, upserts_dom, dom_empty, elem_of_empty.
    tauto. }
  assert (Hval : forall k v, (k, v) ∈ published <-> sensors (coll (fst r)) !! k = Some v).
  { intros k v. rewrite Hpub, (Collect_gauge _ _ _ Hr). apply elem_of_map_to_list. }
  split; [rewrite Hpub; apply NoDup_fst_map_to_list|].
  split; [exact Hkeys|].
  split; [|split; [exact Hval|]].
  - intros l1 k v l2 Hs Hk. rewrite Hpub, elem_of_map_to_list, Hs.
    by apply upserts_lookup_last.
  - intros k _ Hnot. by rewrite Hkeys.
Qed.

(** C4: when [sensors -j] is enabled and succeeds, every key carried by
    one of its readings is published with the value of the last such
    reading, whatever the hwmon and thermal descriptors wrote for that key
    before; when one reading [c] of [sensors -j] has the key, the
    published value is that of [c]. *)
Theorem cli_reading_wins (w : World) (p : process) (res : process * list Metric)
    (readings : list cliReading) (k : ReadingKey) :
  fst (Collect ParseFloat w p) = Some res ->
  enableSensorsCli (coll p) = true ->
  fst (discoverSensorsCLI w (sensorsCliPath (coll p)) (sensorsTimeout (coll p)))
    = Ok readings ->
  k ∈ (cliKey <$> readings) ->
  exists pre r post,
    readings = pre ++ r :: post
    /\ cliKey r = k
    /\ (k ∉ cliKey <$> post)
    /\ sensors (coll (fst res)) !! k = Some (cli_value r)
    /\ (k, cli_value r) ∈ temperatures (snd res)
    /\ (forall c, c ∈ readings -> cliKey c = k ->
          (forall c', c' ∈ readings -> cliKey c' = k -> c' = c) ->
          sensors (coll (fst res)) !! k = Some (cli_value c)).
Proof.
  intros Hres Hen Hcli Hk.
  assert (Hobs : cliObserved w (coll p) = (fun r => (cliKey r, cli_value r)) <$> readings).
  { unfold cliObserved. by rewrite Hen, Hcli. }
  assert (Hk' : k ∈ (cliObserved w (coll p)).*1).
  { rewrite Hobs, <- list_fmap_compose. exact Hk. }
  destruct (last_occurrence _ _ Hk') as (l1 & v & l2 & Hsplit & Hlast).
  rewrite Hobs in Hsplit.
  apply fmap_app_inv in Hsplit as (pre & rest & Hl1 & Hrest & ->).
  symmetry in Hrest. apply fmap_cons_inv in Hrest as (r & post & Hr & Hl2 & ->).
  injection Hr as -> ->. subst l1 l2. exists pre, r, post.
  assert (Hg : sensors (coll (fst res)) !! cliKey r = Some (cli_value r)).
  { rewrite (Collect_gauge _ _ _ Hres). unfold observed.
    rewrite Hobs, fmap_app, fmap_cons, app_assoc. by apply upserts_lookup_last. }
  split; [reflexivity|]. split; [reflexivity|]. split; [|split; [exact Hg|split]].
  - by rewrite <- list_fmap_compose in Hlast.
  - rewrite (Collect_temperatures _ _ _ Hres), elem_of_map_to_list,
      <- (Collect_gauge _ _ _ Hres). exact Hg.
  - intros c _ _ Honly. rewrite Hg. f_equal. f_equal. apply Honly; [|reflexivity].
    apply elem_of_app. right. apply list_elem_of_here.
Qed.

Lemma Collect_discover_fst w c :
  fst (Collect_discover w c)
  = (if enableHwmon c then
       match fst (discoverSensors (w_fs w) (basePath c)) with Ok s => s | Err _ => [] end
     else [])
    ++ (if enableThermal c then
          match fst (discoverThermalSensors (w_fs w) (thermalPath c)) with
          | Ok s => s
          | Err _ => []
          end
        else []).
Proof.
  unfold Collect_discover. rewrite fst_io_bind.
  destruct (enableHwmon c);
    [rewrite fst_io_bind; destruct (fst (discoverSensors (w_fs w) (basePath c)))|];
    (destruct (enableThermal c);
     [rewrite fst_io_bind;
      destruct (fst (discoverThermalSensors (w_fs w) (thermalPath c)))|]);
    cbn; rewrite ?app_nil_r; reflexivity.
Qed.

Lemma discoverSensors_unlistable fs basePath e :
  ReadDir fs basePath = Err e -> discoverSensors fs basePath = (Err e, [EvReadDir basePath]).
Proof. intros H. unfold discoverSensors, os_ReadDir, io_bind. cbn. by rewrite H. Qed.

(** X16: a scrape returns exactly when the label values of every reading
    it observes are valid UTF-8; otherwise [WithLabelValues] panics.  A
    scrape that returns sets the scrape duration to the seconds elapsed on
    the clock and sends it.  When moreover the hwmon base path cannot be
    listed, the failure is logged, the descriptors are those of the
    thermal backend alone, the gauge vector holds the thermal readings and
    the [sensors -j] readings, and every thermal reading has its key
    published, with its own value unless a later reading has the same
    key. *)
Theorem scrape_survives_unlistable_hwmon (w : World) (p : process) :
  ((exists r, fst (Collect ParseFloat w p) = Some r) <->
   (forall k v, (k, v) ∈ observed ParseFloat w (coll p) -> validLabelValues k = true))
  /\ (forall r,
        fst (Collect ParseFloat w p) = Some r ->
        let g := sensors (coll (fst r)) in
        scrapeTime (coll (fst r)) = Seconds (w_end w - w_start w)
        /\ scrape_duration_seconds (scrapeTime (coll (fst r))) ∈ snd r
        /\ (forall e,
              ReadDir (w_fs w) (basePath (coll p)) = Err e ->
              let ds := thermalDescriptors w (coll p) in
              fst (Collect_discover w (coll p)) = ds
              /\ (enableHwmon (coll p) = true ->
                    EvLog (LogDiscoverSensors e) ∈ snd (Collect ParseFloat w p))
              /\ g = upserts ∅ (omap (reading ParseFloat w) ds ++ cliObserved w (coll p))
              /\ (forall d kv, d ∈ ds -> reading ParseFloat w d = Some kv ->
                    fst kv ∈ (temperatures (snd r)).*1)
              /\ (forall pre d post kv,
                    ds = pre ++ d :: post -> reading ParseFloat w d = Some kv ->
                    fst kv ∉ (omap (reading ParseFloat w) post
                               ++ cliObserved w (coll p)).*1 ->
                    kv ∈ temperatures (snd r)))).
Proof.
  split.
  - rewrite Collect_fst. unfold validKeys. split.
    + intros [r Hr] k v Hkv. destruct (forallb _ _) eqn:Hall; [|discriminate].
      rewrite forallb_forall in Hall. apply (Hall (k, v)).
      by apply list_elem_of_In.
    + intros Hall. destruct (forallb _ _) eqn:Hvalid; [by eexists|].
      exfalso. apply not_true_iff_false in Hvalid. apply Hvalid, forallb_forall.
      intros [k v] Hkv%list_elem_of_In. by apply (Hall k v).
  - intros r Hr g. split; [exact (Collect_scrapeTime _ _ _ Hr)|]. split.
    { rewrite (Collect_scrapeTime _ _ _ Hr), (Collect_ch _ _ _ Hr).
      apply elem_of_app. right. apply list_elem_of_singleton. reflexivity. }
    intros e He ds.
    assert (Hds : fst (Collect_discover w (coll p)) = ds).
    { rewrite Collect_discover_fst, (discoverSensors_unlistable _ _ _ He). cbn [fst].
      by destruct (enableHwmon (coll p)). }
    assert (Hg : g = upserts ∅ (omap (reading ParseFloat w) ds ++ cliObserved w (coll p))).
    { unfold g. rewrite (Collect_gauge _ _ _ Hr). unfold observed, sysfsObserved.
      by rewrite Hds. }
    assert (Hpub : temperatures (snd r) = map_to_list g).
    { unfold g. by rewrite (Collect_temperatures _ _ _ Hr), (Collect_gauge _ _ _ Hr). }
    split; [exact Hds|]. split; [|split; [exact Hg|split]].
    + intros Hen. unfold Collect. rewrite snd_io_bind. apply elem_of_app. left.
      unfold Collect_discover. rewrite snd_io_bind. apply elem_of_app. left.
      rewrite Hen, (discoverSensors_unlistable _ _ _ He). cbn.
      apply elem_of_cons. right. apply list_elem_of_singleton. reflexivity.
    + intros d kv Hd Hkv. rewrite Hpub, elem_of_map_to_list_fst, Hg, upserts_dom.
      right. rewrite fmap_app. apply elem_of_app. left.
      apply list_elem_of_fmap. exists kv. split; [reflexivity|].
      apply list_elem_of_omap. by exists d.
    + intros pre d post [k v] Hsplit Hkv Hlast. rewrite Hpub, elem_of_map_to_list, Hg.
      rewrite Hsplit, omap_app. cbn [omap list_omap]. rewrite Hkv, <- app_assoc.
      cbn [app]. by apply upserts_lookup_last.
Qed.

(** C7, as the code has it: a descriptor whose file cannot be read, or
    whose content is not a number, is skipped alone: the gauge vector is
    the one the other readings of the scrape give, and without another
    reading of its key the key is absent.  Otherwise the parsed value
    times the scale factor is upserted for its key, and is the published
    value unless a later descriptor or [sensors -j] reading of the same
    scrape has the same key. *)
Theorem descriptor_read_or_skipped (w : World) (p : process) (r : process * list Metric)
    (pre : list sensorReading) (s : sensorReading) (post : list sensorReading) :
  fst (Collect ParseFloat w p) = Some r ->
  fst (Collect_discover w (coll p)) = pre ++ s :: post ->
  let g := sensors (coll (fst r)) in
  let before := omap (reading ParseFloat w) pre in
  let later := omap (reading ParseFloat w) post ++ cliObserved w (coll p) in
  match fst (readFirstLine (w_fs w) (path s)) with
  | Err _ =>
      g = upserts ∅ (before ++ later)
      /\ (sensorKey s ∉ (before ++ later).*1 -> g !! sensorKey s = None)
  | Ok raw =>
      match ParseFloat (strings.TrimSpace raw) with
      | Err _ =>
          g = upserts ∅ (before ++ later)
          /\ (sensorKey s ∉ (before ++ later).*1 -> g !! sensorKey s = None)
      | Ok v =>
          g = upserts ∅ (before ++ (sensorKey s, PrimFloat.mul v (factor s)) :: later)
          /\ (sensorKey s ∉ later.*1 ->
                g !! sensorKey s = Some (PrimFloat.mul v (factor s)))
      end
  end.
Proof.
  intros Hr Hds g before later.
  assert (Hg : g = upserts ∅ (before
                               ++ match reading ParseFloat w s with
                                  | Some kv => [kv]
                                  | None => []
                                  end ++ later)).
  { unfold g. rewrite (Collect_gauge _ _ _ Hr). unfold observed, sysfsObserved.
    rewrite Hds, omap_app. cbn [omap list_omap]. unfold before, later.
    destruct (reading ParseFloat w s); by rewrite <- ?app_assoc. }
  assert (Hskip : reading ParseFloat w s = None ->
            g = upserts ∅ (before ++ later)
            /\ (sensorKey s ∉ (before ++ later).*1 -> g !! sensorKey s = None)).
  { intros Hnone. rewrite Hnone in Hg. cbn [app] in Hg. split; [exact Hg|].
    intros Hk. by rewrite Hg, upserts_lookup_notin, lookup_empty. }
  unfold reading in Hg, Hskip.
  destruct (fst (readFirstLine (w_fs w) (path s))) as [raw|e]; [|by apply Hskip].
  destruct (ParseFloat (strings.TrimSpace raw)) as [v|e]; [|by apply Hskip].
  cbn [app] in Hg. split; [exact Hg|].
  intros Hk. rewrite Hg. by apply upserts_lookup_last.
Qed.

(** C2, as the code has it: every descriptor of the hwmon discoverer has
    the chip name as its sensor name, so two descriptors of one chip have
    the same key exactly when their resolved labels are equal: the file
    path is not part of the key.  Two descriptors with the same key are
    one time series, and reading the second overwrites the first. *)
Theorem hwmon_sensor_name_is_chip (fs : FS) (basePath : pathname)
    (ds : list sensorReading) :
  fst (discoverSensors fs basePath) = Ok ds ->
  (forall d, d ∈ ds -> name d = chip d)
  /\ (forall d1 d2, d1 ∈ ds -> d2 ∈ ds -> chip d1 = chip d2 ->
        (sensorKey d1 = sensorKey d2 <-> label d1 = label d2))
  /\ (forall w g d1 d2 kv g1 g2,
        sensorKey d1 = sensorKey d2 ->
        reading ParseFloat w d2 = Some kv ->
        fst (Collect_read ParseFloat w d1 g) = Some g1 ->
        fst (Collect_read ParseFloat w d2 g1) = Some g2 ->
        g2 !! sensorKey d1 = Some (snd kv)).
Proof.
  intros Hds.
  assert (Hname : Forall (fun d => name d = chip d) ds).
  { revert Hds. unfold discoverSensors. rewrite fst_io_bind.
    destruct (fst (os_ReadDir fs basePath)) as [entries|e]; [|discriminate].
    rewrite fst_io_bind. intros [= <-].
    apply (forEach_invariant (Forall (fun d => name d = chip d))); [|constructor].
    intros e sensors Hs. unfold discoverSensors_chip.
    destruct (IsDir e); [|exact Hs]. cbn [negb]. rewrite !fst_io_bind.
    destruct (fst (os_ReadDir fs (Join basePath (Name e)))) as [files|e']; [|exact Hs].
    rewrite discoverSensors_files. apply Forall_app. split; [exact Hs|].
    apply Forall_forall. intros d (f & _ & Hd)%list_elem_of_omap.
    destruct (hwmonIndex (Name f)); [|discriminate]. by injection Hd as <-. }
  rewrite Forall_forall in Hname. split; [exact Hname|]. split.
  - intros d1 d2 H1 H2 Hchip. unfold sensorKey.
    rewrite (Hname d1 H1), (Hname d2 H2), Hchip. split; [by intros [= ->]|by intros ->].
  - intros w g d1 d2 [k v] g1 g2 Hkey Hread _. rewrite (Collect_read_fst w d2), Hread.
    assert (k = sensorKey d2) as ->.
    { unfold reading in Hread.
      destruct (fst (readFirstLine (w_fs w) (path d2))); [|discriminate].
      destruct (ParseFloat (strings.TrimSpace a)); [|discriminate]. by injection Hread. }
    unfold WithLabelValues_Set. cbn [fst snd].
    destruct (validLabelValues (sensorKey d2)); [|discriminate].
    intros [= <-]. rewrite Hkey. apply lookup_insert_eq.
Qed.

End Gauge.

(** ** The [sensors -j] discoverer *)

(** C8: when the decoded output of [sensors -j] is the object
    [{"coretemp-isa-0000":{"Core 0":{"temp2_input": f, "temp2_label":"Core 0"}}}],
    in whichever order [range] visits the two fields, the discoverer
    returns exactly one reading, with key
    [("coretemp-isa-0000", "Core 0", "Core 0")] and the decoded number [f]
    itself as value (39.0 for [temp2_input: 39.0]); a collector with only
    this backend enabled publishes exactly that series. *)
Theorem cli_core0_reading (w : World) (bin : string) (timeout : Z)
    (f : float64) (sm : list (string * jvalue)) :
  sm ≡ₚ [("temp2_input", JNumber f); ("temp2_label", JString "Core 0")] ->
  w_sensors_j w bin timeout
    = Ok [("coretemp-isa-0000", JObject [("Core 0", JObject sm)])] ->
  fst (discoverSensorsCLI w bin timeout)
    = Ok [ {| cli_chip := "coretemp-isa-0000"; cli_name := "Core 0";
              cli_label := "Core 0"; cli_value := f |} ]
  /\ (forall ParseFloat p,
        enableHwmon (coll p) = false -> enableThermal (coll p) = false ->
        enableSensorsCli (coll p) = true ->
        sensorsCliPath (coll p) = bin -> sensorsTimeout (coll p) = timeout ->
        exists r,
          fst (Collect ParseFloat w p) = Some r
          /\ temperatures (snd r) = [(("coretemp-isa-0000", "Core 0", "Core 0"), f)]).
Proof.
  intros Hsm Hout.
  assert (Hcli : fst (discoverSensorsCLI w bin timeout)
                 = Ok [ {| cli_chip := "coretemp-isa-0000"; cli_name := "Core 0";
                           cli_label := "Core 0"; cli_value := f |} ]).
  { unfold discoverSensorsCLI. rewrite fst_io_bind. cbn [fst]. rewrite Hout.
    symmetry in Hsm. apply Permutation_length_2_inv in Hsm as [-> | ->];
      vm_compute; reflexivity. }
  split; [exact Hcli|].
  intros ParseFloat p Hhw Hth Hen <- <-.
  assert (Hobs : observed ParseFloat w (coll p)
                 = [(("coretemp-isa-0000", "Core 0", "Core 0"), f)]).
  { unfold observed, sysfsObserved, cliObserved.
    by rewrite Collect_discover_fst, Hhw, Hth, Hen, Hcli. }
  destruct (fst (Collect ParseFloat w p)) as [r|] eqn:Hr.
  - exists r. split; [reflexivity|]. rewrite (Collect_temperatures _ _ _ _ Hr), Hobs.
    cbn. rewrite insert_empty. apply map_to_list_singleton.
  - rewrite Collect_fst, Hobs in Hr. vm_compute in Hr. discriminate Hr.
Qed.

(** ** The warning about [sensors -j] *)

Lemma existsb_eq {A} (f g : A -> bool) (l : list A) :
  (forall x, f x = g x) -> existsb f l = existsb g l.
Proof. intros H. induction l as [|x l IH]; [reflexivity|]. cbn. by rewrite H, IH. Qed.

Lemma cliWarnings_app t1 t2 : cliWarnings (t1 ++ t2) = (cliWarnings t1 + cliWarnings t2)%nat.
Proof. unfold cliWarnings. by rewrite filter_app, length_app. Qed.

Lemma forEach_cliWarnings {A S} (body : A -> S -> IO S) (l : list A) :
  (forall x s, cliWarnings (snd (body x s)) = 0%nat) ->
  forall s, cliWarnings (snd (forEach l body s)) = 0%nat.
Proof.
  intros Hbody. induction l as [|x l IH]; intros s; [reflexivity|].
  cbn [forEach]. by rewrite snd_io_bind, cliWarnings_app, Hbody, IH.
Qed.

Lemma forEachTry_cliWarnings {A S} (body : A -> S -> IO (option S)) (l : list A) :
  (forall x s, cliWarnings (snd (body x s)) = 0%nat) ->
  forall s, cliWarnings (snd (forEachTry l body s)) = 0%nat.
Proof.
  intros Hbody. induction l as [|x l IH]; intros s; [reflexivity|].
  cbn [forEachTry]. rewrite snd_io_try, cliWarnings_app, Hbody.
  destruct (fst (body x s)); [by rewrite IH|reflexivity].
Qed.

Lemma readFirstLine_cliWarnings fs p : cliWarnings (snd (readFirstLine fs p)) = 0%nat.
Proof. by rewrite readFirstLine_trace. Qed.

Lemma discoverSensors_label_cliWarnings fs chipDir idx :
  cliWarnings (snd (discoverSensors_label fs chipDir idx)) = 0%nat.
Proof.
  unfold discoverSensors_label.
  rewrite snd_io_bind, cliWarnings_app, readFirstLine_cliWarnings.
  destruct (fst (readFirstLine fs _)); [reflexivity|].
  rewrite snd_io_bind, cliWarnings_app, readFirstLine_cliWarnings.
  by destruct (fst (readFirstLine fs _)).
Qed.

Lemma discoverSensors_cliWarnings fs basePath :
  cliWarnings (snd (discoverSensors fs basePath)) = 0%nat.
Proof.
  unfold discoverSensors. rewrite snd_io_bind, cliWarnings_app.
  destruct (fst (os_ReadDir fs basePath)) as [entries|e]; [|reflexivity].
  rewrite snd_io_bind, cliWarnings_app. cbn [os_ReadDir snd io_ret].
  rewrite forEach_cliWarnings; [reflexivity|].
  intros e sensors. unfold discoverSensors_chip. destruct (IsDir e); [|reflexivity].
  cbn [negb]. rewrite !snd_io_bind, !cliWarnings_app, readFirstLine_cliWarnings.
  destruct (fst (os_ReadDir fs _)) as [files|e']; [|reflexivity].
  rewrite forEach_cliWarnings; [reflexivity|].
  intros f sensors'. unfold discoverSensors_file.
  destruct (negb _ || negb _); [reflexivity|].
  by rewrite snd_io_bind, cliWarnings_app, discoverSensors_label_cliWarnings.
Qed.

Lemma discoverThermalSensors_cliWarnings fs thermalBase :
  cliWarnings (snd (discoverThermalSensors fs thermalBase)) = 0%nat.
Proof.
  unfold discoverThermalSensors. rewrite snd_io_bind, cliWarnings_app.
  destruct (fst (os_ReadDir fs thermalBase)) as [entries|e]; [|reflexivity].
  rewrite snd_io_bind, cliWarnings_app. cbn [os_ReadDir snd io_ret].
  rewrite forEach_cliWarnings; [reflexivity|].
  intros e sensors. unfold discoverThermalSensors_zone.
  destruct (negb _ || negb _); [reflexivity|].
  rewrite !snd_io_bind, !cliWarnings_app, readFirstLine_cliWarnings.
  by destruct (fst (os_Stat fs _)).
Qed.

Lemma Collect_discover_cliWarnings w c :
  cliWarnings (snd (Collect_discover w c)) = 0%nat.
Proof.
  unfold Collect_discover. rewrite snd_io_bind, cliWarnings_app.
  assert (H1 : forall sensors : list sensorReading,
    cliWarnings (snd (if enableHwmon c then
       s <- discoverSensors (w_fs w) (basePath c) ;;
       match s with
       | Ok s => io_ret (sensors ++ s)
       | Err err => emit (EvLog (LogDiscoverSensors err)) ;;; io_ret sensors
       end
     else io_ret sensors)) = 0%nat).
  { intros sensors. destruct (enableHwmon c); [|reflexivity].
    rewrite snd_io_bind, cliWarnings_app, discoverSensors_cliWarnings.
    by destruct (fst (discoverSensors _ _)). }
  rewrite H1. destruct (enableThermal c); [|reflexivity].
  rewrite snd_io_bind, cliWarnings_app, discoverThermalSensors_cliWarnings.
  by destruct (fst (discoverThermalSensors _ _)).
Qed.

Lemma Collect_cli_cliWarnings w c g warned :
  cliWarnings (snd (Collect_cli w c g warned))
  = if negb warned && cliFails w c then 1%nat else 0%nat.
Proof.
  unfold Collect_cli, cliFails, discoverSensorsCLI.
  destruct (enableSensorsCli c); [|by rewrite andb_false_r].
  rewrite !snd_io_bind, !fst_io_bind. cbn [fst snd andb].
  destruct (w_sensors_j w (sensorsCliPath c) (sensorsTimeout c)); cbn [io_ret fst snd].
  - rewrite andb_false_r, snd_io_try, !cliWarnings_app.
    rewrite forEachTry_cliWarnings by reflexivity. by destruct (fst (forEachTry _ _ _)).
  - by destruct warned.
Qed.

Section Warning.

Variable ParseFloat : string -> result float64.

(** A scrape that panics among the sysfs readings does not reach the
    [sensors -j] step; one that panics there has run the command with
    success. *)
Lemma Collect_cliWarnings_any w p :
  cliWarnings (snd (Collect ParseFloat w p))
  = if validKeys (sysfsObserved ParseFloat w (coll p))
    then (if negb (sensorsCliWarned p) && cliFails w (coll p) then 1%nat else 0%nat)
    else 0%nat.
Proof.
  unfold Collect. rewrite snd_io_bind, cliWarnings_app, Collect_discover_cliWarnings.
  rewrite snd_io_try, cliWarnings_app, Collect_reads.
  rewrite forEachTry_cliWarnings.
  2:{ intros s g. unfold Collect_read.
      rewrite snd_io_bind, cliWarnings_app, readFirstLine_cliWarnings.
      destruct (fst (readFirstLine _ _)) as [raw|e]; [|reflexivity].
      by destruct (ParseFloat (strings.TrimSpace raw)). }
  fold (sysfsObserved ParseFloat w (coll p)).
  destruct (validKeys (sysfsObserved ParseFloat w (coll p))); [|reflexivity].
  rewrite snd_io_try, cliWarnings_app, Collect_cli_cliWarnings.
  destruct (fst (Collect_cli _ _ _ _)); cbn; lia.
Qed.

Lemma Collect_cliWarnings w p r :
  fst (Collect ParseFloat w p) = Some r ->
  cliWarnings (snd (Collect ParseFloat w p))
  = if negb (sensorsCliWarned p) && cliFails w (coll p) then 1%nat else 0%nat.
Proof.
  intros [Hvalid _]%Collect_returns. rewrite Collect_cliWarnings_any.
  unfold observed in Hvalid. rewrite validKeys_app in Hvalid.
  by apply andb_true_iff in Hvalid as [-> _].
Qed.

(** The warning is written by scrapes that return only: when [sensors -j]
    fails, it contributes no reading. *)
Lemma Collect_warns_returns w p :
  cliWarnings (snd (Collect ParseFloat w p)) <> 0%nat ->
  exists r, fst (Collect ParseFloat w p) = Some r.
Proof.
  rewrite Collect_cliWarnings_any, Collect_fst. unfold observed. rewrite validKeys_app.
  destruct (validKeys (sysfsObserved ParseFloat w (coll p))); [|done].
  destruct (cliFails w (coll p)) eqn:Hfails; [|by rewrite andb_false_r].
  rewrite (cliObserved_cliFails _ _ Hfails). cbn. by eexists.
Qed.

Lemma Collect_warned w p r :
  fst (Collect ParseFloat w p) = Some r ->
  sensorsCliWarned (fst r) = sensorsCliWarned p || cliFails w (coll p).
Proof. by intros [_ ->]%Collect_returns. Qed.

(** A scrape leaves the settings of the collector as they are. *)
Lemma Collect_cliFails w w' p r :
  fst (Collect ParseFloat w p) = Some r ->
  cliFails w' (coll (fst r)) = cliFails w' (coll p).
Proof. by intros [_ ->]%Collect_returns. Qed.

Lemma serve_cons w ws p :
  serve ParseFloat (w :: ws) p
  = match fst (Collect ParseFloat w p) with
    | Some r =>
        (fst (serve ParseFloat ws (fst r)),
         snd (Collect ParseFloat w p) ++ snd (serve ParseFloat ws (fst r)))
    | None => (None, snd (Collect ParseFloat w p))
    end.
Proof.
  unfold serve. cbn [forEachTry].
  rewrite (surjective_pairing (io_try _ _)), fst_io_try, snd_io_try,
    fst_io_try, snd_io_try.
  destruct (fst (Collect ParseFloat w p)) as [r|];
    cbn [mbind option_bind io_ret fst snd]; by rewrite ?app_nil_r.
Qed.

Lemma serve_cliWarnings_le ws p :
  (cliWarnings (snd (serve ParseFloat ws p))
   <= if sensorsCliWarned p then 0 else 1)%nat.
Proof.
  revert p. induction ws as [|w ws IH]; intros p; [cbn; lia|].
  rewrite serve_cons. destruct (fst (Collect ParseFloat w p)) as [r|] eqn:Hr; cbn [snd].
  - rewrite cliWarnings_app, (Collect_cliWarnings _ _ _ Hr).
    specialize (IH (fst r)). rewrite (Collect_warned _ _ _ Hr) in IH.
    destruct (sensorsCliWarned p), (cliFails w (coll p)); cbn in *; lia.
  - destruct (Nat.eq_dec (cliWarnings (snd (Collect ParseFloat w p))) 0) as [->|Hne];
      [lia|].
    apply Collect_warns_returns in Hne as [r Hr']. congruence.
Qed.

Lemma serve_cliWarnings ws p p' :
  fst (serve ParseFloat ws p) = Some p' ->
  cliWarnings (snd (serve ParseFloat ws p))
  = if negb (sensorsCliWarned p) && existsb (fun w => cliFails w (coll p)) ws
    then 1%nat else 0%nat.
Proof.
  revert p. induction ws as [|w ws IH]; intros p.
  - cbn. by rewrite andb_false_r.
  - rewrite serve_cons. destruct (fst (Collect ParseFloat w p)) as [r|] eqn:Hr;
      [|discriminate].
    cbn [fst snd]. intros Hp'. rewrite cliWarnings_app, (IH _ Hp'),
      (Collect_cliWarnings _ _ _ Hr), (Collect_warned _ _ _ Hr). cbn [existsb].
    rewrite (existsb_eq _ (fun w0 => cliFails w0 (coll p)))
      by (intros w0; apply (Collect_cliFails _ _ _ _ Hr)).
    destruct (sensorsCliWarned p), (cliFails w (coll p)),
      (existsb (fun w0 => cliFails w0 (coll p)) ws); reflexivity.
Qed.

Lemma serve_warned ws p p' :
  fst (serve ParseFloat ws p) = Some p' ->
  sensorsCliWarned p' = sensorsCliWarned p || existsb (fun w => cliFails w (coll p)) ws.
Proof.
  revert p. induction ws as [|w ws IH]; intros p.
  - cbn. intros [= <-]. by rewrite orb_false_r.
  - rewrite serve_cons. destruct (fst (Collect ParseFloat w p)) as [r|] eqn:Hr;
      [|discriminate].
    cbn [fst]. intros Hp'. rewrite (IH _ Hp'), (Collect_warned _ _ _ Hr). cbn [existsb].
    rewrite (existsb_eq _ (fun w0 => cliFails w0 (coll p)))
      by (intros w0; apply (Collect_cliFails _ _ _ _ Hr)).
    by rewrite orb_assoc.
Qed.

Lemma serve_cliFails ws w' p p' :
  fst (serve ParseFloat ws p) = Some p' ->
  cliFails w' (coll p') = cliFails w' (coll p).
Proof.
  revert p. induction ws as [|w ws IH]; intros p.
  - cbn. by intros [= <-].
  - rewrite serve_cons. destruct (fst (Collect ParseFloat w p)) as [r|] eqn:Hr;
      [|discriminate].
    cbn [fst]. intros Hp'. by rewrite (IH _ Hp'), (Collect_cliFails _ _ _ _ Hr).
Qed.

Lemma serve_app ws1 ws2 p p1 :
  fst (serve ParseFloat ws1 p) = Some p1 ->
  serve ParseFloat (ws1 ++ ws2) p
  = (fst (serve ParseFloat ws2 p1),
     snd (serve ParseFloat ws1 p) ++ snd (serve ParseFloat ws2 p1)).
Proof.
  revert p. induction ws1 as [|w ws1 IH]; intros p.
  - cbn [app fst snd serve forEachTry io_ret]. intros [= <-].
    apply surjective_pairing.
  - cbn [app]. rewrite !serve_cons.
    destruct (fst (Collect ParseFloat w p)) as [r|]; [|discriminate].
    cbn [fst snd]. intros Hp1. rewrite (IH _ Hp1). cbn [fst snd]. by rewrite app_assoc.
Qed.

(** C9: over any sequence of scrapes of the process, the
    [discoverSensorsCLI error] line is written at most once; a scrape
    writes it exactly when [sensors -j] is enabled and fails and the flag
    [sensorsCliWarned] is not yet set, and it sets the flag; so the first
    failing scrape writes the line and no later scrape does. *)
Theorem cli_failure_logged_once (ws : list World) (p : process) :
  (cliWarnings (snd (serve ParseFloat ws p)) <= 1)%nat
  /\ (forall p',
        fst (serve ParseFloat ws p) = Some p' ->
        cliWarnings (snd (serve ParseFloat ws p))
        = (if negb (sensorsCliWarned p) && existsb (fun w => cliFails w (coll p)) ws
           then 1%nat else 0%nat))
  /\ (forall w r,
        fst (Collect ParseFloat w p) = Some r ->
        cliWarnings (snd (Collect ParseFloat w p))
        = (if negb (sensorsCliWarned p) && cliFails w (coll p) then 1%nat else 0%nat)
        /\ sensorsCliWarned (fst r) = sensorsCliWarned p || cliFails w (coll p))
  /\ (forall ws1 w ws2 p1 r,
        ws = ws1 ++ w :: ws2 ->
        sensorsCliWarned p = false ->
        existsb (fun w => cliFails w (coll p)) ws1 = false ->
        cliFails w (coll p) = true ->
        fst (serve ParseFloat ws1 p) = Some p1 ->
        fst (Collect ParseFloat w p1) = Some r ->
        cliWarnings (snd (serve ParseFloat ws1 p)) = 0%nat
        /\ cliWarnings (snd (Collect ParseFloat w p1)) = 1%nat
        /\ sensorsCliWarned (fst r) = true
        /\ cliWarnings (snd (serve ParseFloat ws2 (fst r))) = 0%nat
        /\ cliWarnings (snd (serve ParseFloat ws p)) = 1%nat).
Proof.
  split; [|split; [apply serve_cliWarnings|split]].
  - pose proof (serve_cliWarnings_le ws p). destruct (sensorsCliWarned p); lia.
  - intros w r Hr. split; [exact (Collect_cliWarnings _ _ _ Hr)|by apply Collect_warned].
  - intros ws1 w ws2 p1 r Hws Hp Hws1 Hw Hp1 Hr.
    assert (Hwarned1 : sensorsCliWarned p1 = false).
    { by rewrite (serve_warned _ _ _ Hp1), Hp, Hws1. }
    assert (Hw1 : cliFails w (coll p1) = true).
    { by rewrite (serve_cliFails _ _ _ _ Hp1). }
    assert (Hr2 : sensorsCliWarned (fst r) = true).
    { by rewrite (Collect_warned _ _ _ Hr), Hwarned1, Hw1. }
    assert (H0 : cliWarnings (snd (serve ParseFloat ws1 p)) = 0%nat).
    { by rewrite (serve_cliWarnings _ _ _ Hp1), Hp, Hws1. }
    assert (H1 : cliWarnings (snd (Collect ParseFloat w p1)) = 1%nat).
    { by rewrite (Collect_cliWarnings _ _ _ Hr), Hwarned1, Hw1. }
    assert (H2 : cliWarnings (snd (serve ParseFloat ws2 (fst r))) = 0%nat).
    { pose proof (serve_cliWarnings_le ws2 (fst r)) as Hle. rewrite Hr2 in Hle. lia. }
    split; [exact H0|]. split; [exact H1|]. split; [exact Hr2|]. split; [exact H2|].
    rewrite Hws, (serve_app _ _ _ _ Hp1). cbn [snd]. rewrite serve_cons, Hr. cbn [snd].
    rewrite !cliWarnings_app. lia.
Qed.

End Warning.

(** * Examples and counterexamples *)

(** C2 as worded fails on a chip with [temp1_input] and [temp2_input] and
    no label or type files: the two files get descriptors with different
    paths and the same key, and the scrape publishes one series, with the
    value of the second file. *)
Lemma hwmon_two_inputs_one_series :
  let w := world fs_two_inputs (Err ENOENT) in
  fst (discoverSensors fs_two_inputs hwmon)
  = Ok [ {| chip := "acpitz"; name := "acpitz"; label := "";
            path := hwmon ++ ["hwmon0"; "temp1_input"]; factor := 0.001%float |};
         {| chip := "acpitz"; name := "acpitz"; label := "";
            path := hwmon ++ ["hwmon0"; "temp2_input"]; factor := 0.001%float |} ]
  /\ exists r,
       fst (Collect ParseFloat_decimal w (start hwmon_only)) = Some r
       /\ temperatures (snd r) = [(("acpitz", "acpitz", ""), 50%float)].
Proof.
  split; [vm_compute; reflexivity|].
  eexists. split; vm_compute; reflexivity.
Qed.

(** The hwmon descriptors of [fs_labels]. *)
Lemma hwmon_sensor_name_is_chip_witness :
  let ds :=
    [ {| chip := "k10temp"; name := "k10temp"; label := "Tctl";
         path := hwmon ++ ["hwmon0"; "temp1_input"]; factor := 0.001%float |};
      {| chip := "k10temp"; name := "k10temp"; label := "Tdie";
         path := hwmon ++ ["hwmon0"; "temp2_input"]; factor := 0.001%float |};
      {| chip := "k10temp"; name := "k10temp"; label := "";
         path := hwmon ++ ["hwmon0"; "temp3_input"]; factor := 0.001%float |} ] in
  fst (discoverSensors fs_labels hwmon) = Ok ds
  /\ (forall d, d ∈ ds -> name d = chip d)
  /\ (forall d1 d2, d1 ∈ ds -> d2 ∈ ds -> chip d1 = chip d2 ->
        (sensorKey d1 = sensorKey d2 <-> label d1 = label d2)).
Proof.
  intros ds.
  assert (H : fst (discoverSensors fs_labels hwmon) = Ok ds) by (vm_compute; reflexivity).
  split; [exact H|].
  pose proof (hwmon_sensor_name_is_chip ParseFloat_decimal fs_labels hwmon ds H)
    as (H1 & H2 & _).
  split; [exact H1|exact H2].
Defined.

(** In [fs_labels], [temp1_label] holds [Tctl]: it is the label, and
    [temp1_type] is not opened. *)
Lemma hwmon_label_resolution_witness :
  fst (discoverSensors_label fs_labels (hwmon ++ ["hwmon0"]) "1") = "Tctl"
  /\ (EvOpen (hwmon ++ ["hwmon0"; "temp1_type"])
       ∉ snd (discoverSensors_label fs_labels (hwmon ++ ["hwmon0"]) "1"))
  /\ fst (discoverSensors_label fs_labels (hwmon ++ ["hwmon0"]) "2") = "Tdie"
  /\ fst (discoverSensors_label fs_labels (hwmon ++ ["hwmon0"]) "3") = "".
Proof.
  pose proof (hwmon_label_resolution fs_labels (hwmon ++ ["hwmon0"]) "1") as (H1 & H1' & _).
  pose proof (hwmon_label_resolution fs_labels (hwmon ++ ["hwmon0"]) "2") as (H2 & _).
  pose proof (hwmon_label_resolution fs_labels (hwmon ++ ["hwmon0"]) "3") as (H3 & _).
  split; [rewrite H1; vm_compute; reflexivity|].
  split; [apply (H1' "Tctl"); vm_compute; reflexivity|].
  split; [rewrite H2; vm_compute; reflexivity|rewrite H3; vm_compute; reflexivity].
Defined.

(** A blank first line reads as the empty string without error. *)
Lemma readFirstLine_fails_iff_witness :
  fst (readFirstLine fs_blank_label (hwmon ++ ["hwmon0"; "temp3_label"])) = Ok EmptyString.
Proof.
  apply (proj2 (readFirstLine_fails_iff fs_blank_label
                  (hwmon ++ ["hwmon0"; "temp3_label"]))
           {| r_data := " " +:+ LF; r_err := None |});
    [vm_compute; reflexivity | discriminate | vm_compute; reflexivity
    | vm_compute; reflexivity].
Defined.

(** A hwmon reading and a [sensors -j] reading with the same key: the
    published value is the latter, 39, not 50. *)
Lemma cli_reading_wins_witness :
  let w := world fs_two_inputs (Ok cli_same_key) in
  let r := {| cli_chip := "acpitz"; cli_name := "acpitz"; cli_label := "";
              cli_value := 39%float |} in
  sysfsObserved ParseFloat_decimal w all_backends
  = [(("acpitz", "acpitz", ""), 40%float); (("acpitz", "acpitz", ""), 50%float)]
  /\ exists res,
       fst (Collect ParseFloat_decimal w (start all_backends)) = Some res
       /\ exists pre r' post,
            [r] = pre ++ r' :: post
            /\ cliKey r' = ("acpitz", "acpitz", "")
            /\ (("acpitz", "acpitz", "") ∉ cliKey <$> post)
            /\ sensors (coll (fst res)) !! ("acpitz", "acpitz", "") = Some (cli_value r')
            /\ (("acpitz", "acpitz", ""), cli_value r') ∈ temperatures (snd res)
            /\ (forall c, c ∈ [r] -> cliKey c = ("acpitz", "acpitz", "") ->
                  (forall c', c' ∈ [r] -> cliKey c' = ("acpitz", "acpitz", "") -> c' = c) ->
                  sensors (coll (fst res)) !! ("acpitz", "acpitz", "")
                  = Some (cli_value c)).
Proof.
  intros w r. split; [vm_compute; reflexivity|].
  destruct (fst (Collect ParseFloat_decimal w (start all_backends))) as [res|] eqn:Hres;
    [|vm_compute in Hres; discriminate Hres].
  exists res. split; [reflexivity|].
  apply (cli_reading_wins ParseFloat_decimal w (start all_backends) res [r]
           ("acpitz", "acpitz", "") Hres);
    [reflexivity | vm_compute; reflexivity | apply list_elem_of_singleton; reflexivity].
Defined.

(** C6 fails on a thermal zone whose [type] file holds a byte that is no
    valid UTF-8: the hwmon base path cannot be listed, the thermal
    backend finds the zone and its reading of 47 degrees, and the scrape
    panics in [WithLabelValues]: it does not complete, publishes no
    reading and sets no scrape duration.  With an ASCII [type] the same
    tree is scraped to the end. *)
Lemma scrape_panics_on_invalid_label :
  let w := world fs_invalid_type (Err ENOENT) in
  let zone0 := {| chip := "thermal"; name := String "255"%char EmptyString;
                  label := "thermal_zone0";
                  path := thermal ++ ["thermal_zone0"; "temp"]; factor := 0.001%float |} in
  ReadDir (w_fs w) (basePath all_backends) = Err ENOENT
  /\ fst (Collect_discover w all_backends) = [zone0]
  /\ reading ParseFloat_decimal w zone0 = Some (sensorKey zone0, 47%float)
  /\ validLabelValues (sensorKey zone0) = false
  /\ fst (Collect ParseFloat_decimal w (start all_backends)) = None
  /\ snd (Collect ParseFloat_decimal w (start all_backends))
     = [EvReadDir hwmon; EvLog (LogDiscoverSensors ENOENT);
        EvReadDir thermal; EvOpen (thermal ++ ["thermal_zone0"; "type"]);
        EvStat (thermal ++ ["thermal_zone0"; "temp"]);
        EvOpen (thermal ++ ["thermal_zone0"; "temp"])].
Proof. repeat split; vm_compute; reflexivity. Qed.

(** No hwmon directory, one populated thermal zone, [sensors] not
    installed: the scrape publishes the zone's reading and its duration. *)
Lemma scrape_survives_unlistable_hwmon_witness :
  let w := world fs_thermal_only (Err ENOENT) in
  let zone0 := {| chip := "thermal"; name := "x86_pkg_temp"; label := "thermal_zone0";
                  path := thermal ++ ["thermal_zone0"; "temp"]; factor := 0.001%float |} in
  ReadDir (w_fs w) (basePath all_backends) = Err ENOENT
  /\ fst (Collect_discover w all_backends) = [zone0]
  /\ exists r,
       fst (Collect ParseFloat_decimal w (start all_backends)) = Some r
       /\ (("thermal", "x86_pkg_temp", "thermal_zone0"), 47%float) ∈ temperatures (snd r)
       /\ EvLog (LogDiscoverSensors ENOENT)
            ∈ snd (Collect ParseFloat_decimal w (start all_backends))
       /\ scrapeTime (coll (fst r)) = Seconds 1500.
Proof.
  intros w zone0.
  assert (He : ReadDir (w_fs w) (basePath all_backends) = Err ENOENT) by reflexivity.
  destruct (scrape_survives_unlistable_hwmon ParseFloat_decimal w (start all_backends))
    as [Hreturns Hhwmon].
  destruct (proj2 Hreturns) as [r Hr].
  { assert (Hobs : observed ParseFloat_decimal w (coll (start all_backends))
                   = [(("thermal", "x86_pkg_temp", "thermal_zone0"), 47%float)])
      by (vm_compute; reflexivity).
    intros k v Hkv. rewrite Hobs in Hkv. apply list_elem_of_singleton in Hkv.
    injection Hkv as -> _. vm_compute. reflexivity. }
  destruct (Hhwmon r Hr) as (Htime & _ & Hunlistable).
  destruct (Hunlistable ENOENT He) as (Hds & Hlog & _ & _ & Hlast).
  split; [exact He|].
  split; [change all_backends with (coll (start all_backends)); rewrite Hds;
          vm_compute; reflexivity|].
  exists r. split; [exact Hr|]. split; [|split; [exact (Hlog eq_refl)|exact Htime]].
  apply (Hlast [] zone0 []); [vm_compute; reflexivity | vm_compute; reflexivity|].
  vm_compute. apply not_elem_of_nil.
Defined.

(** C7 as worded fails on the first of two descriptors with the same key:
    [temp1_input] reads as [40000] and its scale factor is 0.001, and the
    value published for its key is 50, that of [temp2_input]. *)
Lemma descriptor_value_overwritten :
  let w := world fs_two_inputs (Err ENOENT) in
  let s := {| chip := "acpitz"; name := "acpitz"; label := "";
              path := hwmon ++ ["hwmon0"; "temp1_input"]; factor := 0.001%float |} in
  s ∈ fst (Collect_discover w hwmon_only)
  /\ fst (readFirstLine (w_fs w) (path s)) = Ok "40000"
  /\ ParseFloat_decimal (strings.TrimSpace "40000") = Ok 40000%float
  /\ PrimFloat.mul 40000 (factor s) = 40%float
  /\ (exists r,
        fst (Collect ParseFloat_decimal w (start hwmon_only)) = Some r
        /\ sensors (coll (fst r)) !! sensorKey s = Some 50%float)
  /\ PrimFloat.ltb 40 50 = true.
Proof.
  intros w s.
  split; [|split; [|split; [|split; [|split]]]]; try (vm_compute; reflexivity);
    [|eexists; split; vm_compute; reflexivity].
  assert (H : fst (Collect_discover w hwmon_only)
              = [s; {| chip := "acpitz"; name := "acpitz"; label := "";
                       path := hwmon ++ ["hwmon0"; "temp2_input"];
                       factor := 0.001%float |}]) by (vm_compute; reflexivity).
  rewrite H. apply list_elem_of_here.
Qed.

(** In [fs_garbled] the second input is not a number: it is skipped, and
    the first and the fourth are published. *)
Lemma descriptor_read_or_skipped_witness :
  let w := world fs_garbled (Err ENOENT) in
  let d (n l : string) :=
    {| chip := "hwmon0"; name := "hwmon0"; label := l;
       path := hwmon ++ ["hwmon0"; "temp" +:+ n +:+ "_input"]; factor := 0.001%float |} in
  fst (Collect_discover w hwmon_only) = [d "1" "a"] ++ d "2" "b" :: [d "3" "c"; d "4" "d"]
  /\ exists r,
       fst (Collect ParseFloat_decimal w (start hwmon_only)) = Some r
       /\ sensors (coll (fst r))
          = upserts ∅ [(("hwmon0", "hwmon0", "a"), 40%float);
                       (("hwmon0", "hwmon0", "d"), 44%float)]
       /\ sensors (coll (fst r)) !! ("hwmon0", "hwmon0", "b") = None.
Proof.
  intros w d.
  assert (H : fst (Collect_discover w hwmon_only)
              = [d "1" "a"] ++ d "2" "b" :: [d "3" "c"; d "4" "d"])
    by (vm_compute; reflexivity).
  split; [exact H|].
  destruct (fst (Collect ParseFloat_decimal w (start hwmon_only))) as [r|] eqn:Hr;
    [|vm_compute in Hr; discriminate Hr].
  exists r. split; [reflexivity|].
  pose proof (descriptor_read_or_skipped ParseFloat_decimal w (start hwmon_only) r
                [d "1" "a"] (d "2" "b") [d "3" "c"; d "4" "d"] Hr H) as T.
  cbv zeta in T.
  replace (fst (readFirstLine (w_fs w) (path (d "2" "b")))) with (@Ok string "n/a") in T
    by (vm_compute; reflexivity).
  replace (ParseFloat_decimal (strings.TrimSpace "n/a"))
    with (@Err float64 (SysError "invalid syntax")) in T by (vm_compute; reflexivity).
  destruct T as [Hg Habsent]. split.
  - rewrite Hg. apply (f_equal (upserts ∅)). vm_compute. reflexivity.
  - apply Habsent. vm_compute.
    intros [H1|H2]%elem_of_cons; [discriminate H1|].
    apply list_elem_of_singleton in H2. discriminate H2.
Defined.

(** The object of the claim, with [temp2_input: 39.0]. *)
Lemma cli_core0_reading_witness :
  let root :=
    [("coretemp-isa-0000",
      JObject [("Core 0", JObject [("temp2_input", JNumber 39%float);
                                   ("temp2_label", JString "Core 0")])])] in
  fst (discoverSensorsCLI (world (tree [] []) (Ok root)) "sensors" 2000000000)
  = Ok [ {| cli_chip := "coretemp-isa-0000"; cli_name := "Core 0";
            cli_label := "Core 0"; cli_value := 39%float |} ].
Proof.
  intros root.
  apply (cli_core0_reading (world (tree [] []) (Ok root)) "sensors" 2000000000
           39%float [("temp2_input", JNumber 39%float); ("temp2_label", JString "Core 0")]);
    reflexivity.
Defined.

(** Three scrapes without [sensors] installed: one warning, in the first. *)
Lemma cli_failure_logged_once_witness :
  let w := world fs_thermal_only (Err ENOENT) in
  cliWarnings (snd (serve ParseFloat_decimal [w; w; w] (start all_backends))) = 1%nat
  /\ cliWarnings (snd (Collect ParseFloat_decimal w (start all_backends))) = 1%nat
  /\ exists r,
       fst (Collect ParseFloat_decimal w (start all_backends)) = Some r
       /\ cliWarnings (snd (serve ParseFloat_decimal [w; w] (fst r))) = 0%nat.
Proof.
  intros w.
  destruct (cli_failure_logged_once ParseFloat_decimal [w; w; w] (start all_backends))
    as (_ & _ & _ & Hfirst).
  destruct (fst (Collect ParseFloat_decimal w (start all_backends))) as [r|] eqn:Hr;
    [|vm_compute in Hr; discriminate Hr].
  destruct (Hfirst [] w [w; w] (start all_backends) r
              eq_refl eq_refl eq_refl eq_refl eq_refl Hr) as (_ & H1 & _ & H2 & H3).
  split; [exact H3|]. split; [exact H1|]. exists r. split; [reflexivity|exact H2].
Defined.

(** A scrape of [fs_two_inputs] after one of [fs_labels]: the three keys
    of the first scrape are gone, the one key of the second is there. *)
Lemma scrape_publishes_observed_keys_witness :
  let w1 := world fs_labels (Err ENOENT) in
  let w2 := world fs_two_inputs (Err ENOENT) in
  exists r1 r2,
    fst (Collect ParseFloat_decimal w1 (start hwmon_only)) = Some r1
    /\ fst (Collect ParseFloat_decimal w2 (fst r1)) = Some r2
    /\ ("k10temp", "k10temp", "Tctl") ∈ dom (sensors (coll (fst r1)))
    /\ (("k10temp", "k10temp", "Tctl") ∉ (temperatures (snd r2)).*1)
    /\ (("acpitz", "acpitz", ""), 50%float) ∈ temperatures (snd r2).
Proof.
  intros w1 w2.
  destruct (fst (Collect ParseFloat_decimal w1 (start hwmon_only))) as [r1|] eqn:Hr1;
    [|vm_compute in Hr1; discriminate Hr1].
  exists r1.
  destruct (fst (Collect ParseFloat_decimal w2 (fst r1))) as [r2|] eqn:Hr2.
  2:{ pose proof (Collect_returns _ _ _ _ Hr1) as [_ ->].
      vm_compute in Hr2. discriminate Hr2. }
  exists r2. split; [reflexivity|]. split; [reflexivity|].
  destruct (scrape_publishes_observed_keys ParseFloat_decimal w2 (fst r1) r2 Hr2)
    as (_ & _ & Hlast & _ & Hstale).
  pose proof (Collect_returns _ _ _ _ Hr1) as [_ ->].
  match goal with
  | |- ?k ∈ dom ?g /\ _ =>
      assert (Hold : k ∈ dom g)
        by (apply elem_of_dom; exists 45%float; vm_compute; reflexivity)
  end.
  split; [exact Hold|]. split.
  - apply Hstale; [exact Hold|]. vm_compute.
    intros [H1|H2]%elem_of_cons; [discriminate H1|].
    apply list_elem_of_singleton in H2. discriminate H2.
  - apply (Hlast [(("acpitz", "acpitz", ""), 40%float)] _ _ []);
      [vm_compute; reflexivity|apply not_elem_of_nil].
Defined.

(** * Further properties: discovery, scrapes, request logging *)

(** ** The line reader: what a line it returns looks like *)

Lemma contains_app c s t :
  contains c (s +:+ t) = contains c s || contains c t.
Proof.
  induction s as [|c' s IH]; [reflexivity|].
  rewrite app_String. cbn [contains]. by rewrite IH, orb_assoc.
Qed.

(** [TrimLeftSpace] drops white-space runes one after the other, and
    stops at a string that starts with none. *)
Lemma TrimLeftSpace_rec (P : string -> string -> Prop) :
  (forall s, strings.spacePrefix s = false -> P s s) ->
  (forall w s r, strings.isSpace w = true -> P s r -> P (w +:+ s) r) ->
  forall s, P s (strings.TrimLeftSpace s).
Proof.
  intros Hfix Hstep s.
  assert (H : forall n s, (String.length s < n)%nat -> P s (strings.TrimLeftSpace s)).
  { clear s. induction n as [|n IH]; intros s Hn; [lia|].
    destruct s as [|c s1]; [by apply Hfix|].
    cbn [strings.TrimLeftSpace]. destruct (strings.asciiSpace c) eqn:Hc.
    { apply (Hstep (String c EmptyString)); [exact Hc|]. apply IH. cbn in Hn. lia. }
    destruct s1 as [|d s2]; [apply Hfix; cbn; by rewrite Hc|].
    destruct (strings.space2 c d) eqn:Hcd.
    { apply (Hstep (String c (String d EmptyString))); [exact Hcd|].
      apply IH. cbn in Hn. lia. }
    destruct s2 as [|e s3]; [apply Hfix; cbn; by rewrite Hc, Hcd|].
    destruct (strings.space3 c d e) eqn:Hcde.
    { apply (Hstep (String c (String d (String e EmptyString)))); [exact Hcde|].
      apply IH. cbn in Hn. lia. }
    apply Hfix. cbn. by rewrite Hc, Hcd, Hcde. }
  apply (H (S (String.length s))). lia.
Qed.

Lemma TrimLeftSpace_fix s : strings.spacePrefix s = false -> strings.TrimLeftSpace s = s.
Proof.
  destruct s as [|c [|d [|e s3]]]; cbn [strings.spacePrefix strings.TrimLeftSpace];
    intros H; try reflexivity.
  - apply orb_false_elim in H as [-> _]. reflexivity.
  - apply orb_false_elim in H as [-> H]. apply orb_false_elim in H as [-> _]. reflexivity.
  - apply orb_false_elim in H as [-> H]. apply orb_false_elim in H as [-> ->]. reflexivity.
Qed.

Lemma TrimLeftSpace_suffix s : exists pre, s = pre +:+ strings.TrimLeftSpace s.
Proof.
  apply (TrimLeftSpace_rec (fun s r => exists pre, s = pre +:+ r)).
  - intros s' _. by exists EmptyString.
  - intros w s' r _ [pre ->]. exists (w +:+ pre). by rewrite app_assoc_string.
Qed.

Lemma TrimRightSpace_prefix s : exists suf, s = strings.TrimRightSpace s +:+ suf.
Proof.
  induction s as [|c s [suf IH]]; [by exists EmptyString|].
  cbn [strings.TrimRightSpace].
  destruct (strings.isSpace _); [by exists (String c s)|].
  exists suf. by rewrite app_String, <- IH.
Qed.

Lemma dropCR_prefix s : exists suf, s = bufio.dropCR s +:+ suf.
Proof.
  induction s as [|c s [suf IH]]; [by exists EmptyString|].
  cbn [bufio.dropCR]. destruct s as [|c' s'].
  - destruct (Ascii.eqb c "013"); [by exists (String c EmptyString)|by exists EmptyString].
  - exists suf. rewrite app_String. by rewrite <- IH.
Qed.

Lemma TrimLeftSpace_head s : strings.spacePrefix (strings.TrimLeftSpace s) = false.
Proof. by apply (TrimLeftSpace_rec (fun _ r => strings.spacePrefix r = false)). Qed.

(** A string that starts with a white-space rune still does when it is
    extended. *)
Lemma spacePrefix_app a b :
  strings.spacePrefix (a +:+ b) = false -> strings.spacePrefix a = false.
Proof.
  destruct a as [|c [|d [|e a3]]]; [done| | |]; rewrite ?app_String;
    cbn [strings.spacePrefix].
  - intros [-> _]%orb_false_elim. reflexivity.
  - intros [-> [-> _]%orb_false_elim]%orb_false_elim. reflexivity.
  - done.
Qed.

Lemma TrimRightSpace_idem s :
  strings.TrimRightSpace (strings.TrimRightSpace s) = strings.TrimRightSpace s.
Proof.
  induction s as [|c s IH]; [reflexivity|]. cbn [strings.TrimRightSpace].
  destruct (strings.isSpace _) eqn:Hw; [reflexivity|].
  cbn [strings.TrimRightSpace]. by rewrite IH, Hw.
Qed.

Lemma TrimSpace_idem s : strings.TrimSpace (strings.TrimSpace s) = strings.TrimSpace s.
Proof.
  unfold strings.TrimSpace.
  destruct (TrimRightSpace_prefix (strings.TrimLeftSpace s)) as [suf Hsuf].
  pose proof (TrimLeftSpace_head s) as Hhead. rewrite Hsuf in Hhead.
  apply spacePrefix_app in Hhead.
  rewrite (TrimLeftSpace_fix _ Hhead). apply TrimRightSpace_idem.
Qed.

Lemma cutLine_no_LF data l : bufio.cutLine data = Some l -> contains "010" l = false.
Proof.
  revert l. induction data as [|c data IH]; intros l; [discriminate|]. cbn.
  destruct (Ascii.eqb c "010") eqn:Hc; [by intros [= <-]|].
  destruct (bufio.cutLine data) as [l'|]; [|discriminate].
  intros [= <-]. cbn. by rewrite Hc, (IH l').
Qed.

Lemma cutLine_None_no_LF data : bufio.cutLine data = None -> contains "010" data = false.
Proof.
  induction data as [|c data IH]; [reflexivity|]. cbn.
  destruct (Ascii.eqb c "010"); [discriminate|].
  destruct (bufio.cutLine data); [discriminate|]. intros _. by apply IH.
Qed.

Lemma firstLine_no_LF data : contains "010" (bufio.firstLine data) = false.
Proof.
  unfold bufio.firstLine. destruct (bufio.cutLine data) eqn:H.
  - by apply cutLine_no_LF in H.
  - by apply cutLine_None_no_LF.
Qed.

(** The trimmed line is a part of the first line: [first = pre + line + suf]. *)
Lemma TrimSpace_dropCR_infix s :
  exists pre suf, s = pre +:+ strings.TrimSpace (bufio.dropCR s) +:+ suf.
Proof.
  destruct (dropCR_prefix s) as [suf1 H1].
  destruct (TrimLeftSpace_suffix (bufio.dropCR s)) as [pre H2].
  destruct (TrimRightSpace_prefix (strings.TrimLeftSpace (bufio.dropCR s))) as [suf2 H3].
  exists pre, (suf2 +:+ suf1). unfold strings.TrimSpace.
  rewrite <- (app_assoc_string _ suf2 suf1), <- H3.
  rewrite <- (app_assoc_string pre _ suf1), <- H2. exact H1.
Qed.

(** X1: a line that [readFirstLine] returns is already trimmed (so the
    second [strings.TrimSpace] in [Collect] leaves it as it is): it does
    not start with a white-space rune, ASCII or not.  It holds no line
    feed and is shorter than the scanner's buffer.  It is a part of the
    first line of the file. *)
Theorem readFirstLine_line_is_trimmed (fs : FS) (p : pathname) (line : string) :
  fst (readFirstLine fs p) = Ok line ->
  strings.TrimSpace line = line
  /\ strings.spacePrefix line = false
  /\ contains "010" line = false
  /\ (strings.len line < bufio.MaxScanTokenSize)%N
  /\ exists r pre suf,
       Open fs p = Ok r /\ bufio.firstLine (r_data r) = pre +:+ line +:+ suf.
Proof.
  intros Hline. pose proof (readFirstLine_cases fs p) as H.
  destruct (Open fs p) as [r|e]; [|rewrite H in Hline; discriminate].
  destruct (decide (r_data r = EmptyString)); [rewrite H in Hline; discriminate|].
  destruct (decide (bufio.MaxScanTokenSize <= strings.len (bufio.firstLine (r_data r)))%N)
    as [|Hlt]; [rewrite H in Hline; discriminate|].
  rewrite H in Hline. injection Hline as <-.
  destruct (TrimSpace_dropCR_infix (bufio.firstLine (r_data r))) as (pre & suf & Hinfix).
  split; [apply TrimSpace_idem|]. split; [|split; [|split]].
  - unfold strings.TrimSpace.
    destruct (TrimRightSpace_prefix
                (strings.TrimLeftSpace (bufio.dropCR (bufio.firstLine (r_data r)))))
      as [suf' Hsuf].
    pose proof (TrimLeftSpace_head (bufio.dropCR (bufio.firstLine (r_data r)))) as Hhead.
    rewrite Hsuf in Hhead. by apply spacePrefix_app in Hhead.
  - pose proof (firstLine_no_LF (r_data r)) as HLF.
    rewrite Hinfix, !contains_app in HLF.
    apply orb_false_elim in HLF as [_ HLF]. by apply orb_false_elim in HLF as [HLF _].
  - assert (Hlen : (strings.len (strings.TrimSpace (bufio.dropCR (bufio.firstLine (r_data r))))
                    <= strings.len (bufio.firstLine (r_data r)))%N).
    { rewrite Hinfix at 2. unfold strings.len. rewrite !string_app_length. lia. }
    lia.
  - by exists r, pre, suf.
Qed.

(** The file [temp1_label] of [fs_nbsp_label] holds [Tctl] between two
    no-break spaces, and a line feed. *)
Lemma readFirstLine_line_is_trimmed_witness :
  fst (readFirstLine fs_nbsp_label ["temp1_label"]) = Ok "Tctl"
  /\ strings.TrimSpace "Tctl" = "Tctl"
  /\ strings.spacePrefix "Tctl" = false
  /\ contains "010" "Tctl" = false
  /\ (strings.len "Tctl" < bufio.MaxScanTokenSize)%N.
Proof.
  assert (H : fst (readFirstLine fs_nbsp_label ["temp1_label"]) = Ok "Tctl")
    by (vm_compute; reflexivity).
  destruct (readFirstLine_line_is_trimmed fs_nbsp_label ["temp1_label"] "Tctl" H)
    as (H1 & H2 & H3 & H4 & _).
  split; [exact H|]. split; [exact H1|]. split; [exact H2|]. split; [exact H3|exact H4].
Defined.

(** X2: [readFirstLine] reads the first line only: two files with the same
    bytes before their first line feed give the same result, whatever
    follows the line feed and however reading ends. *)
Theorem readFirstLine_first_line_only
    (fs1 fs2 : FS) (p1 p2 : pathname) (r1 r2 : Reader) (l : string) :
  Open fs1 p1 = Ok r1 -> Open fs2 p2 = Ok r2 ->
  bufio.cutLine (r_data r1) = Some l -> bufio.cutLine (r_data r2) = Some l ->
  fst (readFirstLine fs1 p1) = fst (readFirstLine fs2 p2).
Proof.
  intros H1 H2 Hl1 Hl2.
  assert (Hscan : forall r, bufio.cutLine (r_data r) = Some l ->
            bufio.Scan r
            = if (bufio.MaxScanTokenSize <=? strings.len l)%N
              then bufio.NoToken (Some ErrTooLong) else bufio.Token (bufio.dropCR l)).
  { intros r Hr. unfold bufio.Scan, bufio.firstLine. by rewrite Hr. }
  unfold readFirstLine, os_Open. rewrite !fst_io_bind. cbn [fst].
  by rewrite H1, H2, (Hscan r1 Hl1), (Hscan r2 Hl2).
Qed.

(** A label file with a second line, or a read error after the first. *)
Lemma readFirstLine_first_line_only_witness :
  fst (readFirstLine (tree [] [(["a"], "Tctl" +:+ LF +:+ "Tdie" +:+ LF)]) ["a"])
  = fst (readFirstLine fs_labels (hwmon ++ ["hwmon0"; "temp1_label"])).
Proof.
  apply (readFirstLine_first_line_only _ _ _ _
           {| r_data := "Tctl" +:+ LF +:+ "Tdie" +:+ LF; r_err := None |}
           {| r_data := "Tctl" +:+ LF; r_err := None |} "Tctl");
    vm_compute; reflexivity.
Defined.

(** ** Loops that append *)

Lemma forEach_appends {A B} (body : A -> list B -> IO (list B))
    (f : A -> list B) (g : A -> list event) (l : list A) :
  (forall x s, body x s = (s ++ f x, g x)) ->
  forall s, forEach l body s = (s ++ (l ≫= f), l ≫= g).
Proof.
  intros Hbody. induction l as [|x l IH]; intros s.
  - cbn. by rewrite app_nil_r.
  - cbn [forEach]. unfold io_bind. rewrite Hbody. cbn [fst snd]. rewrite IH.
    cbn [fst snd]. by rewrite <- app_assoc.
Qed.

Lemma forEach_appends_fst {A B} (body : A -> list B -> IO (list B))
    (f : A -> list B) (l : list A) :
  (forall x s, fst (body x s) = s ++ f x) ->
  forall s, fst (forEach l body s) = s ++ (l ≫= f).
Proof.
  intros Hbody. induction l as [|x l IH]; intros s.
  - cbn. by rewrite app_nil_r.
  - cbn [forEach]. rewrite fst_io_bind, IH, Hbody. by rewrite <- app_assoc.
Qed.

Lemma foldl_appends {A B} (step : list B -> A -> list B) (f : A -> list B) (l : list A) :
  (forall acc x, step acc x = acc ++ f x) ->
  forall acc, foldl step acc l = acc ++ (l ≫= f).
Proof.
  intros Hstep. induction l as [|x l IH]; intros acc.
  - cbn. by rewrite app_nil_r.
  - cbn [foldl]. rewrite IH, Hstep. by rewrite <- app_assoc.
Qed.

Lemma forEach_trace_Forall {A S} (P : event -> Prop) (body : A -> S -> IO S)
    (l : list A) :
  (forall x s, Forall P (snd (body x s))) ->
  forall s, Forall P (snd (forEach l body s)).
Proof.
  intros Hbody. induction l as [|x l IH]; intros s; [constructor|].
  cbn [forEach]. rewrite snd_io_bind. apply Forall_app. split; [apply Hbody|apply IH].
Qed.

(** ** The hwmon discoverer, chip by chip *)

Lemma discoverSensors_chip_fst fs basePath e sensors :
  fst (discoverSensors_chip fs basePath e sensors) = sensors ++ hwmonChip fs basePath e.
Proof.
  unfold discoverSensors_chip, hwmonChip. destruct (IsDir e); cbn [negb].
  - rewrite !fst_io_bind. cbn [os_ReadDir fst].
    destruct (ReadDir fs (Join basePath (Name e))) as [files|err].
    + apply discoverSensors_files.
    + cbn. by rewrite app_nil_r.
  - cbn. by rewrite app_nil_r.
Qed.

Lemma elem_of_hwmonChip fs basePath e d :
  d ∈ hwmonChip fs basePath e <->
  IsDir e = true /\
  exists files f idx,
    ReadDir fs (Join basePath (Name e)) = Ok files
    /\ f ∈ files
    /\ Name f = "temp" +:+ idx +:+ "_input"
    /\ d = hwmonDescriptor fs (Join basePath (Name e)) (hwmonChipName fs basePath e)
             (Name f) idx.
Proof.
  unfold hwmonChip. destruct (IsDir e).
  - destruct (ReadDir fs (Join basePath (Name e))) as [files|err].
    + rewrite list_elem_of_omap. split.
      * intros (f & Hf & Hd). destruct (hwmonIndex (Name f)) as [idx|] eqn:Hidx;
          [|discriminate]. injection Hd as <-.
        split; [done|]. exists files, f, idx. by rewrite <- hwmonIndex_iff.
      * intros (_ & files' & f & idx & [= <-] & Hf & Hname & ->).
        exists f. split; [done|]. apply hwmonIndex_iff in Hname. by rewrite Hname.
    + rewrite elem_of_nil. split; [done|]. by intros (_ & ? & ? & ? & ? & _).
  - rewrite elem_of_nil. split; [done|]. by intros [? _].
Qed.

Lemma discoverSensors_listed fs basePath entries :
  ReadDir fs basePath = Ok entries ->
  fst (discoverSensors fs basePath) = Ok (entries ≫= hwmonChip fs basePath).
Proof.
  intros Hbase. unfold discoverSensors. rewrite fst_io_bind. cbn [os_ReadDir fst].
  rewrite Hbase. rewrite fst_io_bind. cbn [io_ret fst]. f_equal.
  rewrite (forEach_appends_fst _ (hwmonChip fs basePath));
    [reflexivity|apply discoverSensors_chip_fst].
Qed.

Lemma elem_of_hwmon_descriptors fs basePath entries d :
  d ∈ (entries ≫= hwmonChip fs basePath) <->
  exists e files f idx,
    e ∈ entries /\ IsDir e = true
    /\ ReadDir fs (Join basePath (Name e)) = Ok files
    /\ f ∈ files
    /\ Name f = "temp" +:+ idx +:+ "_input"
    /\ d = hwmonDescriptor fs (Join basePath (Name e))
             (hwmonChipName fs basePath e) (Name f) idx.
Proof.
  rewrite list_elem_of_bind. split.
  - intros (e & (Hdir & files & f & idx & H)%elem_of_hwmonChip & He).
    exists e, files, f, idx. tauto.
  - intros (e & files & f & idx & He & Hdir & H). exists e. split; [|done].
    apply elem_of_hwmonChip. split; [done|]. by exists files, f, idx.
Qed.

(** X3: when the hwmon base path cannot be listed, [discoverSensors]
    returns that error after this one system call.  Otherwise it succeeds,
    and its descriptors are those of the entries in listing order: an
    entry that is not a directory, or a chip directory that cannot be
    listed, contributes nothing and does not stop the others; a chip
    directory contributes one descriptor per file [temp*_input]. *)
Theorem hwmon_discovery_by_chip (fs : FS) (basePath : pathname) :
  match ReadDir fs basePath with
  | Err e => discoverSensors fs basePath = (Err e, [EvReadDir basePath])
  | Ok entries =>
      fst (discoverSensors fs basePath) = Ok (entries ≫= hwmonChip fs basePath)
      /\ forall d,
           d ∈ (entries ≫= hwmonChip fs basePath) <->
           exists e files f idx,
             e ∈ entries /\ IsDir e = true
             /\ ReadDir fs (Join basePath (Name e)) = Ok files
             /\ f ∈ files
             /\ Name f = "temp" +:+ idx +:+ "_input"
             /\ d = hwmonDescriptor fs (Join basePath (Name e))
                      (hwmonChipName fs basePath e) (Name f) idx
  end.
Proof.
  destruct (ReadDir fs basePath) as [entries|e] eqn:Hbase.
  - split; [by apply discoverSensors_listed|]. intros d. apply elem_of_hwmon_descriptors.
  - unfold discoverSensors, os_ReadDir, io_bind. cbn. by rewrite Hbase.
Qed.

(** X4: the chip label of a hwmon descriptor is the trimmed first line of
    the [name] file of its chip directory when that file is read and its
    line is not empty, and the name of the directory otherwise; the
    sensor label is the same.  So, when every entry of the hwmon base path
    has a name, no descriptor has an empty chip or sensor label. *)
Theorem hwmon_chip_never_empty (fs : FS) (basePath : pathname)
    (entries : list DirEntry) (ds : list sensorReading) :
  ReadDir fs basePath = Ok entries ->
  (forall e, e ∈ entries -> Name e <> EmptyString) ->
  fst (discoverSensors fs basePath) = Ok ds ->
  forall d, d ∈ ds ->
    chip d <> EmptyString /\ name d = chip d
    /\ exists e fname,
         e ∈ entries /\ IsDir e = true
         /\ path d = Join (Join basePath (Name e)) fname
         /\ chip d
            = match fst (readFirstLine fs (Join (Join basePath (Name e)) "name")) with
              | Ok (String c n) => String c n
              | Ok EmptyString => Name e
              | Err _ => Name e
              end.
Proof.
  intros Hbase Hnames Hds d Hd.
  rewrite (discoverSensors_listed _ _ _ Hbase) in Hds. injection Hds as <-.
  apply elem_of_hwmon_descriptors in Hd
    as (e & files & f & idx & He & Hdir & _ & _ & _ & ->).
  cbn [hwmonDescriptor chip name path].
  assert (Hchip : hwmonChipName fs basePath e
                  = match fst (readFirstLine fs (Join (Join basePath (Name e)) "name")) with
                    | Ok (String c n) => String c n
                    | Ok EmptyString => Name e
                    | Err _ => Name e
                    end).
  { unfold hwmonChipName, discoverSensors_chipName.
    by destruct (fst (readFirstLine fs (Join (Join basePath (Name e)) "name")))
      as [[|c n]|err]. }
  split; [|split; [reflexivity|]].
  - rewrite Hchip.
    destruct (fst (readFirstLine fs (Join (Join basePath (Name e)) "name")))
      as [[|c n]|err]; [by apply Hnames|done|by apply Hnames].
  - by exists e, (Name f).
Qed.

(** In [fs_labels] the chip is [k10temp], from the [name] file, not
    [hwmon0]; in [fs_garbled], which has no [name] file, it is [hwmon0]. *)
Lemma hwmon_chip_never_empty_witness :
  Forall (fun d => chip d = "k10temp" /\ name d = "k10temp")
    (hwmonChip fs_labels hwmon (dir "hwmon0"))
  /\ Forall (fun d => chip d = "hwmon0") (hwmonChip fs_garbled hwmon (dir "hwmon0")).
Proof.
  split; apply Forall_forall; intros d Hd.
  - destruct (hwmon_chip_never_empty fs_labels hwmon [dir "hwmon0"]
                (hwmonChip fs_labels hwmon (dir "hwmon0"))) with (d := d)
      as (_ & Hname & e & fname & He & _ & _ & Hchip);
      [reflexivity | | vm_compute; reflexivity | exact Hd |].
    { intros e ->%list_elem_of_singleton. discriminate. }
    apply list_elem_of_singleton in He. subst e. rewrite Hname, Hchip.
    vm_compute. split; reflexivity.
  - destruct (hwmon_chip_never_empty fs_garbled hwmon [dir "hwmon0"]
                (hwmonChip fs_garbled hwmon (dir "hwmon0"))) with (d := d)
      as (_ & _ & e & fname & He & _ & _ & Hchip);
      [reflexivity | | vm_compute; reflexivity | exact Hd |].
    { intros e ->%list_elem_of_singleton. discriminate. }
    apply list_elem_of_singleton in He. subst e. rewrite Hchip.
    vm_compute. reflexivity.
Defined.

(** ** Discovery opens no input file *)

Lemma app_inv_tail_string s s' t t' :
  s +:+ t = s' +:+ t' -> String.length t = String.length t' -> t = t'.
Proof.
  revert s'. induction s as [|c s IH]; intros [|c' s'] H Hlen.
  - exact H.
  - exfalso. apply (f_equal String.length) in H.
    change (EmptyString +:+ t) with t in H.
    rewrite string_app_length in H. cbn in H. lia.
  - exfalso. apply (f_equal String.length) in H.
    change (EmptyString +:+ t') with t' in H.
    rewrite string_app_length in H. cbn in H. lia.
  - rewrite !app_String in H. injection H as _ H. by apply (IH s').
Qed.

(** A name whose last byte is not [t] does not end with [_input]. *)
Lemma HasSuffix_input_last a c :
  c <> "t"%char -> strings.HasSuffix (a +:+ String c EmptyString) "_input" = false.
Proof.
  intros Hc. destruct (strings.HasSuffix _ _) eqn:H; [|reflexivity].
  apply HasSuffix_iff in H as [r Hr].
  change "_input" with ("_inpu" +:+ String "t" EmptyString) in Hr.
  rewrite <- app_assoc_string in Hr.
  apply app_inv_tail_string in Hr; [|reflexivity]. by injection Hr.
Qed.

Lemma Base_Join dir n : Base (Join dir n) = n.
Proof. unfold Base, Join. by rewrite last_snoc. Qed.

Lemma HasSuffix_input_label idx :
  strings.HasSuffix ("temp" +:+ idx +:+ "_label") "_input" = false.
Proof.
  change "_label" with ("_labe" +:+ String "l" EmptyString).
  rewrite <- (app_assoc_string idx), <- (app_assoc_string "temp").
  by apply HasSuffix_input_last.
Qed.

Lemma HasSuffix_input_type idx :
  strings.HasSuffix ("temp" +:+ idx +:+ "_type") "_input" = false.
Proof.
  change "_type" with ("_typ" +:+ String "e" EmptyString).
  rewrite <- (app_assoc_string idx), <- (app_assoc_string "temp").
  by apply HasSuffix_input_last.
Qed.

Lemma quietCall_readFirstLine fs dir n :
  strings.HasSuffix n "_input" = false ->
  Forall quietCall (snd (readFirstLine fs (Join dir n))).
Proof.
  intros Hn. rewrite readFirstLine_trace. apply Forall_singleton.
  split; [reflexivity|]. intros p [= <-]. by rewrite Base_Join.
Qed.

Lemma quietCall_discoverSensors fs basePath :
  Forall quietCall (snd (discoverSensors fs basePath)).
Proof.
  unfold discoverSensors. rewrite snd_io_bind. apply Forall_app. split.
  { apply Forall_singleton. split; [reflexivity|discriminate]. }
  destruct (fst (os_ReadDir fs basePath)) as [entries|e]; [|constructor].
  rewrite snd_io_bind. cbn [io_ret snd]. rewrite app_nil_r.
  apply forEach_trace_Forall. intros e sensors. unfold discoverSensors_chip.
  destruct (IsDir e); [|constructor]. cbn [negb].
  rewrite !snd_io_bind. apply Forall_app. split.
  { by apply quietCall_readFirstLine. }
  apply Forall_app. split.
  { apply Forall_singleton. split; [reflexivity|discriminate]. }
  destruct (fst (os_ReadDir fs _)) as [files|e']; [|constructor].
  apply forEach_trace_Forall. intros f sensors'. unfold discoverSensors_file.
  destruct (negb _ || negb _); [constructor|].
  rewrite snd_io_bind. cbn [io_ret snd]. rewrite app_nil_r.
  unfold discoverSensors_label. rewrite snd_io_bind. apply Forall_app. split.
  { apply quietCall_readFirstLine, HasSuffix_input_label. }
  destruct (fst (readFirstLine fs _)); [constructor|].
  rewrite snd_io_bind. apply Forall_app. split.
  { apply quietCall_readFirstLine, HasSuffix_input_type. }
  destruct (fst (readFirstLine fs _)); constructor.
Qed.

(** X5: hwmon discovery only locates the sensors: its events are system
    calls on the file system ([ReadDir] and [Open]; it logs nothing and
    runs no command), it opens no file whose name ends with [_input], and
    so it opens the input file of none of the descriptors it returns. *)
Theorem hwmon_discovery_opens_no_input (fs : FS) (basePath : pathname) :
  (forall ev, ev ∈ snd (discoverSensors fs basePath) ->
     isFsCall ev = true
     /\ forall p, ev = EvOpen p -> strings.HasSuffix (Base p) "_input" = false)
  /\ (forall ds d,
        fst (discoverSensors fs basePath) = Ok ds -> d ∈ ds ->
        strings.HasSuffix (Base (path d)) "_input" = true
        /\ EvOpen (path d) ∉ snd (discoverSensors fs basePath)).
Proof.
  pose proof (quietCall_discoverSensors fs basePath) as Hq.
  rewrite Forall_forall in Hq. split; [exact Hq|].
  intros ds d Hds Hd.
  assert (Hin : strings.HasSuffix (Base (path d)) "_input" = true).
  { destruct (ReadDir fs basePath) as [entries|e] eqn:Hbase.
    - rewrite (discoverSensors_listed _ _ _ Hbase) in Hds. injection Hds as <-.
      apply elem_of_hwmon_descriptors in Hd
        as (e & files & f & idx & _ & _ & _ & _ & Hname & ->).
      cbn [hwmonDescriptor path]. rewrite Base_Join, Hname.
      apply HasSuffix_iff. exists ("temp" +:+ idx). symmetry. apply app_assoc_string.
    - unfold discoverSensors, os_ReadDir, io_bind in Hds. cbn in Hds.
      rewrite Hbase in Hds. discriminate Hds. }
  split; [exact Hin|]. intros Hopen.
  destruct (Hq _ Hopen) as [_ Hno]. rewrite (Hno _ eq_refl) in Hin. discriminate Hin.
Qed.

(** ** The thermal-zone discoverer *)

Lemma discoverThermalSensors_zone_eq fs thermalBase e sensors :
  discoverThermalSensors_zone fs thermalBase e sensors
  = (sensors ++ thermalZone fs thermalBase e, thermalZoneCalls thermalBase e).
Proof.
  unfold discoverThermalSensors_zone, thermalZone, thermalZoneCalls, isZone.
  destruct (IsDir e); cbn [negb orb andb]; [|by rewrite app_nil_r].
  destruct (strings.HasPrefix (Name e) "thermal_zone"); cbn [negb];
    [|by rewrite app_nil_r].
  unfold io_bind. rewrite !readFirstLine_trace. cbn [os_Stat fst snd].
  destruct (Stat fs (Join (Join thermalBase (Name e)) "temp")); cbn [io_ret fst snd app].
  - by rewrite app_nil_r.
  - reflexivity.
Qed.

Lemma discoverThermalSensors_listed fs thermalBase entries :
  ReadDir fs thermalBase = Ok entries ->
  discoverThermalSensors fs thermalBase
  = (Ok (entries ≫= thermalZone fs thermalBase),
     EvReadDir thermalBase :: (entries ≫= thermalZoneCalls thermalBase)).
Proof.
  intros Hbase. unfold discoverThermalSensors, os_ReadDir, io_bind. cbn [fst snd].
  rewrite Hbase.
  rewrite (forEach_appends _ (thermalZone fs thermalBase)
             (thermalZoneCalls thermalBase))
    by apply discoverThermalSensors_zone_eq.
  cbn [io_ret fst snd app]. by rewrite app_nil_r.
Qed.

Lemma discoverThermalSensors_unlistable fs thermalBase e :
  ReadDir fs thermalBase = Err e ->
  discoverThermalSensors fs thermalBase = (Err e, [EvReadDir thermalBase]).
Proof.
  intros Hbase. unfold discoverThermalSensors, os_ReadDir, io_bind. cbn.
  by rewrite Hbase.
Qed.

(** X6: when the thermal base path cannot be listed,
    [discoverThermalSensors] returns that error after this one system
    call.  Otherwise it succeeds with one descriptor per entry that is a
    directory named [thermal_zone...] and whose [temp] file [Stat] finds,
    in listing order: chip [thermal], the zone's directory name as label,
    the line of its [type] file as sensor name (empty when that cannot be
    read), scale 0.001.  For each zone it opens [type] and stats [temp],
    and it never opens [temp]. *)
Theorem thermal_discovery_by_zone (fs : FS) (thermalBase : pathname) :
  match ReadDir fs thermalBase with
  | Err e => discoverThermalSensors fs thermalBase = (Err e, [EvReadDir thermalBase])
  | Ok entries =>
      discoverThermalSensors fs thermalBase
      = (Ok (entries ≫= thermalZone fs thermalBase),
         EvReadDir thermalBase :: (entries ≫= thermalZoneCalls thermalBase))
      /\ (forall d,
            d ∈ (entries ≫= thermalZone fs thermalBase) <->
            exists e,
              e ∈ entries /\ IsDir e = true
              /\ strings.HasPrefix (Name e) "thermal_zone" = true
              /\ Stat fs (Join (Join thermalBase (Name e)) "temp") = None
              /\ d = thermalDescriptor fs thermalBase e)
      /\ (forall e,
            EvOpen (Join (Join thermalBase (Name e)) "temp")
              ∉ (entries ≫= thermalZoneCalls thermalBase))
  end.
Proof.
  destruct (ReadDir fs thermalBase) as [entries|e] eqn:Hbase.
  - split; [|split].
    + by apply discoverThermalSensors_listed.
    + intros d. rewrite list_elem_of_bind. unfold thermalZone, isZone. split.
      * intros (e & Hd & He). exists e.
        destruct (IsDir e); [|by apply elem_of_nil in Hd].
        destruct (strings.HasPrefix (Name e) "thermal_zone"); [|by apply elem_of_nil in Hd].
        cbn [andb] in Hd.
        destruct (Stat fs (Join (Join thermalBase (Name e)) "temp"));
          [by apply elem_of_nil in Hd|].
        apply list_elem_of_singleton in Hd. done.
      * intros (e & He & Hdir & Hpre & Hstat & ->). exists e.
        rewrite Hdir, Hpre, Hstat. split; [apply list_elem_of_here|done].
    + intros e (e' & Hcall & _)%list_elem_of_bind. unfold thermalZoneCalls in Hcall.
      destruct (isZone e'); [|by apply elem_of_nil in Hcall].
      apply elem_of_cons in Hcall as [Hcall|Hcall].
      * injection Hcall as Hcall. unfold Join in Hcall.
        apply app_inj_tail in Hcall as [_ Hcall]. discriminate Hcall.
      * apply list_elem_of_singleton in Hcall. discriminate Hcall.
  - by apply discoverThermalSensors_unlistable.
Qed.

Lemma thermalZone_label fs thermalBase entries d :
  d ∈ (entries ≫= thermalZone fs thermalBase) -> label d ∈ Name <$> entries.
Proof.
  intros (e & Hd & He)%list_elem_of_bind. unfold thermalZone in Hd.
  destruct (isZone e); [|by apply elem_of_nil in Hd].
  destruct (Stat fs _); [by apply elem_of_nil in Hd|].
  apply list_elem_of_singleton in Hd. subst d. cbn. by apply list_elem_of_fmap_2.
Qed.

(** X7: the keys of the thermal descriptors are pairwise distinct when the
    entries of the thermal base path have distinct names, as the entries
    of a directory have: the label is the zone's directory name, whatever
    the [type] files hold. *)
Theorem thermal_keys_distinct (fs : FS) (thermalBase : pathname)
    (entries : list DirEntry) (ds : list sensorReading) :
  ReadDir fs thermalBase = Ok entries ->
  NoDup (Name <$> entries) ->
  fst (discoverThermalSensors fs thermalBase) = Ok ds ->
  NoDup (sensorKey <$> ds)
  /\ length ds <= length entries.
Proof.
  intros Hbase Hnames Hds.
  rewrite (discoverThermalSensors_listed _ _ _ Hbase) in Hds. injection Hds as <-.
  clear Hbase. induction entries as [|e entries IH]; [split; [constructor|done]|].
  apply NoDup_cons in Hnames as [Hfresh Hnames]. destruct (IH Hnames) as [IH1 IH2].
  change ((e :: entries) ≫= thermalZone fs thermalBase)
    with (thermalZone fs thermalBase e ++ (entries ≫= thermalZone fs thermalBase)).
  unfold thermalZone at 1 3. destruct (isZone e); [|split; [exact IH1|cbn; lia]].
  destruct (Stat fs _); [split; [exact IH1|cbn; lia]|].
  split; [|cbn; lia]. cbn [app fmap list_fmap]. apply NoDup_cons. split; [|exact IH1].
  intros (d & Hkey & Hd)%list_elem_of_fmap. apply Hfresh.
  apply thermalZone_label in Hd. injection Hkey as _ _ Hlabel. cbn in Hlabel.
  by rewrite Hlabel.
Qed.

(** The two zones of [fs_two_zones] have the same [type], so the same
    chip and sensor labels, and both have a [temp] file: their keys differ
    by the label. *)
Lemma thermal_keys_distinct_witness :
  fst (discoverThermalSensors fs_two_zones thermal)
  = Ok [thermalDescriptor fs_two_zones thermal (dir "thermal_zone0");
        thermalDescriptor fs_two_zones thermal (dir "thermal_zone1")]
  /\ name (thermalDescriptor fs_two_zones thermal (dir "thermal_zone0"))
     = name (thermalDescriptor fs_two_zones thermal (dir "thermal_zone1"))
  /\ NoDup [("thermal", "acpitz", "thermal_zone0"); ("thermal", "acpitz", "thermal_zone1")]
  /\ 2 <= 2.
Proof.
  assert (Hds : fst (discoverThermalSensors fs_two_zones thermal)
                = Ok [thermalDescriptor fs_two_zones thermal (dir "thermal_zone0");
                      thermalDescriptor fs_two_zones thermal (dir "thermal_zone1")])
    by (vm_compute; reflexivity).
  split; [exact Hds|]. split; [vm_compute; reflexivity|].
  apply (thermal_keys_distinct fs_two_zones thermal
           [dir "thermal_zone0"; dir "thermal_zone1"]
           [thermalDescriptor fs_two_zones thermal (dir "thermal_zone0");
            thermalDescriptor fs_two_zones thermal (dir "thermal_zone1")]);
    [reflexivity | | exact Hds].
  apply (bool_decide_unpack _). vm_compute. reflexivity.
Defined.

(** ** The [sensors -j] discoverer, field by field *)

Lemma discoverSensorsCLI_field_eq chip section sm res kv :
  discoverSensorsCLI_field chip section sm res kv
  = res ++ match cliField chip section sm kv with Some r => [r] | None => [] end.
Proof.
  unfold discoverSensorsCLI_field, cliField, cliLabel.
  destruct (re_FindStringSubmatch (fst kv)); [|by rewrite app_nil_r].
  destruct (snd kv); try by rewrite app_nil_r. reflexivity.
Qed.

Lemma discoverSensorsCLI_fields chip section sm l res :
  foldl (discoverSensorsCLI_field chip section sm) res l
  = res ++ omap (cliField chip section sm) l.
Proof.
  revert res. induction l as [|kv l IH]; intros res.
  - cbn. by rewrite app_nil_r.
  - cbn [foldl omap list_omap]. rewrite IH, discoverSensorsCLI_field_eq.
    destruct (cliField chip section sm kv); by rewrite <- app_assoc.
Qed.

Lemma discoverSensorsCLI_section_eq chip res sv :
  discoverSensorsCLI_section chip res sv = res ++ cliSection chip sv.
Proof.
  unfold discoverSensorsCLI_section, cliSection.
  destruct (snd sv); try by rewrite app_nil_r. apply discoverSensorsCLI_fields.
Qed.

Lemma discoverSensorsCLI_chip_eq res cv :
  discoverSensorsCLI_chip res cv = res ++ cliChip cv.
Proof.
  unfold discoverSensorsCLI_chip, cliChip.
  destruct (snd cv); try by rewrite app_nil_r.
  apply foldl_appends. intros acc x. apply discoverSensorsCLI_section_eq.
Qed.

(** X8: [discoverSensorsCLI] runs the command once and touches nothing
    else.  When the command or the decoding fails it returns that error
    and no reading.  Otherwise its readings are, in iteration order, one
    per field [temp<N>_input] (a non-empty digit sequence [<N>]) whose
    value is a number, in a section that is an object, of a chip that is
    an object: chip and section give the chip and sensor labels, the value
    is the number as decoded, and the label is the sibling field
    [temp<N>_label] when it is a string, else empty.  Chips and sections
    that are not objects, other fields and fields that are not numbers
    give no reading and no error. *)
Theorem cli_readings_by_field (w : World) (bin : string) (timeout : Z) :
  discoverSensorsCLI w bin timeout
  = (match w_sensors_j w bin timeout with
     | Ok root => Ok (root ≫= cliChip)
     | Err e => Err e
     end, [EvExec bin])
  /\ forall root r,
       r ∈ (root ≫= cliChip) <->
       exists chip m section sm k f idx,
         (chip, JObject m) ∈ root
         /\ (section, JObject sm) ∈ m
         /\ (k, JNumber f) ∈ sm
         /\ re_FindStringSubmatch k = Some idx
         /\ r = {| cli_chip := chip; cli_name := section;
                   cli_label := cliLabel sm idx; cli_value := f |}.
Proof.
  split.
  - unfold discoverSensorsCLI, io_bind. cbn [fst snd].
    destruct (w_sensors_j w bin timeout) as [root|e]; cbn [io_ret fst snd]; [|reflexivity].
    f_equal. f_equal. rewrite (foldl_appends _ cliChip); [reflexivity|].
    apply discoverSensorsCLI_chip_eq.
  - intros root r. rewrite list_elem_of_bind. split.
    + intros ([chip v] & Hr & Hchip). unfold cliChip in Hr. cbn [fst snd] in Hr.
      destruct v as [| | | |?|m]; try by apply elem_of_nil in Hr.
      apply list_elem_of_bind in Hr as ([section sv] & Hr & Hsec).
      unfold cliSection in Hr. cbn [fst snd] in Hr.
      destruct sv as [| | | |?|sm]; try by apply elem_of_nil in Hr.
      apply list_elem_of_omap in Hr as ([k val] & Hk & Hr).
      unfold cliField in Hr. cbn [fst snd] in Hr.
      destruct (re_FindStringSubmatch k) as [idx|] eqn:Hidx; [|discriminate].
      destruct val as [| |f| | |]; try discriminate. injection Hr as <-.
      by exists chip, m, section, sm, k, f, idx.
    + intros (chip & m & section & sm & k & f & idx & Hchip & Hsec & Hk & Hidx & ->).
      exists (chip, JObject m). split; [|done]. unfold cliChip. cbn [fst snd].
      apply list_elem_of_bind. exists (section, JObject sm). split; [|done].
      unfold cliSection. cbn [fst snd]. apply list_elem_of_omap.
      exists (k, JNumber f). split; [done|]. unfold cliField. cbn [fst snd].
      by rewrite Hidx.
Qed.

(** ** One scrape, call by call *)

Lemma readFirstLine_trimmed fs p line :
  fst (readFirstLine fs p) = Ok line -> strings.TrimSpace line = line.
Proof.
  intros Hline. pose proof (readFirstLine_cases fs p) as H.
  destruct (Open fs p) as [r|e]; [|rewrite H in Hline; discriminate].
  destruct (decide (r_data r = EmptyString)); [rewrite H in Hline; discriminate|].
  destruct (decide (bufio.MaxScanTokenSize <= strings.len (bufio.firstLine (r_data r)))%N)
    as [|Hlt]; [rewrite H in Hline; discriminate|].
  rewrite H in Hline. injection Hline as <-. apply TrimSpace_idem.
Qed.

Lemma filter_none (f : event -> bool) (t : list event) :
  Forall (fun ev => f ev = false) t -> filter f t = [].
Proof.
  induction 1 as [|ev t Hev _ IH]; [reflexivity|].
  rewrite filter_cons. destruct (decide (f ev)) as [Ht|_]; [|exact IH].
  rewrite Hev in Ht. destruct Ht.
Qed.

Lemma fsCalls_discoverSensors fs basePath :
  Forall (fun ev => isFsCall ev = true) (snd (discoverSensors fs basePath)).
Proof.
  eapply Forall_impl; [apply quietCall_discoverSensors|]. by intros ev [H _].
Qed.

Lemma fsCalls_discoverThermalSensors fs thermalBase :
  Forall (fun ev => isFsCall ev = true) (snd (discoverThermalSensors fs thermalBase)).
Proof.
  destruct (ReadDir fs thermalBase) as [entries|e] eqn:Hbase.
  - rewrite (discoverThermalSensors_listed _ _ _ Hbase). cbn [snd].
    constructor; [reflexivity|]. apply Forall_forall.
    intros ev (e & Hev & _)%list_elem_of_bind. unfold thermalZoneCalls in Hev.
    destruct (isZone e); [|by apply elem_of_nil in Hev].
    apply elem_of_cons in Hev as [->|Hev]; [reflexivity|].
    apply list_elem_of_singleton in Hev. by subst ev.
  - rewrite (discoverThermalSensors_unlistable _ _ _ Hbase). cbn [snd].
    by constructor.
Qed.

Lemma Collect_discover_snd w c :
  snd (Collect_discover w c)
  = (if enableHwmon c then
       snd (discoverSensors (w_fs w) (basePath c))
       ++ match fst (discoverSensors (w_fs w) (basePath c)) with
          | Ok _ => []
          | Err err => [EvLog (LogDiscoverSensors err)]
          end
     else [])
    ++ (if enableThermal c then
          snd (discoverThermalSensors (w_fs w) (thermalPath c))
          ++ match fst (discoverThermalSensors (w_fs w) (thermalPath c)) with
             | Ok _ => []
             | Err err => [EvLog (LogDiscoverThermalSensors err)]
             end
        else []).
Proof.
  unfold Collect_discover. rewrite snd_io_bind.
  destruct (enableHwmon c), (enableThermal c); rewrite ?snd_io_bind, ?fst_io_bind;
    try destruct (fst (discoverSensors (w_fs w) (basePath c)));
    try destruct (fst (discoverThermalSensors (w_fs w) (thermalPath c)));
    rewrite ?snd_io_bind; cbn [io_ret emit fst snd app]; rewrite ?app_nil_r;
    reflexivity.
Qed.

Lemma discoverSensors_fst_Err fs basePath :
  match fst (discoverSensors fs basePath) with Ok _ => false | Err _ => true end
  = match ReadDir fs basePath with Ok _ => false | Err _ => true end.
Proof.
  destruct (ReadDir fs basePath) as [entries|e] eqn:Hbase.
  - by rewrite (discoverSensors_listed _ _ _ Hbase).
  - by rewrite (discoverSensors_unlistable _ _ _ Hbase).
Qed.

Lemma discoverThermalSensors_fst_Err fs thermalBase :
  match fst (discoverThermalSensors fs thermalBase) with Ok _ => false | Err _ => true end
  = match ReadDir fs thermalBase with Ok _ => false | Err _ => true end.
Proof.
  destruct (ReadDir fs thermalBase) as [entries|e] eqn:Hbase.
  - by rewrite (discoverThermalSensors_listed _ _ _ Hbase).
  - by rewrite (discoverThermalSensors_unlistable _ _ _ Hbase).
Qed.

Lemma forEachTry_trace_map {A S} (body : A -> S -> IO (option S)) (f : A -> event)
    (l : list A) :
  (forall x s, snd (body x s) = [f x]) ->
  forall s s', fst (forEachTry l body s) = Some s' ->
    snd (forEachTry l body s) = f <$> l.
Proof.
  intros Hbody. induction l as [|x l IH]; intros s s'; [reflexivity|].
  cbn [forEachTry]. rewrite fst_io_try, snd_io_try, Hbody.
  destruct (fst (body x s)) as [a|]; [|discriminate].
  cbn [mbind option_bind]. intros Hs'. by rewrite (IH _ _ Hs').
Qed.

Lemma forEachTry_silent {A S} (body : A -> S -> IO (option S)) (l : list A) :
  (forall x s, snd (body x s) = []) ->
  forall s, snd (forEachTry l body s) = [].
Proof.
  intros Hbody. induction l as [|x l IH]; intros s; [reflexivity|].
  cbn [forEachTry]. rewrite snd_io_try, Hbody.
  destruct (fst (body x s)); [apply IH|reflexivity].
Qed.

(** The events of the [sensors -j] step, also when setting one of its
    readings panics. *)
Lemma Collect_cli_snd w c g warned :
  snd (Collect_cli w c g warned) = cliCalls w c warned.
Proof.
  unfold Collect_cli, cliCalls, discoverSensorsCLI.
  destruct (enableSensorsCli c); [|reflexivity].
  rewrite !snd_io_bind, !fst_io_bind. cbn [fst snd].
  destruct (w_sensors_j w (sensorsCliPath c) (sensorsTimeout c)); cbn [io_ret fst snd].
  - rewrite snd_io_try, forEachTry_silent by reflexivity.
    by destruct (fst (forEachTry _ _ _)).
  - by destruct warned.
Qed.

Section Scrape.

Variable ParseFloat : string -> result float64.

Lemma Collect_read_snd w s g :
  snd (Collect_read ParseFloat w s g) = [EvOpen (path s)].
Proof.
  unfold Collect_read. rewrite snd_io_bind, readFirstLine_trace.
  destruct (fst (readFirstLine _ _)) as [raw|e]; [|reflexivity].
  by destruct (ParseFloat (strings.TrimSpace raw)).
Qed.

Lemma Collect_snd w p r :
  fst (Collect ParseFloat w p) = Some r ->
  snd (Collect ParseFloat w p)
  = snd (Collect_discover w (coll p))
    ++ ((fun s => EvOpen (path s)) <$> fst (Collect_discover w (coll p)))
    ++ cliCalls w (coll p) (sensorsCliWarned p).
Proof.
  intros [Hvalid _]%Collect_returns. unfold observed in Hvalid.
  rewrite validKeys_app in Hvalid. apply andb_true_iff in Hvalid as [Hsys Hcli].
  unfold Collect. rewrite snd_io_bind, snd_io_try.
  pose proof (Collect_reads ParseFloat w (fst (Collect_discover w (coll p))) ∅) as Hreads.
  fold (sysfsObserved ParseFloat w (coll p)) in Hreads. rewrite Hsys in Hreads.
  rewrite (forEachTry_trace_map _ (fun s => EvOpen (path s)) _ (Collect_read_snd w) _ _ Hreads).
  rewrite Hreads, snd_io_try, Collect_cli_snd, Collect_cli_fst, Hcli.
  cbn [io_ret snd]. by rewrite app_nil_r.
Qed.

(** X9: the order of a scrape that returns.  First the discovery of the
    enabled sysfs backends; then one [Open] per descriptor, of its input
    path, in the order of discovery, whether or not reading succeeds;
    then, when [sensors -j] is enabled, the command, followed by the
    warning when it fails and none was written before.  Discovery runs no
    command, so the scrape runs the command once when the backend is
    enabled, whatever the sysfs backends gave, and never otherwise. *)
Theorem scrape_io_order (w : World) (p : process) (r : process * list Metric) :
  fst (Collect ParseFloat w p) = Some r ->
  snd (Collect ParseFloat w p)
  = snd (Collect_discover w (coll p))
    ++ ((fun s => EvOpen (path s)) <$> fst (Collect_discover w (coll p)))
    ++ cliCalls w (coll p) (sensorsCliWarned p)
  /\ Forall (fun ev => isExec ev = false) (snd (Collect_discover w (coll p)))
  /\ length (filter isExec (snd (Collect ParseFloat w p)))
     = (if enableSensorsCli (coll p) then 1 else 0)%nat.
Proof.
  intros Hr.
  assert (Hfs : forall t, Forall (fun ev => isFsCall ev = true) t ->
                          Forall (fun ev => isExec ev = false) t).
  { intros t Ht. eapply Forall_impl; [exact Ht|]. intros ev Hev. by destruct ev. }
  assert (Hdisc : Forall (fun ev => isExec ev = false) (snd (Collect_discover w (coll p)))).
  { rewrite Collect_discover_snd. apply Forall_app. split.
    - destruct (enableHwmon (coll p)); [|constructor]. apply Forall_app. split.
      + apply Hfs, fsCalls_discoverSensors.
      + destruct (fst (discoverSensors _ _)); by repeat constructor.
    - destruct (enableThermal (coll p)); [|constructor]. apply Forall_app. split.
      + apply Hfs, fsCalls_discoverThermalSensors.
      + destruct (fst (discoverThermalSensors _ _)); by repeat constructor. }
  split; [exact (Collect_snd _ _ _ Hr)|]. split; [exact Hdisc|].
  rewrite (Collect_snd _ _ _ Hr), !filter_app, !length_app.
  rewrite (filter_none _ _ Hdisc).
  rewrite (filter_none isExec (_ <$> _)).
  2:{ apply Forall_forall. by intros ev (s & -> & _)%list_elem_of_fmap. }
  unfold cliCalls. destruct (enableSensorsCli (coll p)); [|reflexivity].
  destruct (w_sensors_j w _ _); [reflexivity|]. by destruct (sensorsCliWarned p).
Qed.

End Scrape.

(** A chip with two inputs and a [sensors] command that is not installed:
    the two inputs are opened after discovery, then the command is run
    once and the warning written. *)
Lemma scrape_io_order_witness :
  let w := world fs_two_inputs (Err ENOENT) in
  snd (Collect ParseFloat_decimal w (start all_backends))
  = snd (Collect_discover w all_backends)
    ++ [EvOpen (hwmon ++ ["hwmon0"; "temp1_input"]);
        EvOpen (hwmon ++ ["hwmon0"; "temp2_input"]);
        EvExec "sensors"; EvLog (LogDiscoverSensorsCLI ENOENT)]
  /\ length (filter isExec (snd (Collect ParseFloat_decimal w (start all_backends))))
     = 1%nat.
Proof.
  intros w.
  destruct (fst (Collect ParseFloat_decimal w (start all_backends))) as [r|] eqn:Hr;
    [|vm_compute in Hr; discriminate Hr].
  destruct (scrape_io_order ParseFloat_decimal w (start all_backends) r Hr)
    as (Htrace & _ & Hexec).
  split; [|exact Hexec]. rewrite Htrace. f_equal.
Defined.

(** ** Scrapes one after the other *)

Lemma length_filter_cons {A} (f : A -> bool) (x : A) (l : list A) :
  length (filter f (x :: l)) = ((if f x then 1 else 0) + length (filter f l))%nat.
Proof. rewrite filter_cons. by destruct (f x). Qed.

Lemma filter_fsCalls (f : event -> bool) (t : list event) :
  (forall ev, isFsCall ev = true -> f ev = false) ->
  Forall (fun ev => isFsCall ev = true) t -> filter f t = [].
Proof.
  intros Hf Ht. apply filter_none. eapply Forall_impl; [exact Ht|]. exact Hf.
Qed.

Lemma filter_opens (f : event -> bool) (ds : list sensorReading) :
  (forall ev, isFsCall ev = true -> f ev = false) ->
  filter f ((fun s => EvOpen (path s)) <$> ds) = [].
Proof.
  intros Hf. apply filter_none, Forall_forall.
  intros ev (s & -> & _)%list_elem_of_fmap. by apply Hf.
Qed.

Lemma filter_cliCalls (f : event -> bool) w c warned :
  (forall ev, isFsCall ev = true -> f ev = false) ->
  (forall bin, f (EvExec bin) = false) ->
  (forall err, f (EvLog (LogDiscoverSensorsCLI err)) = false) ->
  filter f (cliCalls w c warned) = [].
Proof.
  intros _ Hexec Hlog. apply filter_none. unfold cliCalls.
  destruct (enableSensorsCli c); [|constructor]. constructor; [apply Hexec|].
  destruct (w_sensors_j w _ _); [constructor|].
  destruct warned; repeat constructor. apply Hlog.
Qed.

Lemma forEachTry_trace_Forall {A S} (P : event -> Prop)
    (body : A -> S -> IO (option S)) (l : list A) :
  (forall x s, Forall P (snd (body x s))) ->
  forall s, Forall P (snd (forEachTry l body s)).
Proof.
  intros Hbody. induction l as [|x l IH]; intros s; [constructor|].
  cbn [forEachTry]. rewrite snd_io_try. apply Forall_app. split; [apply Hbody|].
  destruct (fst (body x s)); [apply IH|constructor].
Qed.

Section Lifetime.

Variable ParseFloat : string -> result float64.

Lemma Collect_coll w p r :
  fst (Collect ParseFloat w p) = Some r ->
  coll (fst r)
  = withMetrics (coll p) (upserts ∅ (observed ParseFloat w (coll p)))
      (Seconds (w_end w - w_start w)).
Proof. by intros [_ ->]%Collect_returns. Qed.

(** Scrapes change the contents of the metrics only, not the settings. *)
Lemma serve_coll ws p p' :
  fst (serve ParseFloat ws p) = Some p' ->
  exists g t, coll p' = withMetrics (coll p) g t.
Proof.
  revert p. induction ws as [|w ws IH]; intros p.
  - cbn. intros [= <-]. exists (sensors (coll p)), (scrapeTime (coll p)).
    by destruct (coll p).
  - rewrite serve_cons. destruct (fst (Collect ParseFloat w p)) as [r|] eqn:Hr;
      [|discriminate].
    cbn [fst]. intros (g & t & ->)%IH. exists g, t.
    by rewrite (Collect_coll _ _ _ Hr).
Qed.

(** The outcome of a scrape, but for the flag: the metrics sent and the
    collector afterwards, or the panic. *)
Lemma Collect_outcome w p :
  (fun r => (coll (fst r), snd r)) <$> fst (Collect ParseFloat w p)
  = if validKeys (observed ParseFloat w (coll p)) then
      Some (withMetrics (coll p) (upserts ∅ (observed ParseFloat w (coll p)))
              (Seconds (w_end w - w_start w)),
            GaugeVec_Collect (upserts ∅ (observed ParseFloat w (coll p)))
            ++ [scrape_duration_seconds (Seconds (w_end w - w_start w))])
    else None.
Proof. rewrite Collect_fst. by destruct (validKeys _). Qed.

Lemma Collect_forgets w p g t warned :
  (fun r => (coll (fst r), snd r))
    <$> fst (Collect ParseFloat w
               {| coll := withMetrics (coll p) g t; sensorsCliWarned := warned |})
  = (fun r => (coll (fst r), snd r)) <$> fst (Collect ParseFloat w p).
Proof. by rewrite !Collect_outcome. Qed.

(** X10: a scrape does not depend on the scrapes before it.  Whether a
    scrape in a world returns, the metrics it sends and the collector it
    leaves are the same after any sequence of earlier scrapes as at the
    start, and the same whatever the gauge vector, the scrape duration and
    the flag [sensorsCliWarned] held before: the vector is reset and
    refilled from what this scrape discovers. *)
Theorem scrape_forgets_earlier_scrapes (ws : list World) (w : World) (p p' : process) :
  fst (serve ParseFloat ws p) = Some p' ->
  (fun r => (coll (fst r), snd r)) <$> fst (Collect ParseFloat w p')
  = (fun r => (coll (fst r), snd r)) <$> fst (Collect ParseFloat w p)
  /\ (forall g t warned,
        (fun r => (coll (fst r), snd r))
          <$> fst (Collect ParseFloat w
                     {| coll := withMetrics (coll p) g t; sensorsCliWarned := warned |})
        = (fun r => (coll (fst r), snd r)) <$> fst (Collect ParseFloat w p)).
Proof.
  intros Hp'. split; [|intros g t warned; apply Collect_forgets].
  destruct (serve_coll _ _ _ Hp') as (g & t & Hcoll).
  rewrite <- (Collect_forgets w p g t (sensorsCliWarned p')), <- Hcoll.
  by destruct p'.
Qed.

(** The events of a scrape, also of one that panics: the calls of the
    [sensors -j] step are there when the loop over the descriptors
    returns. *)
Lemma Collect_snd_any w p :
  snd (Collect ParseFloat w p)
  = snd (Collect_discover w (coll p))
    ++ snd (forEachTry (fst (Collect_discover w (coll p))) (Collect_read ParseFloat w) ∅)
    ++ match fst (forEachTry (fst (Collect_discover w (coll p)))
                    (Collect_read ParseFloat w) ∅) with
       | Some _ => cliCalls w (coll p) (sensorsCliWarned p)
       | None => []
       end.
Proof.
  unfold Collect. rewrite snd_io_bind, snd_io_try.
  destruct (fst (forEachTry _ _ _)) as [g|]; [|reflexivity].
  rewrite snd_io_try, Collect_cli_snd.
  destruct (fst (Collect_cli _ _ _ _)); cbn [io_ret snd]; by rewrite ?app_nil_r.
Qed.

Lemma filter_reads (f : event -> bool) w ds g :
  (forall ev, isFsCall ev = true -> f ev = false) ->
  filter f (snd (forEachTry ds (Collect_read ParseFloat w) g)) = [].
Proof.
  intros Hf. apply filter_none. revert g. apply forEachTry_trace_Forall.
  intros s g. rewrite Collect_read_snd. apply Forall_singleton. by apply Hf.
Qed.

Lemma Collect_hwmonWarnings w p :
  length (filter isHwmonWarning (snd (Collect ParseFloat w p)))
  = (if hwmonFails w (coll p) then 1 else 0)%nat.
Proof.
  assert (Hf : forall ev, isFsCall ev = true -> isHwmonWarning ev = false)
    by (intros ev Hev; by destruct ev).
  rewrite Collect_snd_any, Collect_discover_snd, !filter_app, !length_app.
  rewrite (filter_reads _ _ _ _ Hf).
  assert (Hcli : filter isHwmonWarning
            match fst (forEachTry (fst (Collect_discover w (coll p)))
                         (Collect_read ParseFloat w) ∅) with
            | Some _ => cliCalls w (coll p) (sensorsCliWarned p)
            | None => []
            end = []).
  { destruct (fst (forEachTry _ _ _)); [|reflexivity]. by apply filter_cliCalls. }
  rewrite Hcli.
  unfold hwmonFails. rewrite <- discoverSensors_fst_Err.
  assert (Hth : filter isHwmonWarning
            (if enableThermal (coll p) then
               snd (discoverThermalSensors (w_fs w) (thermalPath (coll p)))
               ++ match fst (discoverThermalSensors (w_fs w) (thermalPath (coll p))) with
                  | Ok _ => []
                  | Err err => [EvLog (LogDiscoverThermalSensors err)]
                  end
             else []) = []).
  { destruct (enableThermal (coll p)); [|reflexivity].
    rewrite filter_app, (filter_fsCalls _ _ Hf) by apply fsCalls_discoverThermalSensors.
    by destruct (fst (discoverThermalSensors _ _)). }
  rewrite Hth. destruct (enableHwmon (coll p)); [|reflexivity].
  rewrite filter_app, length_app, (filter_fsCalls _ _ Hf) by apply fsCalls_discoverSensors.
  by destruct (fst (discoverSensors _ _)).
Qed.

Lemma Collect_thermalWarnings w p :
  length (filter isThermalWarning (snd (Collect ParseFloat w p)))
  = (if thermalFails w (coll p) then 1 else 0)%nat.
Proof.
  assert (Hf : forall ev, isFsCall ev = true -> isThermalWarning ev = false)
    by (intros ev Hev; by destruct ev).
  rewrite Collect_snd_any, Collect_discover_snd, !filter_app, !length_app.
  rewrite (filter_reads _ _ _ _ Hf).
  assert (Hcli : filter isThermalWarning
            match fst (forEachTry (fst (Collect_discover w (coll p)))
                         (Collect_read ParseFloat w) ∅) with
            | Some _ => cliCalls w (coll p) (sensorsCliWarned p)
            | None => []
            end = []).
  { destruct (fst (forEachTry _ _ _)); [|reflexivity]. by apply filter_cliCalls. }
  rewrite Hcli.
  unfold thermalFails. rewrite <- discoverThermalSensors_fst_Err.
  assert (Hhw : filter isThermalWarning
            (if enableHwmon (coll p) then
               snd (discoverSensors (w_fs w) (basePath (coll p)))
               ++ match fst (discoverSensors (w_fs w) (basePath (coll p))) with
                  | Ok _ => []
                  | Err err => [EvLog (LogDiscoverSensors err)]
                  end
             else []) = []).
  { destruct (enableHwmon (coll p)); [|reflexivity].
    rewrite filter_app, (filter_fsCalls _ _ Hf) by apply fsCalls_discoverSensors.
    by destruct (fst (discoverSensors _ _)). }
  rewrite Hhw. destruct (enableThermal (coll p)); [|reflexivity].
  rewrite filter_app, length_app, (filter_fsCalls _ _ Hf)
    by apply fsCalls_discoverThermalSensors.
  by destruct (fst (discoverThermalSensors _ _)).
Qed.

Lemma serve_sysfsWarnings (isWarning : event -> bool) (fails : World -> collector -> bool) :
  (forall w p, length (filter isWarning (snd (Collect ParseFloat w p)))
               = (if fails w (coll p) then 1 else 0)%nat) ->
  (forall w c g t, fails w (withMetrics c g t) = fails w c) ->
  forall ws p p',
    fst (serve ParseFloat ws p) = Some p' ->
    length (filter isWarning (snd (serve ParseFloat ws p)))
    = length (filter (fun w => fails w (coll p)) ws).
Proof.
  intros Hone Hsettings ws. induction ws as [|w ws IH]; intros p p'; [reflexivity|].
  rewrite serve_cons. destruct (fst (Collect ParseFloat w p)) as [r|] eqn:Hr;
    [|discriminate].
  cbn [fst snd]. intros Hp'. rewrite filter_app, length_app, Hone, (IH _ _ Hp').
  rewrite length_filter_cons. f_equal. f_equal. f_equal.
  rewrite (Collect_coll _ _ _ Hr).
  clear IH Hp'. induction ws as [|w' ws IH]; [reflexivity|].
  by rewrite !filter_cons, Hsettings, IH.
Qed.

(** X11: a failing sysfs discovery is logged at every scrape.  Over any
    sequence of scrapes that return, the number of [discoverSensors error]
    lines is the number of scrapes in which hwmon is enabled and its base
    path cannot be listed, and likewise for [discoverThermalSensors
    error]: no flag suppresses the repeats, unlike the [sensors -j]
    warning.  A single scrape writes each line once when the discovery
    fails, whether or not it returns. *)
Theorem sysfs_failure_logged_every_scrape (ws : list World) (p p' : process) :
  fst (serve ParseFloat ws p) = Some p' ->
  length (filter isHwmonWarning (snd (serve ParseFloat ws p)))
  = length (filter (fun w => hwmonFails w (coll p)) ws)
  /\ length (filter isThermalWarning (snd (serve ParseFloat ws p)))
     = length (filter (fun w => thermalFails w (coll p)) ws)
  /\ (forall w,
        length (filter isHwmonWarning (snd (Collect ParseFloat w p)))
        = (if hwmonFails w (coll p) then 1 else 0)%nat
        /\ length (filter isThermalWarning (snd (Collect ParseFloat w p)))
           = (if thermalFails w (coll p) then 1 else 0)%nat).
Proof.
  intros Hp'. split; [|split].
  - apply (serve_sysfsWarnings isHwmonWarning hwmonFails) with (p' := p');
      [apply Collect_hwmonWarnings|reflexivity|exact Hp'].
  - apply (serve_sysfsWarnings isThermalWarning thermalFails) with (p' := p');
      [apply Collect_thermalWarnings|reflexivity|exact Hp'].
  - intros w. split; [apply Collect_hwmonWarnings|apply Collect_thermalWarnings].
Qed.

Lemma Collect_discover_factor w c s :
  s ∈ fst (Collect_discover w c) -> factor s = 0.001%float.
Proof.
  rewrite Collect_discover_fst, elem_of_app. intros [Hs|Hs].
  - destruct (enableHwmon c); [|by apply elem_of_nil in Hs].
    destruct (ReadDir (w_fs w) (basePath c)) as [entries|e] eqn:Hbase.
    + rewrite (discoverSensors_listed _ _ _ Hbase) in Hs.
      by apply elem_of_hwmon_descriptors in Hs as (? & ? & ? & ? & _ & _ & _ & _ & _ & ->).
    + rewrite (discoverSensors_unlistable _ _ _ Hbase) in Hs. by apply elem_of_nil in Hs.
  - destruct (enableThermal c); [|by apply elem_of_nil in Hs].
    destruct (ReadDir (w_fs w) (thermalPath c)) as [entries|e] eqn:Hbase.
    + rewrite (discoverThermalSensors_listed _ _ _ Hbase) in Hs. cbn [fst] in Hs.
      apply list_elem_of_bind in Hs as (e & Hs & _). unfold thermalZone in Hs.
      destruct (isZone e); [|by apply elem_of_nil in Hs].
      destruct (Stat _ _); [by apply elem_of_nil in Hs|].
      apply list_elem_of_singleton in Hs. by subst s.
    + rewrite (discoverThermalSensors_unlistable _ _ _ Hbase) in Hs.
      by apply elem_of_nil in Hs.
Qed.

Lemma upserts_lookup_Some (g : gmap ReadingKey float64) l k v :
  upserts g l !! k = Some v -> g !! k = Some v \/ (k, v) ∈ l.
Proof.
  revert g. induction l as [|[k' v'] l IH]; intros g; [by left|].
  rewrite upserts_cons. intros [Hg|Hl]%IH.
  - destruct (decide (k = k')) as [->|Hne].
    + rewrite lookup_insert_eq in Hg. injection Hg as ->. right. apply list_elem_of_here.
    + rewrite lookup_insert_ne in Hg by done. by left.
  - right. by apply list_elem_of_further.
Qed.

(** X12: hwmon and thermal values are always taken as millidegrees.
    Every sysfs descriptor of a scrape has the scale factor 0.001.  For
    such a descriptor the body of the loop leaves the gauge vector as it
    is when the input file gives no line or the line is not a number, and
    otherwise sets, for the descriptor's key, the number parsed from the
    line that [readFirstLine] returns (trimming it again changes nothing)
    times 0.001.  So every value published by a scrape that returns is
    such a product for a descriptor with that key, or the value of a
    [sensors -j] reading with that key, which is not scaled. *)
Theorem sysfs_readings_are_scaled (w : World) (p : process) (r : process * list Metric) :
  fst (Collect ParseFloat w p) = Some r ->
  (forall s, s ∈ fst (Collect_discover w (coll p)) -> factor s = 0.001%float)
  /\ (forall s g,
        s ∈ fst (Collect_discover w (coll p)) ->
        fst (Collect_read ParseFloat w s g)
        = match fst (readFirstLine (w_fs w) (path s)) with
          | Err _ => Some g
          | Ok line =>
              match ParseFloat line with
              | Err _ => Some g
              | Ok x => WithLabelValues_Set g (sensorKey s) (PrimFloat.mul x 0.001%float)
              end
          end)
  /\ (forall k v,
        sensors (coll (fst r)) !! k = Some v ->
        (exists s line x,
           s ∈ fst (Collect_discover w (coll p))
           /\ k = sensorKey s
           /\ fst (readFirstLine (w_fs w) (path s)) = Ok line
           /\ ParseFloat line = Ok x
           /\ v = PrimFloat.mul x 0.001%float)
        \/ (exists readings c,
              enableSensorsCli (coll p) = true
              /\ fst (discoverSensorsCLI w (sensorsCliPath (coll p))
                        (sensorsTimeout (coll p))) = Ok readings
              /\ c ∈ readings /\ k = cliKey c /\ v = cli_value c)).
Proof.
  intros Hr. split; [intros s; apply Collect_discover_factor|]. split.
  - intros s g Hs. unfold Collect_read. rewrite fst_io_bind.
    destruct (fst (readFirstLine (w_fs w) (path s))) as [line|e] eqn:Hline; [|reflexivity].
    rewrite (readFirstLine_trimmed _ _ _ Hline).
    destruct (ParseFloat line); [|reflexivity].
    cbn [io_ret fst]. by rewrite (Collect_discover_factor _ _ _ Hs).
  - intros k v Hkv. rewrite (Collect_gauge _ _ _ _ Hr) in Hkv.
    apply upserts_lookup_Some in Hkv as [Hkv|Hkv]; [by rewrite lookup_empty in Hkv|].
    unfold observed in Hkv. apply elem_of_app in Hkv as [Hkv|Hkv].
    + left. apply list_elem_of_omap in Hkv as (s & Hs & Hkv). unfold reading in Hkv.
      destruct (fst (readFirstLine (w_fs w) (path s))) as [line|e] eqn:Hline;
        [|discriminate].
      rewrite (readFirstLine_trimmed _ _ _ Hline) in Hkv.
      destruct (ParseFloat line) as [x|e] eqn:Hx; [|discriminate].
      injection Hkv as <- <-. exists s, line, x.
      by rewrite (Collect_discover_factor _ _ _ Hs).
    + right. unfold cliObserved in Hkv.
      destruct (enableSensorsCli (coll p)); [|by apply elem_of_nil in Hkv].
      destruct (fst (discoverSensorsCLI w _ _)) as [readings|e];
        [|by apply elem_of_nil in Hkv].
      apply list_elem_of_fmap in Hkv as (c & [= -> ->] & Hc). by exists readings, c.
Qed.

End Lifetime.

(** Two scrapes of a tree without a hwmon directory: the same outcome,
    and the [discoverSensors error] line twice. *)
Lemma scrape_forgets_earlier_scrapes_witness :
  let w := world fs_thermal_only (Err ENOENT) in
  exists p',
    fst (serve ParseFloat_decimal [w; w] (start all_backends)) = Some p'
    /\ (fun r => (coll (fst r), snd r)) <$> fst (Collect ParseFloat_decimal w p')
       = (fun r => (coll (fst r), snd r))
           <$> fst (Collect ParseFloat_decimal w (start all_backends)).
Proof.
  intros w.
  destruct (fst (serve ParseFloat_decimal [w; w] (start all_backends))) as [p'|] eqn:Hp';
    [|vm_compute in Hp'; discriminate Hp'].
  exists p'. split; [reflexivity|].
  apply (scrape_forgets_earlier_scrapes ParseFloat_decimal [w; w] w
           (start all_backends) p' Hp').
Defined.

Lemma sysfs_failure_logged_every_scrape_witness :
  let w := world fs_thermal_only (Err ENOENT) in
  length (filter isHwmonWarning
            (snd (serve ParseFloat_decimal [w; w] (start all_backends)))) = 2%nat
  /\ length (filter isThermalWarning
               (snd (serve ParseFloat_decimal [w; w] (start all_backends)))) = 0%nat.
Proof.
  intros w.
  destruct (fst (serve ParseFloat_decimal [w; w] (start all_backends))) as [p'|] eqn:Hp';
    [|vm_compute in Hp'; discriminate Hp'].
  destruct (sysfs_failure_logged_every_scrape ParseFloat_decimal [w; w]
              (start all_backends) p' Hp') as (H1 & H2 & _).
  split; [rewrite H1|rewrite H2]; reflexivity.
Defined.

(** The zone of [fs_thermal_only] holds [47000]: 47 is published. *)
Lemma sysfs_readings_are_scaled_witness :
  let w := world fs_thermal_only (Err ENOENT) in
  exists r s line x,
    fst (Collect ParseFloat_decimal w (start all_backends)) = Some r
    /\ sensors (coll (fst r)) !! ("thermal", "x86_pkg_temp", "thermal_zone0")
       = Some 47%float
    /\ ("thermal", "x86_pkg_temp", "thermal_zone0") = sensorKey s
    /\ fst (readFirstLine (w_fs w) (path s)) = Ok line
    /\ ParseFloat_decimal line = Ok x
    /\ 47%float = PrimFloat.mul x 0.001%float.
Proof.
  intros w.
  destruct (fst (Collect ParseFloat_decimal w (start all_backends))) as [r|] eqn:Hr;
    [|vm_compute in Hr; discriminate Hr].
  assert (Hkv : sensors (coll (fst r)) !! ("thermal", "x86_pkg_temp", "thermal_zone0")
                = Some 47%float).
  { rewrite (Collect_gauge _ _ _ _ Hr). vm_compute. reflexivity. }
  destruct (sysfs_readings_are_scaled ParseFloat_decimal w (start all_backends) r Hr)
    as (_ & _ & Hpub).
  destruct (Hpub _ _ Hkv) as [(s & line & x & _ & H)|(readings & c & _ & Hcli & _)].
  - by exists r, s, line, x.
  - vm_compute in Hcli. discriminate Hcli.
Defined.

(** ** Entries that are not directories *)

Lemma forEach_skips {A S} (P : A -> Prop) (body : A -> S -> IO S) (l : list A) :
  (forall x s, P x -> body x s = (s, [])) ->
  Forall P l -> forall s, forEach l body s = (s, []).
Proof.
  intros Hbody. induction 1 as [|x l Hx _ IH]; intros s; [reflexivity|].
  cbn [forEach]. unfold io_bind. rewrite (Hbody _ _ Hx). cbn [fst snd]. by rewrite IH.
Qed.

(** X13: entries of a base path for which [IsDir] is false give no
    descriptor and no further system call, in both sysfs discoverers:
    when no entry of the base path is a directory (regular files, or
    entries that [ReadDir] reports as symbolic links), discovery lists the
    base path, returns no descriptor and no error, and opens nothing. *)
Theorem discovery_skips_non_directories
    (fs : FS) (base : pathname) (entries : list DirEntry) :
  ReadDir fs base = Ok entries ->
  Forall (fun e => IsDir e = false) entries ->
  discoverSensors fs base = (Ok [], [EvReadDir base])
  /\ discoverThermalSensors fs base = (Ok [], [EvReadDir base]).
Proof.
  intros Hbase Hfiles. split.
  - unfold discoverSensors, os_ReadDir, io_bind. cbn [fst snd]. rewrite Hbase.
    rewrite (forEach_skips (fun e => IsDir e = false)); [reflexivity| |exact Hfiles].
    intros e s He. unfold discoverSensors_chip. by rewrite He.
  - unfold discoverThermalSensors, os_ReadDir, io_bind. cbn [fst snd]. rewrite Hbase.
    rewrite (forEach_skips (fun e => IsDir e = false)); [reflexivity| |exact Hfiles].
    intros e s He. unfold discoverThermalSensors_zone. by rewrite He.
Qed.

(** A base path that holds two entries that are not directories. *)
Lemma discovery_skips_non_directories_witness :
  discoverSensors (tree [(hwmon, [file "hwmon0"; file "hwmon1"])] []) hwmon
  = (Ok [], [EvReadDir hwmon])
  /\ discoverThermalSensors (tree [(hwmon, [file "hwmon0"; file "hwmon1"])] []) hwmon
     = (Ok [], [EvReadDir hwmon]).
Proof.
  apply (discovery_skips_non_directories _ hwmon [file "hwmon0"; file "hwmon1"]);
    [reflexivity|]. by repeat constructor.
Defined.

(** ** Request logging *)

Lemma ServeHTTP_logging {W} `{ResponseWriter W} (calls : list call) (w : W) (status : Z) :
  ServeHTTP calls {| lrw_ResponseWriter := w; lrw_status := status |}
  = {| lrw_ResponseWriter := ServeHTTP calls w;
       lrw_status := default status (lastCode calls) |}.
Proof.
  revert w status. induction calls as [|c calls IH]; intros w status; [reflexivity|].
  unfold ServeHTTP in *. cbn [foldl lastCode].
  destruct c as [code|data|k v]; cbn [perform WriteHeader Write HeaderSet
    loggingResponseWriter_ResponseWriter lrw_ResponseWriter lrw_status];
    rewrite IH; by destruct (lastCode calls).
Qed.

Lemma ServeHTTP_recorder (calls : list call) (w : list call) :
  ServeHTTP calls w = w ++ calls.
Proof.
  revert w. induction calls as [|c calls IH]; intros w; [by rewrite app_nil_r|].
  unfold ServeHTTP in *. cbn [foldl]. rewrite IH.
  destruct c; cbn; by rewrite <- app_assoc.
Qed.

(** X14: [withRequestLogging] does not change what the wrapped handler
    does to the response: the writer receives the same calls, in the same
    order, as without the wrapper.  The line logged carries the method and
    the path of the request, the clock difference, and as status the code
    of the handler's last call of [WriteHeader], or 200 when it never calls
    it.  (A handler is taken as the sequence of its calls on the writer.) *)
Theorem request_logging_is_transparent {W} `{ResponseWriter W}
    (next : Request -> list call) (t0 t1 : Z) (w : W) (r : Request) :
  fst (withRequestLogging next t0 t1 w r) = ServeHTTP (next r) w
  /\ snd (withRequestLogging next t0 t1 w r)
     = {| log_method := Method r; log_path := URL_Path r;
          log_status := default 200%Z (lastCode (next r));
          log_duration := (t1 - t0)%Z |}
  /\ forall sent : list call, fst (withRequestLogging next t0 t1 sent r) = sent ++ next r.
Proof.
  unfold withRequestLogging. cbn [fst snd]. rewrite ServeHTTP_logging.
  split; [reflexivity|]. split; [reflexivity|].
  intros sent. rewrite ServeHTTP_logging. apply ServeHTTP_recorder.
Qed.

(** ** Scrapes without readings *)

Section Failures.

Variable ParseFloat : string -> result float64.

Lemma cliObserved_fails w c :
  (enableSensorsCli c = true -> cliFails w c = true) -> cliObserved w c = [].
Proof.
  unfold cliObserved, cliFails, discoverSensorsCLI. intros H.
  destruct (enableSensorsCli c); [|reflexivity].
  specialize (H eq_refl). rewrite fst_io_bind. cbn [fst andb] in *.
  by destruct (w_sensors_j w (sensorsCliPath c) (sensorsTimeout c)).
Qed.

Lemma Collect_discover_fails w c :
  (enableHwmon c = true -> hwmonFails w c = true) ->
  (enableThermal c = true -> thermalFails w c = true) ->
  fst (Collect_discover w c) = [].
Proof.
  unfold hwmonFails, thermalFails. intros Hh Ht. rewrite Collect_discover_fst.
  destruct (enableHwmon c), (enableThermal c); try reflexivity;
    try specialize (Hh eq_refl); try specialize (Ht eq_refl); cbn [andb] in *.
  - destruct (ReadDir (w_fs w) (basePath c)) eqn:Hb; [discriminate|].
    destruct (ReadDir (w_fs w) (thermalPath c)) eqn:Hb'; [discriminate|].
    by rewrite (discoverSensors_unlistable _ _ _ Hb),
      (discoverThermalSensors_unlistable _ _ _ Hb').
  - destruct (ReadDir (w_fs w) (basePath c)) eqn:Hb; [discriminate|].
    by rewrite (discoverSensors_unlistable _ _ _ Hb).
  - destruct (ReadDir (w_fs w) (thermalPath c)) eqn:Hb'; [discriminate|].
    by rewrite (discoverThermalSensors_unlistable _ _ _ Hb').
Qed.

(** X15: a scrape that returns and whose [sensors -j] backend is disabled,
    or whose command fails, publishes the sysfs readings and nothing else:
    a failing command contributes no reading.  When each sysfs backend is
    disabled or cannot list its base path, and [sensors -j] is disabled or
    fails, the scrape returns and sends exactly one metric, the scrape
    duration. *)
Theorem scrape_without_cli_readings (w : World) (p : process) :
  (enableSensorsCli (coll p) = true -> cliFails w (coll p) = true) ->
  (forall r,
     fst (Collect ParseFloat w p) = Some r ->
     sensors (coll (fst r)) = upserts ∅ (sysfsObserved ParseFloat w (coll p))
     /\ temperatures (snd r)
        = map_to_list (upserts ∅ (sysfsObserved ParseFloat w (coll p))))
  /\ ((enableHwmon (coll p) = true -> hwmonFails w (coll p) = true) ->
      (enableThermal (coll p) = true -> thermalFails w (coll p) = true) ->
      exists r,
        fst (Collect ParseFloat w p) = Some r
        /\ snd r = [scrape_duration_seconds (Seconds (w_end w - w_start w))]).
Proof.
  intros Hcli.
  assert (Hobs : observed ParseFloat w (coll p) = sysfsObserved ParseFloat w (coll p)).
  { unfold observed. by rewrite (cliObserved_fails _ _ Hcli), app_nil_r. }
  split.
  - intros r Hr. split.
    + by rewrite (Collect_gauge _ _ _ _ Hr), Hobs.
    + by rewrite (Collect_temperatures _ _ _ _ Hr), Hobs.
  - intros Hh Ht. rewrite Collect_fst, Hobs. unfold sysfsObserved.
    rewrite (Collect_discover_fails _ _ Hh Ht). cbn [omap list_omap validKeys forallb].
    eexists. split; [reflexivity|]. cbn [snd upserts foldl].
    unfold GaugeVec_Collect. by rewrite map_to_list_empty.
Qed.

End Failures.

(** No sysfs tree and no [sensors] command: one metric is sent. *)
Lemma scrape_without_cli_readings_witness :
  exists r,
    fst (Collect ParseFloat_decimal (world (tree [] []) (Err ENOENT))
           (start all_backends)) = Some r
    /\ snd r = [scrape_duration_seconds (Seconds 1500)].
Proof.
  destruct (scrape_without_cli_readings ParseFloat_decimal
              (world (tree [] []) (Err ENOENT)) (start all_backends))
    as (_ & H); [intros _; reflexivity|].
  apply H; intros _; reflexivity.
Defined.
